(** * imeSync: the trigger-driven synchronisation scheduler

    A shallow embedding of [src/services/SyncManager.ts] (class
    [SyncManager]) and of the [sync-now] handler of [src/main.ts], with the
    types of [types/SessionConfig.ts].

    Conventions of the embedding.
    - A JavaScript string is a [string]: a sequence of code units below 256.
    - A JavaScript number that the code uses as an integer (milliseconds,
      minutes, a port, a clock reading) is a [Z].
    - An optional field [f?: T] is an [option T]; [undefined] is [None].
    - The manager, the timers and watchers of the host (Node) and the
      observable effects (console lines, callback invocations, subprocess
      launches) are one explicit state, [World], passed through every
      operation.
    - What the outside world answers (the clock, the sampled network
      identity, the outcome of the subprocess, of the filesystem and of the
      injected callbacks) is an argument of the operation that asks for it. *)

From Stdlib Require Import ZArith List Ascii Bool Lia.
From stdpp Require Import base tactics option list strings pretty gmap fin_maps.

Local Open Scope Z_scope.

(** ** JavaScript strings *)

Module JS.

(** [s.startsWith(p)]. *)
Fixpoint startsWith (s p : string) {struct p} : bool :=
  match p, s with
  | EmptyString, _ => true
  | String _ _, EmptyString => false
  | String a p', String b s' => if decide (a = b) then startsWith s' p' else false
  end.

(** [s.includes(p)]: [p] occurs in [s] as a contiguous run. *)
Fixpoint includes (s p : string) : bool :=
  startsWith s p ||
  match s with
  | EmptyString => false
  | String _ s' => includes s' p
  end.

(** White space of [String.prototype.trim] among the code units below 256:
    TAB, LF, VT, FF, CR, SPACE and NBSP. *)
Definition isWhiteSpace (c : ascii) : bool :=
  let n := nat_of_ascii c in
  ((9 <=? n)%nat && (n <=? 13)%nat) || (n =? 32)%nat || (n =? 160)%nat.

Fixpoint trimStart (s : string) : string :=
  match s with
  | EmptyString => EmptyString
  | String c s' => if isWhiteSpace c then trimStart s' else s
  end.

Fixpoint trimEnd (s : string) : string :=
  match s with
  | EmptyString => EmptyString
  | String c s' =>
      match trimEnd s' with
      | EmptyString => if isWhiteSpace c then EmptyString else String c EmptyString
      | t => String c t
      end
  end.

(** [s.trim()]. *)
Definition trim (s : string) : string := trimEnd (trimStart s).

(** Truthiness of a string: the empty string is falsy. *)
Definition truthy (s : string) : bool :=
  match s with EmptyString => false | String _ _ => true end.

(** [s.split(sep)] for a one-character separator. *)
Fixpoint split (sep : ascii) (s : string) : list string :=
  match s with
  | EmptyString => [EmptyString]
  | String c s' =>
      if decide (c = sep) then EmptyString :: split sep s'
      else match split sep s' with
           | h :: r => String c h :: r
           | [] => [String c EmptyString]
           end
  end.

(** [xs.join(sep)]. *)
Fixpoint join (sep : string) (xs : list string) : string :=
  match xs with
  | [] => EmptyString
  | [x] => x
  | x :: r => x +:+ sep +:+ join sep r
  end.

Definition isDigit (c : ascii) : bool :=
  let n := nat_of_ascii c in (48 <=? n)%nat && (n <=? 57)%nat.

Fixpoint allDigits (s : string) : bool :=
  match s with
  | EmptyString => true
  | String c s' => isDigit c && allDigits s'
  end.

Fixpoint digitsValue (acc : Z) (s : string) : Z :=
  match s with
  | EmptyString => acc
  | String c s' => digitsValue (10 * acc + (Z.of_nat (nat_of_ascii c) - 48)) s'
  end.

(** [Number(s)] compared with [===] against an integer: the integer that
    [Number(s)] is, when [s] is, after trimming, empty (0) or a run of
    decimal digits; [None] stands for [NaN]. Signs, fractions, exponents
    and radix prefixes are not modelled and read as [NaN]. *)
Definition Number (s : string) : option Z :=
  let t := trim s in
  if allDigits t then Some (digitsValue 0 t) else None.

(** [String(n)] of an integer number (exponent notation, used from 1e21
    on, is not modelled). *)
Definition numToString (n : Z) : string := pretty n.

(** [String(ms / 1000)]: a number of milliseconds printed in seconds, with
    at most three decimals and no trailing zero (non-negative [ms]). *)
Definition msToSeconds (ms : Z) : string :=
  let q := ms / 1000 in
  let r := ms mod 1000 in
  if r =? 0 then pretty q
  else if r mod 100 =? 0 then pretty q +:+ "." +:+ pretty (r / 100)
  else if r mod 10 =? 0 then
    pretty q +:+ "." +:+ pretty (r / 100) +:+ pretty (r / 10 mod 10)
  else pretty q +:+ "." +:+ pretty (r / 100) +:+ pretty (r / 10 mod 10)
                +:+ pretty (r mod 10).

(** [n.toString().padStart(2, '0')]. *)
Definition pad2 (n : Z) : string :=
  let s := numToString n in
  if (String.length s <? 2)%nat then "0" +:+ s else s.

(** [a < b] and [a > b] on strings: lexicographic on code units. *)
Definition ltb (a b : string) : bool :=
  match String.compare a b with Lt => true | _ => false end.
Definition gtb (a b : string) : bool := ltb b a.

(** [`${e}`] for an [Error] with message [m]. *)
Definition errorToString (m : string) : string :=
  match m with EmptyString => "Error" | _ => "Error: " +:+ m end.

(** The double-quote character, as a string. *)
Definition dquote : string := String (ascii_of_nat 34) EmptyString.

End JS.

(** ** Data model ([types/SessionConfig.ts]) *)

Record WiFiTrigger := {
  ssid : string;
  onConnect : bool
}.

Record ScheduleTrigger := {
  time : string;
  days : list string
}.

Record FileChangeTrigger := {
  watchPaths : list string;
  debounceMs : Z;
  recursive : bool;
  ignorePatterns : option (list string)
}.

Record StartupTrigger := {
  delayMs : Z
}.

Record IntervalTrigger := {
  intervalMinutes : Z;
  startTime : option string;
  endTime : option string
}.

Inductive Trigger :=
| TWiFi (t : WiFiTrigger)
| TSchedule (t : ScheduleTrigger)
| TFileChange (t : FileChangeTrigger)
| TStartup (t : StartupTrigger)
| TInterval (t : IntervalTrigger).

Inductive SyncStatus := StatusSuccess | StatusError | StatusWarning.

Record RsyncOptions := {
  deleteOnDestination : bool;
  compress : bool;
  preservePermissions : bool;
  updateOnly : bool
}.

Record RemoteConnection := {
  host : string;
  username : string;
  password : option string;
  port : option Z;
  remotePath : string;
  moduleName : option string
}.

Record SessionConfig := {
  id : string;
  name : string;
  sourcePath : string;
  destinationPath : string;
  triggers : list Trigger;
  excludePatterns : option (list string);
  lastSync : option string;
  lastSyncStatus : option SyncStatus;
  lastSyncError : option string;
  enabled : bool;
  paused : option bool;
  rsyncOptions : option RsyncOptions;
  remoteConnection : option RemoteConnection
}.

#[global] Instance WiFiTrigger_eq_dec : EqDecision WiFiTrigger.
Proof. solve_decision. Defined.
#[global] Instance ScheduleTrigger_eq_dec : EqDecision ScheduleTrigger.
Proof. solve_decision. Defined.
#[global] Instance FileChangeTrigger_eq_dec : EqDecision FileChangeTrigger.
Proof. solve_decision. Defined.
#[global] Instance StartupTrigger_eq_dec : EqDecision StartupTrigger.
Proof. solve_decision. Defined.
#[global] Instance IntervalTrigger_eq_dec : EqDecision IntervalTrigger.
Proof. solve_decision. Defined.
#[global] Instance Trigger_eq_dec : EqDecision Trigger.
Proof. solve_decision. Defined.
#[global] Instance SyncStatus_eq_dec : EqDecision SyncStatus.
Proof. solve_decision. Defined.
#[global] Instance RsyncOptions_eq_dec : EqDecision RsyncOptions.
Proof. solve_decision. Defined.
#[global] Instance RemoteConnection_eq_dec : EqDecision RemoteConnection.
Proof. solve_decision. Defined.
#[global] Instance SessionConfig_eq_dec : EqDecision SessionConfig.
Proof. solve_decision. Defined.

(** ** Observable effects *)

Inductive LogType := LInfo | LSuccess | LError | LWarning.
Inductive NotificationType := NInfo | NError | NWarning.

(** The timer callbacks the manager hands to [setTimeout] / [setInterval].
    A closure is represented by its code and by what it captured. *)
Inductive Callback :=
| MarkStartupExecuted
| CheckSchedule (sessionId sessionName : string) (trigger : ScheduleTrigger)
| DebounceExpired (sessionId sessionName debounceKey filename : string)
| StartupFire (sessionId sessionName : string) (trigger : StartupTrigger)
| ExecuteSync (sessionId sessionName : string) (trigger : IntervalTrigger)
| CheckNetwork.

Inductive Event :=
| Console (line : string)
| Log (type : LogType) (message : string)
| LogFactory (sessionId : string)
| SyncStart (sessionId : string)
| SyncEnd (sessionId : string)
| Save (snapshot : list SessionConfig)
| Notify (title body : string) (type : NotificationType)
| Exec (command : string) (RSYNC_PASSWORD : option string)
| Ran (handle : nat) (callback : Callback).

#[global] Instance LogType_eq_dec : EqDecision LogType.
Proof. solve_decision. Defined.
#[global] Instance NotificationType_eq_dec : EqDecision NotificationType.
Proof. solve_decision. Defined.
#[global] Instance Callback_eq_dec : EqDecision Callback.
Proof. solve_decision. Defined.
#[global] Instance Event_eq_dec : EqDecision Event.
Proof. solve_decision. Defined.

(** ** The state *)

(** A live timer of the host: [setTimeout] gives a one-shot timer,
    [setInterval] a repeating one. The first run is [delay] ms after the
    call (the host's clamping of delays outside 1 .. 2^31-1 is not
    modelled). *)
Record Timer := {
  callback : Callback;
  delay : Z;
  repeating : bool;
  due : Z
}.

(** An open [fs.watch] handle with what its listener captured. *)
Record Watch := {
  watchSessionId : string;
  watchSessionName : string;
  watchPath : string;
  watchTrigger : FileChangeTrigger
}.

Record World := {
  (* fields of SyncManager *)
  sessions : list SessionConfig;
  timers : gmap string nat;
  fileWatchers : gmap string (list nat);
  networkWatcher : option nat;
  currentSSID : option string;
  startupTriggersExecuted : bool;
  globallyPaused : bool;
  (* which of the optional constructor callbacks were given *)
  saveSessionsCallback : bool;
  notificationCallback : bool;
  syncStartCallback : bool;
  syncEndCallback : bool;
  logCallbackFactory : bool;
  (* the host: clock in ms, timer and watcher objects *)
  clock : Z;
  nextHandle : nat;
  liveTimers : gmap nat Timer;
  openWatchers : gmap nat Watch;
  (* everything observable that happened, oldest first *)
  trace : list Event
}.

Definition set_sessions (v : list SessionConfig) (w : World) : World :=
  {| sessions := v; timers := timers w; fileWatchers := fileWatchers w;
     networkWatcher := networkWatcher w; currentSSID := currentSSID w;
     startupTriggersExecuted := startupTriggersExecuted w;
     globallyPaused := globallyPaused w;
     saveSessionsCallback := saveSessionsCallback w;
     notificationCallback := notificationCallback w;
     syncStartCallback := syncStartCallback w;
     syncEndCallback := syncEndCallback w;
     logCallbackFactory := logCallbackFactory w;
     clock := clock w; nextHandle := nextHandle w;
     liveTimers := liveTimers w; openWatchers := openWatchers w;
     trace := trace w |}.

Definition set_timers (v : gmap string nat) (w : World) : World :=
  {| sessions := sessions w; timers := v; fileWatchers := fileWatchers w;
     networkWatcher := networkWatcher w; currentSSID := currentSSID w;
     startupTriggersExecuted := startupTriggersExecuted w;
     globallyPaused := globallyPaused w;
     saveSessionsCallback := saveSessionsCallback w;
     notificationCallback := notificationCallback w;
     syncStartCallback := syncStartCallback w;
     syncEndCallback := syncEndCallback w;
     logCallbackFactory := logCallbackFactory w;
     clock := clock w; nextHandle := nextHandle w;
     liveTimers := liveTimers w; openWatchers := openWatchers w;
     trace := trace w |}.

Definition set_fileWatchers (v : gmap string (list nat)) (w : World) : World :=
  {| sessions := sessions w; timers := timers w; fileWatchers := v;
     networkWatcher := networkWatcher w; currentSSID := currentSSID w;
     startupTriggersExecuted := startupTriggersExecuted w;
     globallyPaused := globallyPaused w;
     saveSessionsCallback := saveSessionsCallback w;
     notificationCallback := notificationCallback w;
     syncStartCallback := syncStartCallback w;
     syncEndCallback := syncEndCallback w;
     logCallbackFactory := logCallbackFactory w;
     clock := clock w; nextHandle := nextHandle w;
     liveTimers := liveTimers w; openWatchers := openWatchers w;
     trace := trace w |}.

Definition set_networkWatcher (v : option nat) (w : World) : World :=
  {| sessions := sessions w; timers := timers w; fileWatchers := fileWatchers w;
     networkWatcher := v; currentSSID := currentSSID w;
     startupTriggersExecuted := startupTriggersExecuted w;
     globallyPaused := globallyPaused w;
     saveSessionsCallback := saveSessionsCallback w;
     notificationCallback := notificationCallback w;
     syncStartCallback := syncStartCallback w;
     syncEndCallback := syncEndCallback w;
     logCallbackFactory := logCallbackFactory w;
     clock := clock w; nextHandle := nextHandle w;
     liveTimers := liveTimers w; openWatchers := openWatchers w;
     trace := trace w |}.

Definition set_currentSSID (v : option string) (w : World) : World :=
  {| sessions := sessions w; timers := timers w; fileWatchers := fileWatchers w;
     networkWatcher := networkWatcher w; currentSSID := v;
     startupTriggersExecuted := startupTriggersExecuted w;
     globallyPaused := globallyPaused w;
     saveSessionsCallback := saveSessionsCallback w;
     notificationCallback := notificationCallback w;
     syncStartCallback := syncStartCallback w;
     syncEndCallback := syncEndCallback w;
     logCallbackFactory := logCallbackFactory w;
     clock := clock w; nextHandle := nextHandle w;
     liveTimers := liveTimers w; openWatchers := openWatchers w;
     trace := trace w |}.

Definition set_startupTriggersExecuted (v : bool) (w : World) : World :=
  {| sessions := sessions w; timers := timers w; fileWatchers := fileWatchers w;
     networkWatcher := networkWatcher w; currentSSID := currentSSID w;
     startupTriggersExecuted := v;
     globallyPaused := globallyPaused w;
     saveSessionsCallback := saveSessionsCallback w;
     notificationCallback := notificationCallback w;
     syncStartCallback := syncStartCallback w;
     syncEndCallback := syncEndCallback w;
     logCallbackFactory := logCallbackFactory w;
     clock := clock w; nextHandle := nextHandle w;
     liveTimers := liveTimers w; openWatchers := openWatchers w;
     trace := trace w |}.

Definition set_globallyPaused (v : bool) (w : World) : World :=
  {| sessions := sessions w; timers := timers w; fileWatchers := fileWatchers w;
     networkWatcher := networkWatcher w; currentSSID := currentSSID w;
     startupTriggersExecuted := startupTriggersExecuted w;
     globallyPaused := v;
     saveSessionsCallback := saveSessionsCallback w;
     notificationCallback := notificationCallback w;
     syncStartCallback := syncStartCallback w;
     syncEndCallback := syncEndCallback w;
     logCallbackFactory := logCallbackFactory w;
     clock := clock w; nextHandle := nextHandle w;
     liveTimers := liveTimers w; openWatchers := openWatchers w;
     trace := trace w |}.

Definition set_clock (v : Z) (w : World) : World :=
  {| sessions := sessions w; timers := timers w; fileWatchers := fileWatchers w;
     networkWatcher := networkWatcher w; currentSSID := currentSSID w;
     startupTriggersExecuted := startupTriggersExecuted w;
     globallyPaused := globallyPaused w;
     saveSessionsCallback := saveSessionsCallback w;
     notificationCallback := notificationCallback w;
     syncStartCallback := syncStartCallback w;
     syncEndCallback := syncEndCallback w;
     logCallbackFactory := logCallbackFactory w;
     clock := v; nextHandle := nextHandle w;
     liveTimers := liveTimers w; openWatchers := openWatchers w;
     trace := trace w |}.

Definition set_nextHandle (v : nat) (w : World) : World :=
  {| sessions := sessions w; timers := timers w; fileWatchers := fileWatchers w;
     networkWatcher := networkWatcher w; currentSSID := currentSSID w;
     startupTriggersExecuted := startupTriggersExecuted w;
     globallyPaused := globallyPaused w;
     saveSessionsCallback := saveSessionsCallback w;
     notificationCallback := notificationCallback w;
     syncStartCallback := syncStartCallback w;
     syncEndCallback := syncEndCallback w;
     logCallbackFactory := logCallbackFactory w;
     clock := clock w; nextHandle := v;
     liveTimers := liveTimers w; openWatchers := openWatchers w;
     trace := trace w |}.

Definition set_liveTimers (v : gmap nat Timer) (w : World) : World :=
  {| sessions := sessions w; timers := timers w; fileWatchers := fileWatchers w;
     networkWatcher := networkWatcher w; currentSSID := currentSSID w;
     startupTriggersExecuted := startupTriggersExecuted w;
     globallyPaused := globallyPaused w;
     saveSessionsCallback := saveSessionsCallback w;
     notificationCallback := notificationCallback w;
     syncStartCallback := syncStartCallback w;
     syncEndCallback := syncEndCallback w;
     logCallbackFactory := logCallbackFactory w;
     clock := clock w; nextHandle := nextHandle w;
     liveTimers := v; openWatchers := openWatchers w;
     trace := trace w |}.

Definition set_openWatchers (v : gmap nat Watch) (w : World) : World :=
  {| sessions := sessions w; timers := timers w; fileWatchers := fileWatchers w;
     networkWatcher := networkWatcher w; currentSSID := currentSSID w;
     startupTriggersExecuted := startupTriggersExecuted w;
     globallyPaused := globallyPaused w;
     saveSessionsCallback := saveSessionsCallback w;
     notificationCallback := notificationCallback w;
     syncStartCallback := syncStartCallback w;
     syncEndCallback := syncEndCallback w;
     logCallbackFactory := logCallbackFactory w;
     clock := clock w; nextHandle := nextHandle w;
     liveTimers := liveTimers w; openWatchers := v;
     trace := trace w |}.

Definition set_trace (v : list Event) (w : World) : World :=
  {| sessions := sessions w; timers := timers w; fileWatchers := fileWatchers w;
     networkWatcher := networkWatcher w; currentSSID := currentSSID w;
     startupTriggersExecuted := startupTriggersExecuted w;
     globallyPaused := globallyPaused w;
     saveSessionsCallback := saveSessionsCallback w;
     notificationCallback := notificationCallback w;
     syncStartCallback := syncStartCallback w;
     syncEndCallback := syncEndCallback w;
     logCallbackFactory := logCallbackFactory w;
     clock := clock w; nextHandle := nextHandle w;
     liveTimers := liveTimers w; openWatchers := openWatchers w;
     trace := v |}.

(** Appends effects to the trace. *)
Definition emit (es : list Event) (w : World) : World :=
  set_trace (trace w ++ es) w.

(** [console.log] and [console.error]. *)
Definition console (line : string) (w : World) : World := emit [Console line] w.

(** The constructor: [new SyncManager(sessions, save?, notify?, start?, end?,
    logFactory?)] in a host whose clock shows [now]. *)
Definition create (ss : list SessionConfig)
    (save notify syncStart syncEnd logFactory : bool) (now : Z) : World :=
  {| sessions := ss; timers := ∅; fileWatchers := ∅;
     networkWatcher := None; currentSSID := None;
     startupTriggersExecuted := false; globallyPaused := false;
     saveSessionsCallback := save; notificationCallback := notify;
     syncStartCallback := syncStart; syncEndCallback := syncEnd;
     logCallbackFactory := logFactory;
     clock := now; nextHandle := 0%nat;
     liveTimers := ∅; openWatchers := ∅; trace := [] |}.

(** [setTimeout(cb, d)] / [setInterval(cb, d)]: a new timer object. *)
Definition setTimer (cb : Callback) (d : Z) (rep : bool) (w : World) : nat * World :=
  let h := nextHandle w in
  (h, set_nextHandle (S h)
        (set_liveTimers
           (<[h := {| callback := cb; delay := d; repeating := rep;
                      due := clock w + d |}]> (liveTimers w)) w)).

Definition setTimeout (cb : Callback) (d : Z) (w : World) : nat * World :=
  setTimer cb d false w.
Definition setInterval (cb : Callback) (d : Z) (w : World) : nat * World :=
  setTimer cb d true w.

(** [clearTimeout(h)] / [clearInterval(h)]: both cancel either kind. *)
Definition clearTimer (h : nat) (w : World) : World :=
  set_liveTimers (delete h (liveTimers w)) w.

(** [watcher.close()]. *)
Definition closeWatcher (h : nat) (w : World) : World :=
  set_openWatchers (delete h (openWatchers w)) w.

(** ** Sync executor *)

(** What the outside world answers during one run of [syncSession]. *)
Inductive ExecResult :=
| ExecOk (stdout stderr : string)
| ExecError (message : string).

Record SyncEnv := {
  (* fs.access(sourcePath) resolves *)
  sourceExists : bool;
  (* outcome of execAsync(command, { env }) *)
  execResult : ExecResult;
  (* Date.now() before and after the subprocess *)
  startMs : Z;
  endMs : Z;
  (* new Date().toISOString() when the outcome is recorded *)
  nowISO : string;
  (* saveSessionsCallback rejects with e: Some `${e}` *)
  saveError : option string;
  (* notificationCallback rejects with e: Some `${e}` *)
  notifyError : option string
}.

(** A settled promise: resolved, or rejected with an [Error] of that
    message. *)
Inductive Outcome :=
| Resolved
| Rejected (message : string).

#[global] Instance Outcome_eq_dec : EqDecision Outcome.
Proof. solve_decision. Defined.

Definition levelUpper (t : LogType) : string :=
  match t with
  | LInfo => "INFO" | LSuccess => "SUCCESS"
  | LError => "ERROR" | LWarning => "WARNING"
  end.

(** The closure [log] of [syncSession]: a console line, then the caller's
    log callback when one was passed. *)
Definition logEvents (logCallback : bool) (t : LogType) (message : string)
    : list Event :=
  Console ("[" +:+ levelUpper t +:+ "] " +:+ message)
    :: (if logCallback then [Log t message] else []).

Definition log (logCallback : bool) (t : LogType) (message : string)
    (w : World) : World :=
  emit (logEvents logCallback t message) w.

(** [this.sessions.find(s => s.id === sessionId)]. *)
Definition findSession (sessionId : string) (ss : list SessionConfig)
    : option SessionConfig :=
  List.find (fun s => bool_decide (id s = sessionId)) ss.

(** Assignment to fields of the object that [find] returned: the first
    session with that id is updated in place in the collection. *)
Fixpoint mutateSession (sessionId : string) (f : SessionConfig -> SessionConfig)
    (ss : list SessionConfig) : list SessionConfig :=
  match ss with
  | [] => []
  | s :: r =>
      if bool_decide (id s = sessionId) then f s :: r
      else s :: mutateSession sessionId f r
  end.

Definition recordOutcome (when : string) (st : SyncStatus) (err : option string)
    (s : SessionConfig) : SessionConfig :=
  {| id := id s; name := name s; sourcePath := sourcePath s;
     destinationPath := destinationPath s; triggers := triggers s;
     excludePatterns := excludePatterns s;
     lastSync := Some when; lastSyncStatus := Some st; lastSyncError := err;
     enabled := enabled s; paused := paused s;
     rsyncOptions := rsyncOptions s; remoteConnection := remoteConnection s |}.

Definition setPaused (b : bool) (s : SessionConfig) : SessionConfig :=
  {| id := id s; name := name s; sourcePath := sourcePath s;
     destinationPath := destinationPath s; triggers := triggers s;
     excludePatterns := excludePatterns s;
     lastSync := lastSync s; lastSyncStatus := lastSyncStatus s;
     lastSyncError := lastSyncError s;
     enabled := enabled s; paused := Some b;
     rsyncOptions := rsyncOptions s; remoteConnection := remoteConnection s |}.

(** The command line of [syncWithRsync], built as the code does: by
    appending to [command]. *)
Definition appendExclude (command pattern : string) : string :=
  let cleanPattern := JS.trim pattern in
  if JS.truthy cleanPattern then command +:+ " --exclude='" +:+ cleanPattern +:+ "'"
  else command.

Definition optionFlag {A} (o : option A) (f : A -> bool) : bool :=
  match o with Some x => f x | None => false end.

(** [rsyncOptions?.updateOnly ?? true]. *)
Definition updateOnlyOf (s : SessionConfig) : bool :=
  match rsyncOptions s with Some o => updateOnly o | None => true end.

Definition buildCommand (s : SessionConfig) : string :=
  let command := EmptyString in
  let command := command +:+ "rsync -av --progress --stats" in
  let command := command +:+ " --human-readable" in
  let command := fold_left appendExclude (default [] (excludePatterns s)) command in
  let command := if negb (updateOnlyOf s) then command +:+ " --ignore-times" else command in
  let command :=
    if optionFlag (rsyncOptions s) deleteOnDestination then command +:+ " --delete"
    else command in
  let command :=
    if optionFlag (rsyncOptions s) compress then command +:+ " -z" else command in
  let command :=
    if optionFlag (rsyncOptions s) preservePermissions then command +:+ " -p"
    else command in
  command +:+ " " +:+ JS.dquote +:+ sourcePath s +:+ "/" +:+ JS.dquote
          +:+ " " +:+ JS.dquote +:+ destinationPath s +:+ "/" +:+ JS.dquote.

(** The value of [env.RSYNC_PASSWORD] that the code sets: the password when
    it is present and not empty. *)
Definition rsyncPassword (s : SessionConfig) : option string :=
  match remoteConnection s with
  | Some rc =>
      match password rc with
      | Some p => if JS.truthy p then Some p else None
      | None => None
      end
  | None => None
  end.

(** Reading the subprocess output, for the log only. *)

Fixpoint dropPrefix (p s : string) {struct p} : option string :=
  match p, s with
  | EmptyString, _ => Some s
  | String _ _, EmptyString => None
  | String a p', String b s' => if decide (a = b) then dropPrefix p' s' else None
  end.

Fixpoint takeDigits (s : string) : string :=
  match s with
  | EmptyString => EmptyString
  | String c s' => if JS.isDigit c then String c (takeDigits s') else EmptyString
  end.

(** [line.match(/Number of files transferred: (\d+)/)]: the captured
    group of the leftmost match. *)
Fixpoint matchFilesTransferred (line : string) : option string :=
  let here :=
    match dropPrefix "Number of files transferred: " line with
    | Some r => let d := takeDigits r in if JS.truthy d then Some d else None
    | None => None
    end in
  match here with
  | Some d => Some d
  | None =>
      match line with
      | EmptyString => None
      | String _ l' => matchFilesTransferred l'
      end
  end.

(** A character that [.] of a regular expression matches (among the code
    units below 256: all but LF and CR). *)
Definition isDot (c : ascii) : bool :=
  negb ((nat_of_ascii c =? 10)%nat || (nat_of_ascii c =? 13)%nat).

(** The longest run of [.] characters at the head of [s] that is followed
    by [suffix]. *)
Fixpoint greedyDots (suffix s : string) : option string :=
  match s with
  | EmptyString => if JS.startsWith s suffix then Some EmptyString else None
  | String c s' =>
      match (if isDot c then greedyDots suffix s' else None) with
      | Some cap => Some (String c cap)
      | None => if JS.startsWith s suffix then Some EmptyString else None
      end
  end.

(** [line.match(/Total file size: (.+) bytes/)]: the captured group of the
    leftmost match. *)
Fixpoint matchTotalSize (line : string) : option string :=
  let here :=
    match dropPrefix "Total file size: " line with
    | Some (String c r) =>
        if isDot c then
          match greedyDots " bytes" r with
          | Some cap => Some (String c cap)
          | None => None
          end
        else None
    | _ => None
    end in
  match here with
  | Some cap => Some cap
  | None =>
      match line with
      | EmptyString => None
      | String _ l' => matchTotalSize l'
      end
  end.

(** [Math.round((endTime - startTime) / 1000)]. *)
Definition durationSeconds (e : SyncEnv) : Z := (endMs e - startMs e + 500) / 1000.

(** The [lines.forEach] of the success branch: lines that are logged, and
    the two values picked up on the way. *)
Fixpoint scanLines (logCallback : bool) (lines : list string)
    (filesTransferred : Z) (totalSize : string) (w : World)
    : Z * string * World :=
  match lines with
  | [] => (filesTransferred, totalSize, w)
  | line :: r =>
      if JS.includes line "->" || JS.includes line "sent" || JS.includes line "received"
      then scanLines logCallback r filesTransferred totalSize
             (log logCallback LInfo line w)
      else if JS.includes line "Number of files transferred:" then
        match matchFilesTransferred line with
        | Some d => scanLines logCallback r (JS.digitsValue 0 d) totalSize w
        | None => scanLines logCallback r filesTransferred totalSize w
        end
      else if JS.includes line "Total file size:" then
        match matchTotalSize line with
        | Some cap => scanLines logCallback r filesTransferred cap w
        | None => scanLines logCallback r filesTransferred totalSize w
        end
      else scanLines logCallback r filesTransferred totalSize w
  end.

Definition reportOutput (logCallback : bool) (e : SyncEnv) (stdout stderr : string)
    (w : World) : World :=
  let w :=
    if JS.truthy stdout then
      let lines := filter (fun l => JS.truthy (JS.trim l) = true) (JS.split "010" stdout) in
      let '(filesTransferred, totalSize, w) := scanLines logCallback lines 0 EmptyString w in
      let w := log logCallback LSuccess
                 ("Transfer completed in " +:+ JS.numToString (durationSeconds e) +:+ "s") w in
      let w := log logCallback LInfo
                 ("Files transferred: " +:+ JS.numToString filesTransferred) w in
      if JS.truthy totalSize
      then log logCallback LInfo ("Total size: " +:+ totalSize +:+ " bytes") w
      else w
    else w in
  if JS.truthy stderr && negb (JS.includes stderr "warning")
  then log logCallback LWarning ("Rsync warnings: " +:+ stderr) w
  else w.

(** The [catch] of [syncWithRsync]: the message of the error it throws for a
    subprocess error of message [m]. *)
Definition classifyError (m : string) : string :=
  if JS.includes m "Permission denied" then
    "Permission denied. Check read permissions on source and write permissions on destination."
  else if JS.includes m "No such file or directory" then
    "Source or destination path not found. Please verify the paths are correct."
  else if JS.includes m "Connection refused" then
    "Connection refused. Check if rsync daemon is running on the remote host."
  else if JS.includes m "Host key verification failed" then
    "Host verification failed. Please check server configuration."
  else m.

(** [syncWithRsync(session, log)]. *)
Definition syncWithRsync (s : SessionConfig) (logCallback : bool) (e : SyncEnv)
    (w : World) : World * Outcome :=
  if negb (sourceExists e) then
    (w, Rejected ("Source directory does not exist: " +:+ sourcePath s))
  else
    let w := log logCallback LInfo ("Source directory verified: " +:+ sourcePath s) w in
    match remoteConnection s with
    | None => (w, Rejected "Remote connection configuration is required")
    | Some rc =>
        let w := log logCallback LInfo "Detected rsync daemon destination" w in
        let shownPort :=
          match port rc with
          | Some p => if p =? 0 then 873 else p
          | None => 873
          end in
        let w := log logCallback LInfo
                   ("Rsync daemon mode configured for " +:+ username rc +:+ "@"
                      +:+ host rc +:+ ":" +:+ JS.numToString shownPort) w in
        let w :=
          match rsyncPassword s with
          | Some _ => log logCallback LInfo "Using RSYNC_PASSWORD for daemon authentication" w
          | None => w
          end in
        let command := buildCommand s in
        let w :=
          match excludePatterns s with
          | Some (p :: ps) =>
              log logCallback LInfo
                ("Excluding patterns: " +:+
                   JS.join ", " (filter (fun q => JS.truthy q = true) (map JS.trim (p :: ps)))) w
          | _ => w
          end in
        let w :=
          if negb (updateOnlyOf s) then
            log logCallback LInfo
              "Update mode disabled: all files will be transferred regardless of timestamps" w
          else log logCallback LInfo
                 "Update mode enabled: only newer files will be transferred" w in
        let w :=
          if optionFlag (rsyncOptions s) deleteOnDestination then
            log logCallback LInfo
              "Delete mode enabled: files not in source will be removed from destination" w
          else w in
        let w :=
          if optionFlag (rsyncOptions s) compress
          then log logCallback LInfo "Compression enabled for transfer" w else w in
        let w :=
          if optionFlag (rsyncOptions s) preservePermissions
          then log logCallback LInfo "Permission preservation enabled" w else w in
        let w := log logCallback LInfo "Executing rsync command..." w in
        let w := log logCallback LInfo ("Full command: " +:+ command) w in
        let w := emit [Exec command (rsyncPassword s)] w in
        match execResult e with
        | ExecOk stdout stderr => (reportOutput logCallback e stdout stderr w, Resolved)
        | ExecError m =>
            let w := log logCallback LError ("Rsync failed: " +:+ m) w in
            (w, Rejected (classifyError m))
        end
    end.

(** [await this.saveSessionsCallback(this.sessions)] inside its
    [try]/[catch]: the rejection is logged as a warning and goes no
    further. *)
Definition saveGuarded (logCallback : bool) (e : SyncEnv) (warning : string)
    (w : World) : World :=
  if saveSessionsCallback w then
    let w := emit [Save (sessions w)] w in
    match saveError e with
    | Some err => log logCallback LWarning (warning +:+ err) w
    | None => w
    end
  else w.

(** The body of the error notification of [syncSession]. *)
Definition errorBody (sessionName m : string) : string :=
  "Sync failed for " +:+ JS.dquote +:+ sessionName +:+ JS.dquote +:+ ": "
    +:+ (if JS.truthy m then m else "Unknown error").

(** [syncSession(sessionId, logCallback?)], run to completion. The
    callbacks [syncStartCallback], [syncEndCallback] and the log callback
    return normally, as their types say; the interleaving of other tasks
    at the [await]s is not modelled. *)
Definition syncSession (sessionId : string) (logCallback : bool) (e : SyncEnv)
    (w : World) : World * Outcome :=
  match findSession sessionId (sessions w) with
  | None => (w, Rejected "Session not found")
  | Some session =>
      let w := log logCallback LInfo ("Starting sync for session: " +:+ name session) w in
      let w := log logCallback LInfo ("Source: " +:+ sourcePath session) w in
      let w := log logCallback LInfo ("Destination: " +:+ destinationPath session) w in
      let w := if syncStartCallback w then emit [SyncStart sessionId] w else w in
      match syncWithRsync session logCallback e w with
      | (w, Resolved) =>
          let w := set_sessions
                     (mutateSession sessionId
                        (recordOutcome (nowISO e) StatusSuccess None) (sessions w)) w in
          let w := saveGuarded logCallback e "Failed to save session data after sync: " w in
          let w := log logCallback LSuccess
                     ("Sync completed for session: " +:+ name session) w in
          let w := if syncEndCallback w then emit [SyncEnd sessionId] w else w in
          (w, Resolved)
      | (w, Rejected m) =>
          let w := set_sessions
                     (mutateSession sessionId
                        (recordOutcome (nowISO e) StatusError (Some m)) (sessions w)) w in
          let w := saveGuarded logCallback e
                     "Failed to save session data after sync error: " w in
          let w :=
            if notificationCallback w then
              let w := emit [Notify "imeSync - Sync Error" (errorBody (name session) m)
                               NError] w in
              match notifyError e with
              | Some err => console ("Failed to show error notification: " +:+ err) w
              | None => w
              end
            else w in
          let w := log logCallback LError
                     ("Sync failed for session " +:+ name session +:+ ": "
                        +:+ JS.errorToString m) w in
          let w := if syncEndCallback w then emit [SyncEnd sessionId] w else w in
          (w, Rejected m)
      end
  end.

(** ** Pause controller *)

(** What became of a call of [triggerSync]. *)
Inductive TriggerResult :=
| Skipped
| Invoked (o : Outcome).

(** [triggerSync(sessionId)], run to completion. The log callback factory
    resolves, as the code assumes. *)
Definition triggerSync (sessionId : string) (e : SyncEnv) (w : World)
    : World * TriggerResult :=
  if globallyPaused w then
    (console ("Sync skipped for session " +:+ JS.dquote +:+ sessionId +:+ JS.dquote
                +:+ ": globally paused") w, Skipped)
  else
    match findSession sessionId (sessions w) with
    | Some session =>
        if bool_decide (paused session = Some true) then
          (console ("Sync skipped for session " +:+ JS.dquote +:+ name session
                      +:+ JS.dquote +:+ ": session paused") w, Skipped)
        else
          let w := if logCallbackFactory w then emit [LogFactory sessionId] w else w in
          let '(w, o) := syncSession sessionId (logCallbackFactory w) e w in
          (w, Invoked o)
    | None =>
        let w := if logCallbackFactory w then emit [LogFactory sessionId] w else w in
        let '(w, o) := syncSession sessionId (logCallbackFactory w) e w in
        (w, Invoked o)
    end.

(** [this.triggerSync(session.id).catch(console.error)], as every trigger
    calls it. *)
Definition requestSync (sessionId : string) (e : SyncEnv) (w : World) : World :=
  match triggerSync sessionId e w with
  | (w, Invoked (Rejected m)) => console (JS.errorToString m) w
  | (w, _) => w
  end.

Definition pauseAllSessions (w : World) : World :=
  console "All sync sessions paused" (set_globallyPaused true w).

Definition resumeAllSessions (w : World) : World :=
  console "All sync sessions resumed" (set_globallyPaused false w).

(** [pauseSession] and [resumeSession]; the rejection of the persistence
    callback goes to [console.error]. *)
Definition setSessionPaused (b : bool) (word : string) (sessionId : string)
    (saveErr : option string) (w : World) : World :=
  match findSession sessionId (sessions w) with
  | Some session =>
      let w := set_sessions (mutateSession sessionId (setPaused b) (sessions w)) w in
      let w := console ("Session " +:+ JS.dquote +:+ name session +:+ JS.dquote
                          +:+ " " +:+ word) w in
      if saveSessionsCallback w then
        let w := emit [Save (sessions w)] w in
        match saveErr with
        | Some err => console err w
        | None => w
        end
      else w
  | None => w
  end.

Definition pauseSession := setSessionPaused true "paused".
Definition resumeSession := setSessionPaused false "resumed".

Definition isGloballyPaused (w : World) : bool := globallyPaused w.

(** [IsPaused(id)] of the specification: the global flag or the flag of
    the session. The code has no such function; [triggerSync] makes the
    two tests one after the other. *)
Definition isPaused (sessionId : string) (w : World) : bool :=
  globallyPaused w ||
  match findSession sessionId (sessions w) with
  | Some s => bool_decide (paused s = Some true)
  | None => false
  end.

(** ** Trigger engine *)

(** A reading of [new Date()]: local hours (0..23), minutes (0..59) and day
    of the week (0 = Sunday .. 6). *)
Record Date := {
  getHours : Z;
  getMinutes : Z;
  getDay : nat
}.

Definition validDate (d : Date) : Prop :=
  0 <= getHours d < 24 /\ 0 <= getMinutes d < 60 /\ (getDay d < 7)%nat.

Definition dayNames : list string :=
  ["sunday"; "monday"; "tuesday"; "wednesday"; "thursday"; "friday"; "saturday"].

(** [xs.includes(x)] on an array of strings. *)
Definition includesStr (xs : list string) (x : string) : bool :=
  bool_decide (x ∈ xs).

(** The two tests of [checkSchedule]: the time, then the day. *)
(** [const [hours, minutes] = trigger.time.split(':').map(Number)]: a
    missing part is [undefined], which like [NaN] equals no number. *)
Definition timeOfDay (t : string) : option Z * option Z :=
  let parts := map JS.Number (JS.split ":" t) in
  (mjoin (parts !! 0%nat), mjoin (parts !! 1%nat)).

Definition scheduleTimeMatches (trigger : ScheduleTrigger) (now : Date) : bool :=
  let '(hours, minutes) := timeOfDay (time trigger) in
  bool_decide (hours = Some (getHours now)) && bool_decide (minutes = Some (getMinutes now)).

Definition scheduleShouldTrigger (trigger : ScheduleTrigger) (now : Date) : bool :=
  let currentDay := dayNames !! getDay now in
  includesStr (days trigger) "daily"
  || match currentDay with
     | Some d => includesStr (days trigger) d
     | None => false
     end
  || bool_decide (length (days trigger) = 7%nat).

(** What the outside world answers while a timer callback runs. *)
Record FireEnv := {
  date : Date;
  (* await this.getCurrentSSID() *)
  sampledSSID : option string;
  (* the course of a sync of that session started by this callback *)
  syncEnv : string -> SyncEnv
}.

Definition checkSchedule (sessionId sessionName : string) (trigger : ScheduleTrigger)
    (fe : FireEnv) (w : World) : World :=
  if scheduleTimeMatches trigger (date fe) then
    if scheduleShouldTrigger trigger (date fe) then
      let w := console ("Schedule trigger: " +:+ time trigger +:+ " sync for session "
                          +:+ JS.dquote +:+ sessionName +:+ JS.dquote) w in
      requestSync sessionId (syncEnv fe sessionId) w
    else w
  else w.

(** [if (trigger.time && trigger.days)]: an array is always truthy, so the
    test is on the time. *)
Definition setupScheduleTrigger (session : SessionConfig) (trigger : ScheduleTrigger)
    (w : World) : World :=
  if JS.truthy (time trigger) then
    let '(timer, w) := setInterval (CheckSchedule (id session) (name session) trigger) 60000 w in
    set_timers (<[id session +:+ "-schedule" := timer]> (timers w)) w
  else w.

(** The current time as [executeSync] prints it, [HH:MM]. *)
Definition currentTime (now : Date) : string :=
  JS.pad2 (getHours now) +:+ ":" +:+ JS.pad2 (getMinutes now).

(** The window test of [executeSync]: [true] when the tick goes on to
    request a sync. *)
Definition intervalInWindow (trigger : IntervalTrigger) (now : Date) : bool :=
  match startTime trigger, endTime trigger with
  | Some st, Some en =>
      if JS.truthy st && JS.truthy en then
        negb (JS.ltb (currentTime now) st || JS.gtb (currentTime now) en)
      else true
  | _, _ => true
  end.

Definition executeSync (sessionId sessionName : string) (trigger : IntervalTrigger)
    (fe : FireEnv) (w : World) : World :=
  if intervalInWindow trigger (date fe) then
    let w := console ("Interval trigger: Every " +:+ JS.numToString (intervalMinutes trigger)
                        +:+ "min sync for session " +:+ JS.dquote +:+ sessionName
                        +:+ JS.dquote) w in
    requestSync sessionId (syncEnv fe sessionId) w
  else w.

Definition setupIntervalTrigger (session : SessionConfig) (trigger : IntervalTrigger)
    (w : World) : World :=
  let interval := intervalMinutes trigger * 60 * 1000 in
  let '(timer, w) := setInterval (ExecuteSync (id session) (name session) trigger) interval w in
  set_timers (<[id session +:+ "-interval" := timer]> (timers w)) w.

(** The two tests of [checkNetwork] on one WiFi trigger, for a change of
    the network identity from [previousSSID] to [ssid]. *)
Definition wifiOnConnect (t : WiFiTrigger) (cur : option string) : bool :=
  onConnect t && bool_decide (cur = Some (ssid t)).

Definition wifiOnDisconnect (t : WiFiTrigger) (previousSSID cur : option string) : bool :=
  negb (onConnect t) && bool_decide (previousSSID = Some (ssid t))
  && negb (bool_decide (cur = Some (ssid t))).

Definition checkWiFiTrigger (sessionId sessionName : string) (previousSSID cur : option string)
    (fe : FireEnv) (w : World) (trigger : Trigger) : World :=
  match trigger with
  | TWiFi t =>
      let w :=
        if wifiOnConnect t cur then
          let w := console ("WiFi trigger: Connected to " +:+ JS.dquote
                              +:+ default "null" cur +:+ JS.dquote
                              +:+ ", syncing session " +:+ JS.dquote +:+ sessionName
                              +:+ JS.dquote) w in
          requestSync sessionId (syncEnv fe sessionId) w
        else w in
      if wifiOnDisconnect t previousSSID cur then
        let w := console ("WiFi trigger: Disconnected from " +:+ JS.dquote
                            +:+ default "null" previousSSID +:+ JS.dquote
                            +:+ ", syncing session " +:+ JS.dquote +:+ sessionName
                            +:+ JS.dquote) w in
        requestSync sessionId (syncEnv fe sessionId) w
      else w
  | _ => w
  end.

(** [checkNetwork], from the point where [getCurrentSSID] has answered. *)
Definition checkNetwork (fe : FireEnv) (w : World) : World :=
  let cur := sampledSSID fe in
  if bool_decide (cur = currentSSID w) then w
  else
    let previousSSID := currentSSID w in
    let w := set_currentSSID cur w in
    fold_left
      (fun w session =>
         fold_left (checkWiFiTrigger (id session) (name session) previousSSID cur fe)
           (triggers session) w)
      (sessions w) w.

(** [startNetworkMonitoring]: the call [checkNetwork()] is suspended at its
    [await] and resumes as a task of the host, held here as a one-shot
    timer of delay 0; then the polling timer. *)
Definition startNetworkMonitoring (w : World) : World :=
  let '(_, w) := setTimeout CheckNetwork 0 w in
  let '(timer, w) := setInterval CheckNetwork 10000 w in
  set_networkWatcher (Some timer) w.

Definition setupWiFiTrigger (session : SessionConfig) (trigger : WiFiTrigger)
    (w : World) : World :=
  match networkWatcher w with
  | None => startNetworkMonitoring w
  | Some _ => w
  end.

(** [watch(watchPath, ...)] for one path: [watchOk] tells whether the host
    can watch it; when it throws, the error is logged and the path
    skipped. *)
Definition watchOne (session : SessionConfig) (trigger : FileChangeTrigger)
    (watchOk : string -> bool) (acc : list nat * World) (path : string)
    : list nat * World :=
  let '(watchers, w) := acc in
  if watchOk path then
    let h := nextHandle w in
    let w := set_nextHandle (S h)
               (set_openWatchers
                  (<[h := {| watchSessionId := id session;
                             watchSessionName := name session;
                             watchPath := path; watchTrigger := trigger |}]>
                     (openWatchers w)) w) in
    (watchers ++ [h], w)
  else (watchers, console ("Failed to watch path " +:+ path +:+ ":") w).

Definition setupFileChangeTrigger (session : SessionConfig) (trigger : FileChangeTrigger)
    (watchOk : string -> bool) (w : World) : World :=
  let '(watchers, w) := fold_left (watchOne session trigger watchOk) (watchPaths trigger) ([], w) in
  let sessionWatchers := default [] (fileWatchers w !! id session) in
  set_fileWatchers (<[id session := sessionWatchers ++ watchers]> (fileWatchers w)) w.

Definition setupStartupTrigger (session : SessionConfig) (trigger : StartupTrigger)
    (w : World) : World :=
  if negb (startupTriggersExecuted w) then
    snd (setTimeout (StartupFire (id session) (name session) trigger) (delayMs trigger) w)
  else w.

Definition setupTrigger (session : SessionConfig) (watchOk : string -> bool)
    (w : World) (trigger : Trigger) : World :=
  match trigger with
  | TSchedule t => setupScheduleTrigger session t w
  | TWiFi t => setupWiFiTrigger session t w
  | TFileChange t => setupFileChangeTrigger session t watchOk w
  | TStartup t => setupStartupTrigger session t w
  | TInterval t => setupIntervalTrigger session t w
  end.

Definition setupTriggers (watchOk : string -> bool) (w : World) (session : SessionConfig)
    : World :=
  fold_left (setupTrigger session watchOk) (triggers session) w.

Definition armSession (watchOk : string -> bool) (w : World) (session : SessionConfig)
    : World :=
  if enabled session then setupTriggers watchOk w session else w.

(** [start()]. *)
Definition start (watchOk : string -> bool) (w : World) : World :=
  let w := fold_left (armSession watchOk) (sessions w) w in
  snd (setTimeout MarkStartupExecuted 1000 w).

(** [stop()]. *)
Definition stop (w : World) : World :=
  let w := foldr clearTimer w (snd <$> map_to_list (timers w)) in
  let w := set_timers ∅ w in
  let w := foldr closeWatcher w (concat (snd <$> map_to_list (fileWatchers w))) in
  let w := set_fileWatchers ∅ w in
  match networkWatcher w with
  | Some timer => set_networkWatcher None (clearTimer timer w)
  | None => w
  end.

(** [updateSessions(sessions)]. *)
Definition updateSessions (ss : list SessionConfig) (watchOk : string -> bool)
    (w : World) : World :=
  start watchOk (set_sessions ss (stop w)).

(** ** The host: running timers and delivering filesystem events *)

Definition runCallback (cb : Callback) (fe : FireEnv) (w : World) : World :=
  match cb with
  | MarkStartupExecuted => set_startupTriggersExecuted true w
  | CheckSchedule sid sname trigger => checkSchedule sid sname trigger fe w
  | DebounceExpired sid sname debounceKey filename =>
      let w := console ("File change trigger: " +:+ JS.dquote +:+ filename +:+ JS.dquote
                          +:+ " changed, syncing session " +:+ JS.dquote +:+ sname
                          +:+ JS.dquote) w in
      let w := requestSync sid (syncEnv fe sid) w in
      set_timers (delete debounceKey (timers w)) w
  | StartupFire sid sname trigger =>
      let w := console ("Startup trigger: Syncing session " +:+ JS.dquote +:+ sname
                          +:+ JS.dquote +:+ " after " +:+ JS.msToSeconds (delayMs trigger)
                          +:+ "s delay") w in
      requestSync sid (syncEnv fe sid) w
  | ExecuteSync sid sname trigger => executeSync sid sname trigger fe w
  | CheckNetwork => checkNetwork fe w
  end.

(** The host runs the live timer [h] when it is due: a one-shot timer is
    gone before its callback runs, a repeating one is due again one period
    later. *)
Definition fireTimer (h : nat) (fe : FireEnv) (w : World) : World :=
  match liveTimers w !! h with
  | Some t =>
      if due t <=? clock w then
        let w :=
          if repeating t then
            set_liveTimers
              (<[h := {| callback := callback t; delay := delay t;
                         repeating := true; due := clock w + delay t |}]>
                 (liveTimers w)) w
          else clearTimer h w in
        runCallback (callback t) fe (emit [Ran h (callback t)] w)
      else w
  | None => w
  end.

(** The listener of [watch]: [regexTest p f] is
    [new RegExp(p.replace(/\*/g, '.*')).test(f)], the host's answer
    (patterns that are no regular expression are outside the model). *)
Definition onFileChange (watch : Watch) (filename : option string)
    (regexTest : string -> string -> bool) (w : World) : World :=
  match filename with
  | Some f =>
      if JS.truthy f then
        let shouldIgnore :=
          match ignorePatterns (watchTrigger watch) with
          | Some ps => existsb (fun p => regexTest p f) ps
          | None => false
          end in
        if negb shouldIgnore then
          let debounceKey := watchSessionId watch +:+ "-filechange-" +:+ watchPath watch in
          let w :=
            match timers w !! debounceKey with
            | Some existingTimer => clearTimer existingTimer w
            | None => w
            end in
          let '(timer, w) :=
            setTimeout (DebounceExpired (watchSessionId watch) (watchSessionName watch)
                          debounceKey f)
              (debounceMs (watchTrigger watch)) w in
          set_timers (<[debounceKey := timer]> (timers w)) w
        else w
      else w
  | None => w
  end.

Definition fileEvent (h : nat) (filename : option string)
    (regexTest : string -> string -> bool) (w : World) : World :=
  match openWatchers w !! h with
  | Some watch => onFileChange watch filename regexTest w
  | None => w
  end.

(** The [sync-now] handler of [main.ts], as far as the manager is
    concerned: [syncSession] with a log forwarder and, when it resolved, a
    re-arm with the collection [disk] that the handler loaded from the
    sessions file before the sync (the session there stamped with the
    time [stamp]). The handler's own file and log-file operations
    succeed. *)
Definition stampLastSync (stamp : string) (s : SessionConfig) : SessionConfig :=
  {| id := id s; name := name s; sourcePath := sourcePath s;
     destinationPath := destinationPath s; triggers := triggers s;
     excludePatterns := excludePatterns s;
     lastSync := Some stamp; lastSyncStatus := lastSyncStatus s;
     lastSyncError := lastSyncError s;
     enabled := enabled s; paused := paused s;
     rsyncOptions := rsyncOptions s; remoteConnection := remoteConnection s |}.

Definition syncNow (sessionId : string) (e : SyncEnv) (disk : list SessionConfig)
    (stamp : string) (watchOk : string -> bool) (w : World) : World * Outcome :=
  match syncSession sessionId true e w with
  | (w, Resolved) =>
      let w := emit [Log LSuccess "Synchronization completed successfully"] w in
      match findSession sessionId disk with
      | Some _ =>
          (updateSessions (mutateSession sessionId (stampLastSync stamp) disk) watchOk w,
           Resolved)
      | None => (w, Resolved)
      end
  | (w, Rejected m) => (console ("Failed to sync session: " +:+ JS.errorToString m) w,
                        Rejected m)
  end.

(** Everything that can happen to a running manager. *)
Inductive Input :=
| TimerFires (h : nat) (fe : FireEnv)
| FileEvent (h : nat) (filename : option string) (regexTest : string -> string -> bool)
| Elapse (ms : Z)
| CallStart (watchOk : string -> bool)
| CallStop
| CallUpdateSessions (ss : list SessionConfig) (watchOk : string -> bool)
| CallPauseAll
| CallResumeAll
| CallPauseSession (sessionId : string) (saveErr : option string)
| CallResumeSession (sessionId : string) (saveErr : option string)
| CallSyncNow (sessionId : string) (e : SyncEnv) (disk : list SessionConfig)
    (stamp : string) (watchOk : string -> bool).

Definition step (w : World) (i : Input) : World :=
  match i with
  | TimerFires h fe => fireTimer h fe w
  | FileEvent h filename regexTest => fileEvent h filename regexTest w
  | Elapse ms => set_clock (clock w + Z.max 0 ms) w
  | CallStart watchOk => start watchOk w
  | CallStop => stop w
  | CallUpdateSessions ss watchOk => updateSessions ss watchOk w
  | CallPauseAll => pauseAllSessions w
  | CallResumeAll => resumeAllSessions w
  | CallPauseSession sid saveErr => pauseSession sid saveErr w
  | CallResumeSession sid saveErr => resumeSession sid saveErr w
  | CallSyncNow sid e disk stamp watchOk => fst (syncNow sid e disk stamp watchOk w)
  end.

Definition run (w : World) (inputs : list Input) : World := fold_left step inputs w.

(** ** Reading traces and timer sets *)

Definition isStartupFire (cb : Callback) : bool :=
  match cb with StartupFire _ _ _ => true | _ => false end.

Definition isCheckNetwork (cb : Callback) : bool :=
  match cb with CheckNetwork => true | _ => false end.

(** Runs of startup-trigger callbacks in a trace. *)
Definition isStartupRun (ev : Event) : bool :=
  match ev with Ran _ cb => isStartupFire cb | _ => false end.

Definition startupFires (tr : list Event) : list Event := List.filter isStartupRun tr.

(** The live timers that satisfy [p], with their handles. *)
Definition liveWhere (p : Timer -> bool) (w : World) : list (nat * Timer) :=
  List.filter (fun ht => p (snd ht)) (map_to_list (liveTimers w)).

(** The polling loops: the repeating timers that run [checkNetwork]. *)
Definition pollingLoops (w : World) : list (nat * Timer) :=
  liveWhere (fun t => isCheckNetwork (callback t) && repeating t) w.

Definition isNotify (ev : Event) : bool :=
  match ev with Notify _ _ _ => true | _ => false end.

Definition isSave (ev : Event) : bool :=
  match ev with Save _ => true | _ => false end.

Definition isSyncEnd (ev : Event) : bool :=
  match ev with SyncEnd _ => true | _ => false end.

(** How often an event occurs in a trace. *)
Definition occurrences (ev : Event) (tr : list Event) : nat :=
  length (List.filter (fun x => bool_decide (x = ev)) tr).

(** The events [syncWithRsync] can produce: log lines of the levels and
    texts it uses, and the launch of the subprocess. *)
Definition rsyncEvent (ev : Event) : bool :=
  match ev with
  | Log LSuccess m => JS.startsWith m "Transfer completed in "
  | Log LWarning m => JS.startsWith m "Rsync warnings: "
  | Log _ _ => true
  | Console l =>
      JS.startsWith l "[INFO] " || JS.startsWith l "[WARNING] Rsync warnings: "
      || JS.startsWith l "[ERROR] " || JS.startsWith l "[SUCCESS] Transfer completed in "
  | Exec _ _ => true
  | _ => false
  end.

(** The session with another password in its remote connection. *)
Definition withPassword (p : option string) (s : SessionConfig) : SessionConfig :=
  {| id := id s; name := name s; sourcePath := sourcePath s;
     destinationPath := destinationPath s; triggers := triggers s;
     excludePatterns := excludePatterns s;
     lastSync := lastSync s; lastSyncStatus := lastSyncStatus s;
     lastSyncError := lastSyncError s;
     enabled := enabled s; paused := paused s;
     rsyncOptions := rsyncOptions s;
     remoteConnection :=
       match remoteConnection s with
       | Some rc => Some {| host := host rc; username := username rc; password := p;
                            port := port rc; remotePath := remotePath rc;
                            moduleName := moduleName rc |}
       | None => None
       end |}.

(** The exclude flags, one per entry that is not empty once trimmed. *)
Definition excludeFlags (patterns : list string) : string :=
  foldr (fun p acc => " --exclude='" +:+ p +:+ "'" +:+ acc) EmptyString
    (List.filter JS.truthy (map JS.trim patterns)).

(** The command line as the specification lists it, flag by flag. *)
Definition commandLayout (s : SessionConfig) : string :=
  "rsync -av --progress --stats --human-readable"
  +:+ excludeFlags (default [] (excludePatterns s))
  +:+ match rsyncOptions s with
      | Some o => if updateOnly o then EmptyString else " --ignore-times"
      | None => EmptyString
      end
  +:+ match rsyncOptions s with
      | Some o => if deleteOnDestination o then " --delete" else EmptyString
      | None => EmptyString
      end
  +:+ match rsyncOptions s with
      | Some o => if compress o then " -z" else EmptyString
      | None => EmptyString
      end
  +:+ match rsyncOptions s with
      | Some o => if preservePermissions o then " -p" else EmptyString
      | None => EmptyString
      end
  +:+ " " +:+ JS.dquote +:+ sourcePath s +:+ "/" +:+ JS.dquote
  +:+ " " +:+ JS.dquote +:+ destinationPath s +:+ "/" +:+ JS.dquote.

(** The subprocess launches of a trace: command line and
    [RSYNC_PASSWORD]. *)
Definition launches (tr : list Event) : list (string * option string) :=
  omap (fun ev => match ev with Exec c p => Some (c, p) | _ => None end) tr.

(** The session of the end-to-end scenario of the specification. *)
Definition scenarioSession : SessionConfig :=
  {| id := "s1"; name := "scenario"; sourcePath := "/tmp/src";
     destinationPath := "rsync://u@h:873/m/p"; triggers := [];
     excludePatterns := Some ["*.tmp"];
     lastSync := None; lastSyncStatus := None; lastSyncError := None;
     enabled := true; paused := None;
     rsyncOptions := Some {| deleteOnDestination := false; compress := false;
                             preservePermissions := false; updateOnly := true |};
     remoteConnection :=
       Some {| host := "h"; username := "u"; password := None; port := None;
               remotePath := "p"; moduleName := Some "m" |} |}.

(** The events of [w'] that [w] did not have yet. *)
Definition newEvents (w w' : World) : list Event :=
  drop (length (trace w)) (trace w').

(** [w'] is [w] with the events [d] appended, all of them in [P], with the
    subprocess launches [L], and nothing else changed. *)
Definition emitted (P : Event -> bool) (L : list (string * option string))
    (w w' : World) : Prop :=
  exists d, w' = emit d w /\ forallb P d = true /\ launches d = L.

(** How [syncWithRsync] settles, and what it launches, read off the
    session and the environment. *)
Definition rsyncOutcome (s : SessionConfig) (e : SyncEnv) : Outcome :=
  if negb (sourceExists e) then
    Rejected ("Source directory does not exist: " +:+ sourcePath s)
  else
    match remoteConnection s with
    | None => Rejected "Remote connection configuration is required"
    | Some _ =>
        match execResult e with
        | ExecOk _ _ => Resolved
        | ExecError m => Rejected (classifyError m)
        end
    end.

Definition rsyncLaunches (s : SessionConfig) (e : SyncEnv)
    : list (string * option string) :=
  if negb (sourceExists e) then []
  else match remoteConnection s with
       | None => []
       | Some _ => [(buildCommand s, rsyncPassword s)]
       end.

(** The claim that the password is never a substring of the command
    line, for one session. *)
Definition passwordNeverInCommand (s : SessionConfig) : Prop :=
  forall p, rsyncPassword s = Some p -> JS.includes (buildCommand s) p = false.

(** Concrete inputs, used where the theorems are run. *)
Definition envOk : SyncEnv :=
  {| sourceExists := true; execResult := ExecOk EmptyString EmptyString;
     startMs := 0; endMs := 1200; nowISO := "2026-01-01T00:00:00.000Z";
     saveError := None; notifyError := None |}.

Definition envRefused : SyncEnv :=
  {| sourceExists := true;
     execResult := ExecError "rsync: failed to connect to h (10.0.0.1): Connection refused (111)";
     startMs := 0; endMs := 1200; nowISO := "2026-01-01T00:00:00.000Z";
     saveError := None; notifyError := None |}.

Definition envSaveFails : SyncEnv :=
  {| sourceExists := true; execResult := ExecOk EmptyString EmptyString;
     startMs := 0; endMs := 1200; nowISO := "2026-01-01T00:00:00.000Z";
     saveError := Some "Error: EACCES"; notifyError := None |}.

(** A subprocess error whose text names two causes. *)
Definition envDeniedAndRefused : SyncEnv :=
  {| sourceExists := true;
     execResult := ExecError "rsync: Permission denied (13); Connection refused (111)";
     startMs := 0; endMs := 1200; nowISO := "2026-01-01T00:00:00.000Z";
     saveError := None; notifyError := None |}.

Definition scenarioWorld : World := create [scenarioSession] true true true true true 0.

Definition connectionRefusedMessage : string :=
  "Connection refused. Check if rsync daemon is running on the remote host.".


(** The events of [syncSession] around those of [syncWithRsync], and the
    outcome it records in the session. *)
Definition saveEvents (w : World) (lc : bool) (e : SyncEnv) (warning : string)
    (snapshot : list SessionConfig) : list Event :=
  if saveSessionsCallback w then
    Save snapshot ::
      match saveError e with
      | Some err => logEvents lc LWarning (warning +:+ err)
      | None => []
      end
  else [].

Definition prologue (w : World) (sessionId : string) (session : SessionConfig)
    (lc : bool) : list Event :=
  logEvents lc LInfo ("Starting sync for session: " +:+ name session)
  ++ logEvents lc LInfo ("Source: " +:+ sourcePath session)
  ++ logEvents lc LInfo ("Destination: " +:+ destinationPath session)
  ++ (if syncStartCallback w then [SyncStart sessionId] else []).

Definition epilogue (w : World) (sessionId : string) (session : SessionConfig)
    (lc : bool) (e : SyncEnv) (o : Outcome) (snapshot : list SessionConfig)
    : list Event :=
  match o with
  | Resolved =>
      saveEvents w lc e "Failed to save session data after sync: " snapshot
      ++ logEvents lc LSuccess ("Sync completed for session: " +:+ name session)
      ++ (if syncEndCallback w then [SyncEnd sessionId] else [])
  | Rejected m =>
      saveEvents w lc e "Failed to save session data after sync error: " snapshot
      ++ (if notificationCallback w then
            Notify "imeSync - Sync Error" (errorBody (name session) m) NError ::
              match notifyError e with
              | Some err => [Console ("Failed to show error notification: " +:+ err)]
              | None => []
              end
          else [])
      ++ logEvents lc LError
           ("Sync failed for session " +:+ name session +:+ ": " +:+ JS.errorToString m)
      ++ (if syncEndCallback w then [SyncEnd sessionId] else [])
  end.

Definition outcomeRecord (e : SyncEnv) (o : Outcome) : SessionConfig -> SessionConfig :=
  match o with
  | Resolved => recordOutcome (nowISO e) StatusSuccess None
  | Rejected m => recordOutcome (nowISO e) StatusError (Some m)
  end.

(** [w'] has the trace of [w] and, after it, console lines only. *)
Definition grows (w w' : World) : Prop :=
  exists lines, trace w' = trace w ++ map Console lines.

Definition isSyncStart (ev : Event) : bool :=
  match ev with SyncStart _ => true | _ => false end.

Definition isRan (ev : Event) : bool :=
  match ev with Ran _ _ => true | _ => false end.

(** A session that is paused, for the gate of [triggerSync]. *)
Definition sessionPaused (s : SessionConfig) : bool :=
  bool_decide (paused s = Some true).

(** The condition of a Schedule trigger as C6 states it: the time matches
    and the days list has [daily] or the name of the current weekday. *)
Definition scheduleClaimed (trigger : ScheduleTrigger) (now : Date) : Prop :=
  timeOfDay (time trigger) = (Some (getHours now), Some (getMinutes now))
  /\ ("daily" ∈ days trigger
      \/ exists d, dayNames !! getDay now = Some d /\ d ∈ days trigger).

(** The window of an Interval trigger as C7 states it: start inclusive, end
    exclusive, in the lexical order of strings. *)
Definition windowClaimed (st en : string) (now : Date) : Prop :=
  String.leb st (currentTime now) = true /\ JS.ltb (currentTime now) en = true.

Definition mondayAfternoon : ScheduleTrigger :=
  {| time := "14:30"; days := ["monday"] |}.

Definition sevenMondays : ScheduleTrigger :=
  {| time := "14:30";
     days := ["monday"; "monday"; "monday"; "monday"; "monday"; "monday"; "monday"] |}.

Definition officeHours : IntervalTrigger :=
  {| intervalMinutes := 30; startTime := Some "09:00"; endTime := Some "17:00" |}.

Definition at_ (day : nat) (h m : Z) : Date :=
  {| getHours := h; getMinutes := m; getDay := day |}.

(** An environment for timer callbacks: the clock shows [d], the network
    is [net], every sync succeeds. *)
Definition fireEnv (d : Date) (net : option string) : FireEnv :=
  {| date := d; sampledSSID := net; syncEnv := fun _ => envOk |}.

(** Sessions and collections for the scenarios of the trigger engine. *)
Definition withTriggers (sessionId : string) (on : bool) (ts : list Trigger)
    : SessionConfig :=
  {| id := sessionId; name := sessionId; sourcePath := "/tmp/src";
     destinationPath := "rsync://u@h:873/m/p"; triggers := ts;
     excludePatterns := None;
     lastSync := None; lastSyncStatus := None; lastSyncError := None;
     enabled := on; paused := None; rsyncOptions := None;
     remoteConnection :=
       Some {| host := "h"; username := "u"; password := None; port := None;
               remotePath := "p"; moduleName := Some "m" |} |}.

Definition startupSession : SessionConfig :=
  withTriggers "a" true [TStartup {| delayMs := 5000 |}].

Definition twoSchedules : SessionConfig :=
  withTriggers "a" true
    [TSchedule {| time := "09:00"; days := ["daily"] |};
     TSchedule {| time := "18:00"; days := ["daily"] |}].

Definition officeWifi : SessionConfig :=
  withTriggers "a" true [TWiFi {| ssid := "Office"; onConnect := true |}].

Definition disabledHomeWifi : SessionConfig :=
  withTriggers "b" false [TWiFi {| ssid := "Home"; onConnect := true |}].

Definition watchAll : string -> bool := fun _ => true.

(** A manager just constructed with all callbacks, at time 0, and
    started. *)
Definition boot (ss : list SessionConfig) : World :=
  start watchAll (create ss true true true true true 0).

(** The handles of the startup-trigger timers whose callback ran, in the
    order of the trace. *)
Definition startupHandles (tr : list Event) : list nat :=
  omap (fun ev => match ev with
                  | Ran h cb => if isStartupFire cb then Some h else None
                  | _ => None
                  end) tr.

(** The polling timer of [startNetworkMonitoring], due at [d]. *)
Definition pollingTimer (d : Z) : Timer :=
  {| callback := CheckNetwork; delay := 10000; repeating := true; due := d |}.

(** What holds of the timers in every state the manager can reach:
    startup timers are one-shot; a repeating timer that runs [checkNetwork]
    is the one [networkWatcher] refers to; [networkWatcher] refers to a live
    polling timer of period 10 s; the handles kept in [timers] are timer
    objects that exist and none of them is the polling timer. *)
Record wellFormed (w : World) : Prop := {
  startup_one_shot :
    forall h t, liveTimers w !! h = Some t ->
                isStartupFire (callback t) = true -> repeating t = false;
  polling_unique :
    forall h t, liveTimers w !! h = Some t ->
                callback t = CheckNetwork -> repeating t = true ->
                networkWatcher w = Some h;
  polling_live :
    forall h, networkWatcher w = Some h ->
              (h < nextHandle w)%nat /\ exists d, liveTimers w !! h = Some (pollingTimer d);
  timers_fresh :
    forall k h, timers w !! k = Some h ->
                (h < nextHandle w)%nat /\ networkWatcher w <> Some h
}.

(** [w'] has the engine of [w]: same timers, same handles, same latch;
    and no startup callback ran in between. *)
Definition sameEngine (w w' : World) : Prop :=
  liveTimers w' = liveTimers w
  /\ timers w' = timers w
  /\ networkWatcher w' = networkWatcher w
  /\ nextHandle w' = nextHandle w
  /\ startupTriggersExecuted w' = startupTriggersExecuted w
  /\ startupHandles (trace w') = startupHandles (trace w).

(** From [w] to [w'] no startup callback ran, the latch was not reset, and
    if the latch was set no startup timer was added. *)
Definition noStartupArmed (w w' : World) : Prop :=
  (startupTriggersExecuted w = true ->
   forall h t, liveTimers w' !! h = Some t -> isStartupFire (callback t) = true ->
               liveTimers w !! h = Some t)
  /\ (startupTriggersExecuted w = true -> startupTriggersExecuted w' = true)
  /\ startupHandles (trace w') = startupHandles (trace w).

Definition isWiFi (t : Trigger) : bool :=
  match t with TWiFi _ => true | _ => false end.

(** Some enabled session of the collection has a WiFi trigger. *)
Definition wifiArmed (ss : list SessionConfig) : bool :=
  existsb (fun s => enabled s && existsb isWiFi (triggers s)) ss.

(** The condition of a WiFi trigger as the specification states it, for a
    change of the network identity from [prev] to [cur]. *)
Definition wifiCondition (t : WiFiTrigger) (prev cur : option string) : Prop :=
  (onConnect t = true /\ cur = Some (ssid t))
  \/ (onConnect t = false /\ prev = Some (ssid t) /\ cur <> Some (ssid t)).

Definition quickStartup : SessionConfig :=
  withTriggers "a" true [TStartup {| delayMs := 100 |}].

(** One move of the engine that keeps the state well formed and arms no
    startup timer behind the latch. *)
Definition engineStep (w w' : World) : Prop :=
  (wellFormed w -> wellFormed w') /\ noStartupArmed w w'.

(** ** Settings, resources and bursts of file events *)

(** What the user configured in a session: every field but the pause flag
    and the record of the last sync. *)
Definition config (s : SessionConfig) :=
  (id s, name s, sourcePath s, destinationPath s, triggers s, excludePatterns s,
   enabled s, rsyncOptions s, remoteConnection s).

(** [w'] has the watchers and the pause switch of [w], and its sessions are
    configured as those of [w]. *)
Definition sameSetup (w w' : World) : Prop :=
  openWatchers w' = openWatchers w
  /\ fileWatchers w' = fileWatchers w
  /\ globallyPaused w' = globallyPaused w
  /\ map config (sessions w') = map config (sessions w).

(** The callbacks the manager was constructed with: which are there. *)
Definition callbacks (w : World) : bool * bool * bool * bool * bool :=
  (saveSessionsCallback w, notificationCallback w, syncStartCallback w,
   syncEndCallback w, logCallbackFactory w).

(** [w'] has the sessions, the pause switch, the network identity, the
    startup latch, the clock and the callbacks of [w]. *)
Definition sameSessions (w w' : World) : Prop :=
  sessions w' = sessions w
  /\ globallyPaused w' = globallyPaused w
  /\ currentSSID w' = currentSSID w
  /\ startupTriggersExecuted w' = startupTriggersExecuted w
  /\ clock w' = clock w
  /\ callbacks w' = callbacks w.

(** Inputs that hand the manager another collection of sessions. *)
Definition replacesSessions (i : Input) : bool :=
  match i with
  | CallUpdateSessions _ _ | CallSyncNow _ _ _ _ _ => true
  | _ => false
  end.

(** Inputs that come from the host and not from a caller: a timer that is
    due, a filesystem event, the passing of time. *)
Definition hostInput (i : Input) : bool :=
  match i with
  | TimerFires _ _ | FileEvent _ _ _ | Elapse _ => true
  | _ => false
  end.

(** Events that start no sync: console lines and runs of timer callbacks. *)
Definition idleEvent (ev : Event) : bool :=
  match ev with Console _ | Ran _ _ => true | _ => false end.

(** From [w] to [w'] only console lines and runs of timer callbacks were
    added to the trace, and the sessions and the pause switch are those of
    [w]. *)
Definition idles (w w' : World) : Prop :=
  (exists d, trace w' = trace w ++ d /\ forallb idleEvent d = true)
  /\ sessions w' = sessions w
  /\ globallyPaused w' = globallyPaused w.

(** Every open watcher is recorded in [fileWatchers] under the id of the
    session it was opened for. *)
Definition watchersRecorded (w : World) : Prop :=
  forall h wt, openWatchers w !! h = Some wt ->
    exists l, fileWatchers w !! watchSessionId wt = Some l /\ h ∈ l.

(** The watcher that [setupFileChangeTrigger] opens on [path]. *)
Definition watchOf (session : SessionConfig) (trigger : FileChangeTrigger) (path : string)
    : Watch :=
  {| watchSessionId := id session; watchSessionName := name session;
     watchPath := path; watchTrigger := trigger |}.

(** The listener of [watch] goes on to debounce a change of [f]: the name
    is not empty and no ignore pattern matches it. *)
Definition accepted (watch : Watch) (regexTest : string -> string -> bool) (f : string)
    : bool :=
  JS.truthy f
  && negb match ignorePatterns (watchTrigger watch) with
          | Some ps => existsb (fun p => regexTest p f) ps
          | None => false
          end.

(** The key under which the listener of [watch] keeps its debounce timer. *)
Definition debounceKeyOf (watch : Watch) : string :=
  watchSessionId watch +:+ "-filechange-" +:+ watchPath watch.

Definition debounceCallback (watch : Watch) (f : string) : Callback :=
  DebounceExpired (watchSessionId watch) (watchSessionName watch) (debounceKeyOf watch) f.

(** The debounce timer set at time [now] for a change of [f]. *)
Definition debounceTimer (watch : Watch) (f : string) (now : Z) : Timer :=
  {| callback := debounceCallback watch f;
     delay := debounceMs (watchTrigger watch); repeating := false;
     due := now + debounceMs (watchTrigger watch) |}.

(** A burst of changes seen by the watcher [h]: each after some time. *)
Definition burst (h : nat) (regexTest : string -> string -> bool)
    (events : list (Z * string)) : list Input :=
  flat_map (fun ev => [Elapse (fst ev); FileEvent h (Some (snd ev)) regexTest]) events.

(** Minutes since midnight of a reading of the clock. *)
Definition minuteOfDay (d : Date) : Z := 60 * getHours d + getMinutes d.

(** The reading of the clock at minute [k] of a day. *)
Definition clockAt (k : nat) : Date :=
  {| getHours := Z.of_nat (k / 60); getMinutes := Z.of_nat (k mod 60); getDay := 0 |}.

(** ** The session handlers of [main.ts]

    The sessions file holds a collection, or nothing that can be read
    ([None]: absent, or no JSON; JSON of another shape is outside the
    model); what [JSON.stringify] writes, [JSON.parse] reads back. The
    handlers run when the manager exists. *)

(** [loadSessions()]. *)
Definition loadSessions (file : option (list SessionConfig)) : list SessionConfig :=
  match file with
  | Some ss => ss
  | None => []
  end.

(** [sessions.findIndex(s => s.id === sessionId)]; [None] stands for -1. *)
Fixpoint findIndex (sessionId : string) (ss : list SessionConfig) : option nat :=
  match ss with
  | [] => None
  | s :: r => if bool_decide (id s = sessionId) then Some 0%nat
              else S <$> findIndex sessionId r
  end.

(** The body of [save-session] on the collection: assignment at the index
    found, or [push]. *)
Definition putSession (session : SessionConfig) (ss : list SessionConfig)
    : list SessionConfig :=
  match findIndex (id session) ss with
  | Some index => <[index := session]> ss
  | None => ss ++ [session]
  end.

(** The handler of [save-session]; [writeError] is the message of the
    error of [fs.writeFile], when it fails. *)
Definition saveSession (session : SessionConfig) (writeError : option string)
    (watchOk : string -> bool) (file : option (list SessionConfig)) (w : World)
    : option (list SessionConfig) * World * Outcome :=
  let sessions := putSession session (loadSessions file) in
  match writeError with
  | None => (Some sessions, updateSessions sessions watchOk w, Resolved)
  | Some m => (file, console ("Failed to save session: " +:+ JS.errorToString m) w,
               Rejected m)
  end.

(** The handler of [delete-session]. *)
Definition deleteSession (sessionId : string) (writeError : option string)
    (watchOk : string -> bool) (file : option (list SessionConfig)) (w : World)
    : option (list SessionConfig) * World * Outcome :=
  let sessions := loadSessions file in
  let filtered := List.filter (fun s => negb (bool_decide (id s = sessionId))) sessions in
  match writeError with
  | None => (Some filtered, updateSessions filtered watchOk w, Resolved)
  | Some m => (file, console ("Failed to delete session: " +:+ JS.errorToString m) w,
               Rejected m)
  end.

(** ** Remote browsing ([browseRemoteDirectory], [getAvailableModules])

    These methods touch no field of the manager: they launch [rsync
    --list-only] and read what it prints. The outcome of a launch is an
    argument. The texts of the errors they throw for the causes they tell
    apart have characters outside the strings of this model; an error is
    kept as its cause, with the message of the subprocess where the text
    carries it. *)

(** [s.split(/\s+/)]: the parts between runs of white space. A string that
    begins or ends with white space has an empty first or last part, and
    the empty string has one empty part. *)
Fixpoint splitSpaces (inSpace : bool) (s : string) : list string :=
  match s with
  | EmptyString => [EmptyString]
  | String c s' =>
      if JS.isWhiteSpace c then
        if inSpace then splitSpaces true s' else EmptyString :: splitSpaces true s'
      else match splitSpaces false s' with
           | h :: r => String c h :: r
           | [] => [String c EmptyString]
           end
  end.

Definition splitWhitespace (s : string) : list string := splitSpaces false s.

(** [stdout.split('\n').filter(line => line.trim())]. *)
Definition nonBlankLines (stdout : string) : list string :=
  List.filter (fun line => JS.truthy (JS.trim line)) (JS.split "010" stdout).

(** An entry of a remote directory: [{name, isDirectory, path}]. *)
Record Entry := {
  entryName : string;
  entryIsDirectory : bool;
  entryPath : string
}.

(** The body of the loop of [browseDaemonDirectory] for one line: the
    entry it pushes, if any. *)
Definition listingEntry (remotePath line : string) : option Entry :=
  let parts := splitWhitespace (JS.trim line) in
  if (5 <=? length parts)%nat then
    let permissions := default EmptyString (head parts) in
    let name := default EmptyString (last parts) in
    if bool_decide (name = ".") || bool_decide (name = "..") then None
    else
      Some {| entryName := name;
              entryIsDirectory := JS.startsWith permissions "d";
              entryPath := if JS.truthy remotePath then remotePath +:+ "/" +:+ name
                           else name |}
  else None.

Definition parseListing (remotePath stdout : string) : list Entry :=
  omap (listingEntry remotePath) (nonBlankLines stdout).

(** Why a listing failed, as the [catch] blocks tell the causes apart. *)
Inductive ListingError :=
| AuthenticationFailed
| ModuleNotFound
| ConnectionRefused
| ListingFailed (message : string).

(** [if (password) env.RSYNC_PASSWORD = password]. *)
Definition passwordEnv (password : option string) : option string :=
  match password with
  | Some p => if JS.truthy p then Some p else None
  | None => None
  end.

(** [port || 873]. *)
Definition portOrDefault (port : option Z) : Z :=
  match port with
  | Some p => if p =? 0 then 873 else p
  | None => 873
  end.

(** The command line of [browseDaemonDirectory]. *)
Definition browseCommand (host username : string) (port : Z) (moduleName remotePath : string)
    : string :=
  let command := "rsync --list-only" in
  let fullPath := if JS.truthy remotePath then moduleName +:+ "/" +:+ remotePath
                  else moduleName in
  let rsyncUrl := "rsync://" +:+ username +:+ "@" +:+ host +:+ ":" +:+ JS.numToString port
                    +:+ "/" +:+ fullPath +:+ "/" in
  command +:+ " " +:+ rsyncUrl.

(** [browseDaemonDirectory]: the launch, and the entries or the error. *)
Definition browseDaemonDirectory (host username : string) (password : option string)
    (port : Z) (moduleName remotePath : string) (exec : ExecResult)
    : (string * option string) * (list Entry + ListingError) :=
  let launch := (browseCommand host username port moduleName remotePath,
                 passwordEnv password) in
  match exec with
  | ExecOk stdout _ => (launch, inl (parseListing remotePath stdout))
  | ExecError m =>
      (launch,
       inr (if JS.includes m "unexpected end of file" || JS.includes m "auth failed"
            then AuthenticationFailed
            else if JS.includes m "unknown module" then ModuleNotFound
            else ListingFailed m))
  end.

(** [browseRemoteDirectory(connectionSettings, remotePath)]; the error it
    throws wraps the one of [browseDaemonDirectory] and keeps its
    cause. *)
Definition browseRemoteDirectory (host username : string) (password : option string)
    (port : option Z) (moduleName : option string) (remotePath : string)
    (exec : ExecResult) : (string * option string) * (list Entry + ListingError) :=
  browseDaemonDirectory host username password (portOrDefault port)
    (default EmptyString moduleName) remotePath exec.

(** A module of an rsync daemon: [{name, comment}]. *)
Record DaemonModule := {
  daemonModuleName : string;
  daemonModuleComment : string
}.

(** [/^[drwx-]+$/] matches [s]. *)
Fixpoint permissionChars (s : string) : bool :=
  match s with
  | EmptyString => true
  | String c s' =>
      (bool_decide (c = "d"%char) || bool_decide (c = "r"%char)
       || bool_decide (c = "w"%char) || bool_decide (c = "x"%char)
       || bool_decide (c = "-"%char)) && permissionChars s'
  end.

Definition looksLikePermissions (s : string) : bool := JS.truthy s && permissionChars s.

(** The body of the loop of [getAvailableModules] for one line. *)
Definition moduleEntry (line : string) : option DaemonModule :=
  let trimmedLine := JS.trim line in
  if JS.truthy trimmedLine && negb (JS.startsWith trimmedLine "drwx")
     && negb (JS.startsWith trimmedLine "-rw") then
    let parts := splitWhitespace trimmedLine in
    if (1 <=? length parts)%nat then
      let moduleName := default EmptyString (head parts) in
      let joined := JS.join " " (tail parts) in
      let comment := if JS.truthy joined then joined else "No description" in
      if negb (looksLikePermissions moduleName) then
        Some {| daemonModuleName := moduleName; daemonModuleComment := comment |}
      else None
    else None
  else None.

Definition parseModules (stdout : string) : list DaemonModule :=
  omap moduleEntry (nonBlankLines stdout).

(** [getAvailableModules(connectionSettings)]: first without credentials,
    with the environment of the process; if that fails, with the user
    name in the URL and the password in the environment. [anonymous] and
    [authenticated] are the outcomes of the two launches; the second is
    not looked at when the first succeeds. *)
Definition getAvailableModules (host username : string) (password : option string)
    (port : option Z) (anonymous authenticated : ExecResult)
    : list (string * option string) * (list DaemonModule + ListingError) :=
  let first := ("rsync --list-only" +:+ " " +:+ "rsync://" +:+ host +:+ ":"
                  +:+ JS.numToString (portOrDefault port) +:+ "/", None) in
  match anonymous with
  | ExecOk stdout _ => ([first], inl (parseModules stdout))
  | ExecError _ =>
      let second := ("rsync --list-only" +:+ " " +:+ "rsync://" +:+ username +:+ "@"
                       +:+ host +:+ ":" +:+ JS.numToString (portOrDefault port) +:+ "/",
                     passwordEnv password) in
      match authenticated with
      | ExecOk stdout _ => ([first; second], inl (parseModules stdout))
      | ExecError m =>
          ([first; second],
           inr (if JS.includes m "unexpected end of file" || JS.includes m "auth failed"
                then AuthenticationFailed
                else if JS.includes m "Connection refused" then ConnectionRefused
                else ListingFailed m))
      end
  end.

(** A string has a white-space character. *)
Fixpoint hasSpace (s : string) : bool :=
  match s with
  | EmptyString => false
  | String c s' => JS.isWhiteSpace c || hasSpace s'
  end.

(** The last character of a string. *)
Fixpoint lastChar (s : string) : option ascii :=
  match s with
  | EmptyString => None
  | String c EmptyString => Some c
  | String _ s' => lastChar s'
  end.

(** The line feed, as a string. *)
Definition newline : string := String (ascii_of_nat 10) EmptyString.

(** A listing as [rsync --list-only] prints it, for the scenarios. *)
Definition sampleListing : string :=
  "drwxr-xr-x          4,096 2024/01/15 10:30:00 ." +:+ newline
  +:+ "drwxr-xr-x          4,096 2024/01/15 10:30:00 photos" +:+ newline
  +:+ "-rw-r--r--          1,234 2024/01/15 10:31:00 My Notes.txt" +:+ newline.

(** A field of a line: not empty, no white space in it. *)
Definition isField (s : string) : bool := JS.truthy s && negb (hasSpace s).

(** What separates two fields of a line: white space, not empty, without
    a line feed. *)
Fixpoint blanks (s : string) : bool :=
  match s with
  | EmptyString => true
  | String c s' =>
      JS.isWhiteSpace c && negb (bool_decide (c = ascii_of_nat 10)) && blanks s'
  end.

Definition isSeparator (s : string) : bool := JS.truthy s && blanks s.

(** A line of fields: the first, then separators and fields in turn. *)
Fixpoint fieldsLine (first : string) (rest : list (string * string)) : string :=
  match rest with
  | [] => first
  | (sep, field) :: r => first +:+ sep +:+ fieldsLine field r
  end.

(** A row of a listing as [rsync --list-only] prints it: permissions and
    at least four more fields, the last being the name. *)
Definition listingRow (row : string * list (string * string)) : bool :=
  isField (fst row)
  && forallb (fun sf => isSeparator (fst sf) && isField (snd sf)) (snd row)
  && (4 <=? length (snd row))%nat.

Definition rowLine (row : string * list (string * string)) : string :=
  fieldsLine (fst row) (snd row).

(** The entry that a row stands for: none for [.] and [..]. *)
Definition rowEntry (remotePath : string) (row : string * list (string * string))
    : option Entry :=
  let name := default (fst row) (last (map snd (snd row))) in
  if bool_decide (name = ".") || bool_decide (name = "..") then None
  else Some {| entryName := name;
               entryIsDirectory := JS.startsWith (fst row) "d";
               entryPath := if JS.truthy remotePath then remotePath +:+ "/" +:+ name
                            else name |}.

(** Lines, each ended by a line feed. *)
Definition unlines (lines : list string) : string :=
  foldr (fun line acc => line +:+ newline +:+ acc) EmptyString lines.

(** A string has a line feed. *)
Fixpoint hasLineFeed (s : string) : bool :=
  match s with
  | EmptyString => false
  | String c s' => bool_decide (c = ascii_of_nat 10) || hasLineFeed s'
  end.

(** ** What a trace can hold *)

(** Events that are neither a notification nor a mark of the start or the
    end of a sync. *)
Definition quietEvent (ev : Event) : bool :=
  match ev with
  | SyncStart _ | SyncEnd _ | Notify _ _ _ => false
  | _ => true
  end.

(** From [w] to [w'] the trace grew by events that satisfy [Q], and the
    callbacks are the same. *)
Definition advances (Q : list Event -> Prop) (w w' : World) : Prop :=
  (exists d, trace w' = trace w ++ d /\ Q d) /\ callbacks w' = callbacks w.

(** The marks of the start and of the end of a sync in a trace. *)
Definition isBracket (ev : Event) : bool :=
  match ev with
  | SyncStart _ | SyncEnd _ => true
  | _ => false
  end.

Definition brackets (d : list Event) : list Event := List.filter isBracket d.

(** The marks are a sequence of pairs: a start, then the end of the same
    session. *)
Definition paired (d : list Event) : Prop :=
  exists ids, brackets d = flat_map (fun s => [SyncStart s; SyncEnd s]) ids.

(** A notification, if [ev] is one, is the notification of a failed
    sync. *)
Definition errorNotice (ev : Event) : bool :=
  match ev with
  | Notify title body NError =>
      bool_decide (title = "imeSync - Sync Error") && JS.startsWith body "Sync failed for "
  | Notify _ _ _ => false
  | _ => true
  end.

(** Log entries of level info, and the launch of the subprocess. *)
Definition plainEvent (ev : Event) : bool :=
  match ev with
  | Console l => JS.startsWith l "[INFO] "
  | Log LInfo _ => true
  | Exec _ _ => true
  | _ => false
  end.

(** ** The statistics in the output of [rsync] *)

(** A line of the output that [syncWithRsync] logs as it is. *)
Definition echoedLine (line : string) : bool :=
  JS.includes line "->" || JS.includes line "sent" || JS.includes line "received".

(** The two lines of statistics that [syncWithRsync] reads. *)
Definition countLine (k : Z) : string :=
  "Number of files transferred: " +:+ JS.numToString k.

Definition sizeLine (size : string) : string :=
  "Total file size: " +:+ size +:+ " bytes".

Fixpoint allDots (s : string) : bool :=
  match s with
  | EmptyString => true
  | String c s' => isDot c && allDots s'
  end.

(** [t], laid over the head of a longer string, differs from [p] at a
    position that is within [t]. *)
Fixpoint mismatch (t p : string) {struct p} : bool :=
  match p, t with
  | EmptyString, _ => false
  | String _ _, EmptyString => false
  | String a p', String b t' => if decide (a = b) then mismatch t' p' else true
  end.

(** No occurrence of [p] begins within [pre], whatever follows [pre]. *)
Fixpoint noOverlap (pre p : string) : bool :=
  match pre with
  | EmptyString => true
  | String _ pre' => mismatch pre p && noOverlap pre' p
  end.

(** ** The dialog of a session ([SessionDialog.tsx])

    The state of the form is a [Partial<SessionConfig>]: every field may
    be missing. When the dialog opens on a session, the form is that
    session. *)
Record FormData := {
  formId : option string;
  formName : option string;
  formSourcePath : option string;
  formDestinationPath : option string;
  formTriggers : option (list Trigger);
  formExcludePatterns : option (list string);
  formLastSync : option string;
  formLastSyncStatus : option SyncStatus;
  formLastSyncError : option string;
  formEnabled : option bool;
  formPaused : option bool;
  formRsyncOptions : option RsyncOptions;
  formRemoteConnection : option RemoteConnection
}.

(** [setFormData(session)]. *)
Definition formOf (s : SessionConfig) : FormData :=
  {| formId := Some (id s); formName := Some (name s);
     formSourcePath := Some (sourcePath s);
     formDestinationPath := Some (destinationPath s);
     formTriggers := Some (triggers s);
     formExcludePatterns := excludePatterns s;
     formLastSync := lastSync s; formLastSyncStatus := lastSyncStatus s;
     formLastSyncError := lastSyncError s;
     formEnabled := Some (enabled s); formPaused := paused s;
     formRsyncOptions := rsyncOptions s;
     formRemoteConnection := remoteConnection s |}.

(** The destination of [handleSubmit]: an [rsync://] URL made from the
    connection; a module name that is missing prints as [undefined]. *)
Definition destinationOf (rc : RemoteConnection) : string :=
  "rsync://" +:+ username rc +:+ "@" +:+ host rc +:+ ":"
    +:+ JS.numToString (portOrDefault (port rc)) +:+ "/"
    +:+ default "undefined" (moduleName rc) +:+ "/" +:+ remotePath rc.

(** [handleSubmit]: the session handed to [onSave]. [session] is the
    session the dialog was opened on, [dateNow] is [Date.now()]. *)
Definition handleSubmit (session : option SessionConfig) (formData : FormData)
    (dateNow : Z) : SessionConfig :=
  let destinationPath :=
    match formRemoteConnection formData with
    | Some rc => destinationOf rc
    | None => EmptyString
    end in
  {| id := match session with
           | Some s => if JS.truthy (id s) then id s else JS.numToString dateNow
           | None => JS.numToString dateNow
           end;
     name := default EmptyString (formName formData);
     sourcePath := default EmptyString (formSourcePath formData);
     destinationPath := destinationPath;
     triggers := default [] (formTriggers formData);
     excludePatterns := formExcludePatterns formData;
     lastSync := None;
     lastSyncStatus := None;
     lastSyncError := None;
     enabled := default true (formEnabled formData);
     paused := None;
     rsyncOptions := formRsyncOptions formData;
     remoteConnection := formRemoteConnection formData |}.

(** ** The log file of a sync ([createSyncLogCallback] of [main.ts])

    The log callback writes every entry to the log file of the sync and
    ends that file on an entry of type success that has [Sync completed]
    in it or of type error that has [Sync failed] in it. *)
Definition endsSyncLog (ev : Event) : bool :=
  match ev with
  | Log LSuccess m => JS.includes m "Sync completed"
  | Log LError m => JS.includes m "Sync failed"
  | _ => false
  end.

Definition keepsSyncLog (ev : Event) : bool := negb (endsSyncLog ev).

Definition isLog (ev : Event) : bool :=
  match ev with Log _ _ => true | _ => false end.

(** The character [a] does not occur in [s]. *)
Fixpoint lacks (a : ascii) (s : string) : bool :=
  match s with
  | EmptyString => true
  | String c s' => negb (bool_decide (a = c)) && lacks a s'
  end.

(** ** The record of the last sync

    The record of a session is sound when status, error and time agree:
    a success has a time and no error, an error has a time and a message,
    and without a status there is no error. The manager writes no other
    status. *)
Definition recordSound (s : SessionConfig) : bool :=
  match lastSyncStatus s with
  | Some StatusSuccess => bool_decide (lastSyncError s = None) && bool_decide (is_Some (lastSync s))
  | Some StatusError =>
      bool_decide (is_Some (lastSyncError s)) && bool_decide (is_Some (lastSync s))
  | Some StatusWarning => false
  | None => bool_decide (lastSyncError s = None)
  end.

(** The collections an input hands to the manager satisfy [P]. *)
Definition feeds (P : SessionConfig -> bool) (i : Input) : bool :=
  match i with
  | CallUpdateSessions ss _ => forallb P ss
  | CallSyncNow _ _ disk _ _ => forallb P disk
  | _ => true
  end.

(** If the sessions of [w] satisfy [P], so do those of [w']. *)
Definition kept (P : SessionConfig -> bool) (w w' : World) : Prop :=
  forallb P (sessions w) = true -> forallb P (sessions w') = true.

(** ** Facts about strings and traces *)

Lemma append_cons (x : ascii) (a b : string) : String x a +:+ b = String x (a +:+ b).
Proof. reflexivity. Qed.

Lemma append_empty_l (a : string) : EmptyString +:+ a = a.
Proof. reflexivity. Qed.

Lemma append_assoc (a b c : string) : (a +:+ b) +:+ c = a +:+ (b +:+ c).
Proof.
  induction a as [|x a IH]; [reflexivity|].
  rewrite !append_cons. f_equal. exact IH.
Qed.

Lemma append_empty_r (a : string) : a +:+ EmptyString = a.
Proof.
  induction a as [|x a IH]; [reflexivity|].
  rewrite append_cons. f_equal. exact IH.
Qed.

Lemma startsWith_append (p s : string) : JS.startsWith (p +:+ s) p = true.
Proof.
  induction p as [|a p IH]; [reflexivity|].
  rewrite append_cons. simpl.
  destruct (decide (a = a)); [exact IH | congruence].
Qed.

Lemma startsWith_append_l (s b p : string) :
  JS.startsWith s p = true -> JS.startsWith (s +:+ b) p = true.
Proof.
  revert s. induction p as [|y p IH]; intros s H; [reflexivity|].
  destruct s as [|x s]; [discriminate|].
  rewrite append_cons. simpl in *.
  destruct (decide (y = x)); [|discriminate]. now apply IH.
Qed.

Lemma includes_startsWith (s p : string) : JS.startsWith s p = true -> JS.includes s p = true.
Proof. intros H. destruct s; simpl in *; rewrite H; reflexivity. Qed.

Lemma includes_append_r (a s p : string) :
  JS.includes s p = true -> JS.includes (a +:+ s) p = true.
Proof.
  intros H. induction a as [|x a IH]; [exact H|].
  rewrite append_cons. simpl. rewrite IH. apply orb_true_r.
Qed.

Lemma includes_append_l (s b p : string) :
  JS.includes s p = true -> JS.includes (s +:+ b) p = true.
Proof.
  induction s as [|x s IH]; intros H.
  - destruct p; simpl in H; [|discriminate]. destruct b; reflexivity.
  - simpl in H. apply orb_true_iff in H as [H|H].
    + apply includes_startsWith. now apply startsWith_append_l.
    + rewrite append_cons. simpl. rewrite (IH H). apply orb_true_r.
Qed.

Lemma fold_appendExclude (ps : list string) (acc : string) :
  fold_left appendExclude ps acc = acc +:+ excludeFlags ps.
Proof.
  revert acc. induction ps as [|p ps IH]; intros acc.
  - unfold excludeFlags. simpl. now rewrite append_empty_r.
  - simpl. rewrite IH. unfold appendExclude, excludeFlags. simpl.
    destruct (JS.truthy (JS.trim p)); simpl; [|reflexivity].
    now rewrite !append_assoc.
Qed.

Lemma emit_nil (w : World) : emit [] w = w.
Proof. destruct w. unfold emit, set_trace. simpl. now rewrite app_nil_r. Qed.

Lemma emit_emit (d1 d2 : list Event) (w : World) :
  emit d2 (emit d1 w) = emit (d1 ++ d2) w.
Proof. destruct w. unfold emit, set_trace. simpl. now rewrite app_assoc. Qed.

Lemma newEvents_emit (d : list Event) (w : World) : newEvents w (emit d w) = d.
Proof. unfold newEvents, emit. simpl. now rewrite drop_app_length. Qed.

Lemma launches_app (a b : list Event) : launches (a ++ b) = launches a ++ launches b.
Proof. unfold launches. apply omap_app. Qed.

Section Emitted.
Variable P : Event -> bool.

Lemma emitted_refl (w : World) : emitted P [] w w.
Proof. exists []. now rewrite emit_nil. Qed.

Lemma emitted_emit (L : list (string * option string)) (d : list Event) (w T : World) :
  emitted P L w T -> forallb P d = true ->
  emitted P (L ++ launches d) w (emit d T).
Proof.
  intros (d0 & -> & HP & HL) Hd. exists (d0 ++ d).
  rewrite emit_emit, forallb_app, HP, Hd, launches_app, HL. auto.
Qed.

Lemma emitted_quiet (L : list (string * option string)) (d : list Event) (w T : World) :
  emitted P L w T -> forallb P d = true -> launches d = [] ->
  emitted P L w (emit d T).
Proof.
  intros H Hd Hl. rewrite <- (app_nil_r L), <- Hl. now apply emitted_emit.
Qed.

Lemma emitted_log (L : list (string * option string)) (lc : bool) (t : LogType)
    (m : string) (w T : World) :
  emitted P L w T ->
  P (Console ("[" +:+ levelUpper t +:+ "] " +:+ m)) = true ->
  P (Log t m) = true ->
  emitted P L w (log lc t m T).
Proof.
  intros H Hc Hl. unfold log. apply emitted_quiet; [exact H | |].
  - unfold logEvents. destruct lc; simpl; rewrite Hc, ?Hl; reflexivity.
  - destruct lc; reflexivity.
Qed.
End Emitted.

Lemma rsyncEvent_console (t : LogType) (m : string) :
  t <> LSuccess -> t <> LWarning ->
  rsyncEvent (Console ("[" +:+ levelUpper t +:+ "] " +:+ m)) = true.
Proof.
  intros Ht Ht'. destruct t; [| congruence | | congruence]; unfold rsyncEvent, levelUpper.
  - change ("[" +:+ "INFO" +:+ "] " +:+ m) with ("[INFO] " +:+ m).
    now rewrite (startsWith_append "[INFO] ").
  - change ("[" +:+ "ERROR" +:+ "] " +:+ m) with ("[ERROR] " +:+ m).
    rewrite (startsWith_append "[ERROR] "). now rewrite !orb_true_r.
Qed.

Lemma rsyncEvent_log (t : LogType) (m : string) :
  t <> LSuccess -> t <> LWarning -> rsyncEvent (Log t m) = true.
Proof. intros Ht Ht'. destruct t; [| congruence | | congruence]; reflexivity. Qed.

Lemma emitted_rsync_log (L : list (string * option string)) (lc : bool) (t : LogType)
    (m : string) (w T : World) :
  emitted rsyncEvent L w T -> t <> LSuccess -> t <> LWarning ->
  emitted rsyncEvent L w (log lc t m T).
Proof.
  intros H Ht Ht'. apply emitted_log; [exact H | |].
  - now apply rsyncEvent_console.
  - now apply rsyncEvent_log.
Qed.

Lemma emitted_rsync_transfer (L : list (string * option string)) (lc : bool)
    (m : string) (w T : World) :
  emitted rsyncEvent L w T ->
  emitted rsyncEvent L w (log lc LSuccess ("Transfer completed in " +:+ m) T).
Proof.
  intros H. apply emitted_log; [exact H | |].
  - unfold rsyncEvent, levelUpper.
    change ("[" +:+ "SUCCESS" +:+ "] " +:+ "Transfer completed in " +:+ m)
      with ("[SUCCESS] Transfer completed in " +:+ m).
    rewrite (startsWith_append "[SUCCESS] Transfer completed in ").
    now rewrite !orb_true_r.
  - unfold rsyncEvent. apply startsWith_append.
Qed.

Lemma emitted_rsync_warnings (L : list (string * option string)) (lc : bool)
    (m : string) (w T : World) :
  emitted rsyncEvent L w T ->
  emitted rsyncEvent L w (log lc LWarning ("Rsync warnings: " +:+ m) T).
Proof.
  intros H. apply emitted_log; [exact H | |].
  - unfold rsyncEvent, levelUpper.
    change ("[" +:+ "WARNING" +:+ "] " +:+ "Rsync warnings: " +:+ m)
      with ("[WARNING] Rsync warnings: " +:+ m).
    rewrite (startsWith_append "[WARNING] Rsync warnings: ").
    now rewrite !orb_true_r.
  - unfold rsyncEvent. apply startsWith_append.
Qed.

Lemma scanLines_emitted (L : list (string * option string)) (lc : bool)
    (lines : list string) (n : Z) (sz : string) (w T : World) :
  emitted rsyncEvent L w T ->
  emitted rsyncEvent L w (snd (scanLines lc lines n sz T)).
Proof.
  revert n sz T. induction lines as [|line r IH]; intros n sz T H; [exact H|].
  simpl.
  destruct (JS.includes line "->" || JS.includes line "sent" || JS.includes line "received").
  - apply IH. now apply emitted_rsync_log.
  - destruct (JS.includes line "Number of files transferred:").
    + destruct (matchFilesTransferred line); now apply IH.
    + destruct (JS.includes line "Total file size:"); [|now apply IH].
      destruct (matchTotalSize line); now apply IH.
Qed.

Lemma reportOutput_emitted (L : list (string * option string)) (lc : bool) (e : SyncEnv)
    (stdout stderr : string) (w T : World) :
  emitted rsyncEvent L w T ->
  emitted rsyncEvent L w (reportOutput lc e stdout stderr T).
Proof.
  intros H. unfold reportOutput.
  assert (emitted rsyncEvent L w
            (if JS.truthy stdout
             then
               let lines := filter (fun l => JS.truthy (JS.trim l) = true) (JS.split "010" stdout) in
               let '(filesTransferred, totalSize, w0) := scanLines lc lines 0 EmptyString T in
               let w1 := log lc LSuccess
                           ("Transfer completed in " +:+ JS.numToString (durationSeconds e) +:+ "s") w0 in
               let w2 := log lc LInfo ("Files transferred: " +:+ JS.numToString filesTransferred) w1 in
               if JS.truthy totalSize
               then log lc LInfo ("Total size: " +:+ totalSize +:+ " bytes") w2
               else w2
             else T)) as H1.
  { destruct (JS.truthy stdout); [|exact H]. cbv zeta.
    pose proof (scanLines_emitted L lc
                  (filter (fun l => JS.truthy (JS.trim l) = true) (JS.split "010" stdout))
                  0 EmptyString w T H) as Hs.
    destruct (scanLines lc _ 0 EmptyString T) as [[n sz] w0]. simpl in Hs.
    destruct (JS.truthy sz).
    - apply emitted_rsync_log; [|discriminate..].
      apply emitted_rsync_log; [|discriminate..].
      now apply emitted_rsync_transfer.
    - apply emitted_rsync_log; [|discriminate..].
      now apply emitted_rsync_transfer. }
  destruct (JS.truthy stderr && negb (JS.includes stderr "warning")); [|exact H1].
  now apply emitted_rsync_warnings.
Qed.

Ltac rsync_chain :=
  repeat match goal with
         | |- emitted _ [] ?w ?w => apply emitted_refl
         | |- emitted _ _ _ (log _ _ _ _) => apply emitted_rsync_log; [|discriminate..]
         | |- emitted _ _ _ (match ?x with _ => _ end) => destruct x
         end.

(** [syncWithRsync] only adds events to the trace: log lines of its own
    and at most one launch of the subprocess. *)
Lemma syncWithRsync_spec (s : SessionConfig) (lc : bool) (e : SyncEnv) (w : World) :
  exists w', syncWithRsync s lc e w = (w', rsyncOutcome s e)
             /\ emitted rsyncEvent (rsyncLaunches s e) w w'.
Proof.
  unfold syncWithRsync, rsyncOutcome, rsyncLaunches.
  destruct (sourceExists e); simpl.
  2:{ eexists; split; [reflexivity | apply emitted_refl]. }
  destruct (remoteConnection s) as [rc|].
  2:{ eexists; split; [reflexivity|]. rsync_chain. }
  cbv zeta. destruct (execResult e) as [stdout stderr|m].
  - eexists; split; [reflexivity|].
    apply reportOutput_emitted.
    change [(buildCommand s, rsyncPassword s)]
      with ([] ++ launches [Exec (buildCommand s) (rsyncPassword s)]).
    apply emitted_emit; [|reflexivity].
    rsync_chain.
  - eexists; split; [reflexivity|].
    apply emitted_rsync_log; [|discriminate..].
    change [(buildCommand s, rsyncPassword s)]
      with ([] ++ launches [Exec (buildCommand s) (rsyncPassword s)]).
    apply emitted_emit; [|reflexivity].
    rsync_chain.
Qed.

Lemma buildCommand_layout (s : SessionConfig) : buildCommand s = commandLayout s.
Proof.
  unfold buildCommand, commandLayout, updateOnlyOf, optionFlag.
  rewrite fold_appendExclude.
  destruct (rsyncOptions s) as [[d c p u]|]; simpl;
    [destruct u, d, c, p; simpl|];
    rewrite ?append_empty_l, ?append_assoc, ?append_empty_l; reflexivity.
Qed.

Lemma buildCommand_withPassword (p : option string) (s : SessionConfig) :
  buildCommand (withPassword p s) = buildCommand s.
Proof. reflexivity. Qed.

(** The end-to-end scenario of the specification: the exclude flag is
    there, [--ignore-times] is not; when the subprocess succeeds the
    session is recorded as a success and the end-sync notification goes
    out once. *)
Example scenario_command :
  buildCommand scenarioSession
  = "rsync -av --progress --stats --human-readable --exclude='*.tmp' "
      +:+ JS.dquote +:+ "/tmp/src/" +:+ JS.dquote +:+ " "
      +:+ JS.dquote +:+ "rsync://u@h:873/m/p/" +:+ JS.dquote
  /\ JS.includes (buildCommand scenarioSession) "--exclude='*.tmp'" = true
  /\ JS.includes (buildCommand scenarioSession) "--ignore-times" = false
  /\ lastSyncStatus
       <$> findSession "s1" (sessions (fst (syncSession "s1" true envOk scenarioWorld)))
     = Some (Some StatusSuccess)
  /\ List.filter isSyncEnd (trace (fst (syncSession "s1" true envOk scenarioWorld)))
     = [SyncEnd "s1"].
Proof. vm_compute. repeat split. Qed.

(** C1, as stated, fails: the session of the scenario with the password
    [rsync] has a remote connection, hands that password to
    [RSYNC_PASSWORD], and its command line contains the password as a
    substring (it starts with it). *)
Lemma C1_password_substring_counterexample :
  is_Some (remoteConnection (withPassword (Some "rsync") scenarioSession))
  /\ rsyncPassword (withPassword (Some "rsync") scenarioSession) = Some "rsync"
  /\ ~ passwordNeverInCommand (withPassword (Some "rsync") scenarioSession).
Proof.
  split; [eexists; reflexivity|]. split; [reflexivity|].
  intros H. specialize (H "rsync" eq_refl). vm_compute in H. discriminate.
Qed.

(** C1 (amended). For every session with a remote connection whose source
    exists, [syncWithRsync] launches the subprocess exactly once, with the
    command line [commandLayout]: the base flags
    [-av --progress --stats --human-readable], one [--exclude='p'] per
    entry of [excludePatterns] that is not empty once trimmed, all before
    the option flags, then [--ignore-times] exactly when
    [rsyncOptions.updateOnly] is false (true when [rsyncOptions] is
    absent), [--delete], [-z] and [-p] exactly when their options are set,
    then the two paths. The password goes only to [RSYNC_PASSWORD] (when
    it is not empty), and the command line is built without it: it is the
    same whatever the password is. *)
Theorem C1_command_line (s : SessionConfig) (rc : RemoteConnection) (logCallback : bool)
    (e : SyncEnv) (w : World) :
  remoteConnection s = Some rc ->
  sourceExists e = true ->
  buildCommand s = commandLayout s
  /\ launches (newEvents w (fst (syncWithRsync s logCallback e w)))
     = [(commandLayout s,
         match password rc with
         | Some p => if JS.truthy p then Some p else None
         | None => None
         end)]
  /\ (forall p, buildCommand (withPassword p s) = buildCommand s).
Proof.
  intros Hrc Hsrc. split; [apply buildCommand_layout|]. split.
  - destruct (syncWithRsync_spec s logCallback e w) as (w' & Heq & d & -> & _ & HL).
    rewrite Heq. simpl. rewrite newEvents_emit, HL.
    unfold rsyncLaunches, rsyncPassword. rewrite Hsrc, Hrc. simpl.
    now rewrite buildCommand_layout.
  - intros p. apply buildCommand_withPassword.
Qed.

Lemma C1_command_line_witness :
  remoteConnection (withPassword (Some "secret") scenarioSession)
  = Some {| host := "h"; username := "u"; password := Some "secret"; port := None;
            remotePath := "p"; moduleName := Some "m" |}
  /\ sourceExists envOk = true
  /\ (buildCommand (withPassword (Some "secret") scenarioSession)
      = commandLayout (withPassword (Some "secret") scenarioSession)
      /\ launches (newEvents scenarioWorld
                     (fst (syncWithRsync (withPassword (Some "secret") scenarioSession)
                             true envOk scenarioWorld)))
         = [(commandLayout (withPassword (Some "secret") scenarioSession), Some "secret")]
      /\ (forall p, buildCommand (withPassword p (withPassword (Some "secret") scenarioSession))
                    = buildCommand (withPassword (Some "secret") scenarioSession))).
Proof.
  split; [reflexivity|]. split; [reflexivity|].
  apply (C1_command_line (withPassword (Some "secret") scenarioSession)
           {| host := "h"; username := "u"; password := Some "secret"; port := None;
              remotePath := "p"; moduleName := Some "m" |} true envOk scenarioWorld);
    reflexivity.
Defined.

Lemma filter_rsync_none (p : Event -> bool) (d : list Event) :
  (forall ev, rsyncEvent ev = true -> p ev = false) ->
  forallb rsyncEvent d = true -> List.filter p d = [].
Proof.
  intros Hp. induction d as [|ev d IH]; intros H; [reflexivity|].
  simpl in H. apply andb_true_iff in H as [H1 H2].
  simpl. rewrite (Hp ev H1). now apply IH.
Qed.

Lemma filter_log_none (p : Event -> bool) (lc : bool) (t : LogType) (m : string) :
  (forall l, p (Console l) = false) -> (forall t' m', p (Log t' m') = false) ->
  List.filter p (logEvents lc t m) = [].
Proof. intros Hc Hl. unfold logEvents. destruct lc; simpl; now rewrite Hc, ?Hl. Qed.

Lemma set_sessions_emit (S : list SessionConfig) (d : list Event) (w : World) :
  set_sessions S (emit d w) = emit d (set_sessions S w).
Proof. reflexivity. Qed.

Lemma if_emit (c : bool) (d : list Event) (w : World) :
  (if c then emit d w else w) = emit (if c then d else []) w.
Proof. destruct c; [reflexivity | now rewrite emit_nil]. Qed.

Lemma saveGuarded_emit (lc : bool) (e : SyncEnv) (warning : string) (w : World) :
  saveGuarded lc e warning w = emit (saveEvents w lc e warning (sessions w)) w.
Proof.
  unfold saveGuarded, saveEvents, log.
  destruct (saveSessionsCallback w); [|now rewrite emit_nil].
  destruct (saveError e); [|reflexivity].
  now rewrite emit_emit.
Qed.

(** [syncSession] on a session that exists, in one piece: the outcome is
    that of [syncWithRsync]; the session gets the outcome recorded; the
    trace grows by the prologue, the events of [syncWithRsync] and the
    epilogue; nothing else changes. *)
Lemma syncSession_form (sessionId : string) (session : SessionConfig) (lc : bool)
    (e : SyncEnv) (w : World) :
  findSession sessionId (sessions w) = Some session ->
  exists d,
    forallb rsyncEvent d = true
    /\ launches d = rsyncLaunches session e
    /\ syncSession sessionId lc e w
       = (emit (prologue w sessionId session lc ++ d
                  ++ epilogue w sessionId session lc e (rsyncOutcome session e)
                       (mutateSession sessionId (outcomeRecord e (rsyncOutcome session e))
                          (sessions w)))
            (set_sessions
               (mutateSession sessionId (outcomeRecord e (rsyncOutcome session e))
                  (sessions w)) w),
          rsyncOutcome session e).
Proof.
  intros Hf. unfold syncSession. rewrite Hf.
  set (w1 := log lc LInfo ("Destination: " +:+ destinationPath session) _).
  assert (H1 : w1 = emit (logEvents lc LInfo ("Starting sync for session: " +:+ name session)
                  ++ logEvents lc LInfo ("Source: " +:+ sourcePath session)
                  ++ logEvents lc LInfo ("Destination: " +:+ destinationPath session)) w).
  { subst w1. unfold log. now rewrite !emit_emit, <- ?app_assoc. }
  clearbody w1. cbv zeta.
  assert (H2 : (if syncStartCallback w1 then emit [SyncStart sessionId] w1 else w1)
               = emit (prologue w sessionId session lc) w).
  { rewrite if_emit. subst w1. rewrite emit_emit. unfold prologue.
    change (syncStartCallback (emit _ w)) with (syncStartCallback w).
    now rewrite <- ?app_assoc. }
  rewrite H2. clear H1 H2 w1.
  destruct (syncWithRsync_spec session lc e (emit (prologue w sessionId session lc) w))
    as (w3 & Heq & d & -> & Hd & HL).
  rewrite Heq. clear Heq. exists d. split; [exact Hd|]. split; [exact HL|].
  rewrite emit_emit.
  destruct (rsyncOutcome session e) as [|m]; cbv beta iota zeta.
  - rewrite saveGuarded_emit, set_sessions_emit, emit_emit.
    unfold log. rewrite emit_emit, if_emit, emit_emit.
    unfold epilogue, outcomeRecord. f_equal. f_equal.
    rewrite <- ?app_assoc. reflexivity.
  - rewrite saveGuarded_emit, set_sessions_emit, emit_emit.
    unfold log, console.
    match goal with
    | |- context [if notificationCallback ?W then ?a else ?b] =>
        assert (Hn : (if notificationCallback W then a else b)
                     = emit (if notificationCallback w then
                               Notify "imeSync - Sync Error" (errorBody (name session) m) NError ::
                                 match notifyError e with
                                 | Some err => [Console ("Failed to show error notification: " +:+ err)]
                                 | None => []
                                 end
                             else []) W)
    end.
    { change (notificationCallback (emit _ _)) with (notificationCallback w).
      destruct (notificationCallback w); [|now rewrite emit_nil].
      destruct (notifyError e); [now rewrite emit_emit | reflexivity]. }
    rewrite Hn. clear Hn.
    rewrite emit_emit, emit_emit, if_emit, emit_emit.
    unfold epilogue, outcomeRecord. f_equal. f_equal.
    rewrite <- ?app_assoc. reflexivity.
Qed.

Lemma newEvents_emit_sessions (d : list Event) (S : list SessionConfig) (w : World) :
  newEvents w (emit d (set_sessions S w)) = d.
Proof. unfold newEvents, emit. simpl. now rewrite drop_app_length. Qed.

Lemma findSession_mutate (sessionId : string) (f : SessionConfig -> SessionConfig)
    (ss : list SessionConfig) (s : SessionConfig) :
  (forall x, id (f x) = id x) ->
  findSession sessionId ss = Some s ->
  findSession sessionId (mutateSession sessionId f ss) = Some (f s).
Proof.
  intros Hid. unfold findSession.
  induction ss as [|x r IH]; simpl; [discriminate|].
  destruct (bool_decide (id x = sessionId)) eqn:E; simpl.
  - intros [= ->]. now rewrite Hid, E.
  - rewrite E. exact IH.
Qed.

Lemma startsWith_refl (s : string) : JS.startsWith s s = true.
Proof. rewrite <- (append_empty_r s) at 1. apply startsWith_append. Qed.

Lemma includes_refl (s : string) : JS.includes s s = true.
Proof. apply includes_startsWith, startsWith_refl. Qed.

Lemma includes_empty (s : string) : JS.includes s EmptyString = true.
Proof. now apply includes_startsWith. Qed.

Lemma errorBody_name (n m : string) : JS.includes (errorBody n m) n = true.
Proof.
  unfold errorBody. do 2 apply includes_append_r.
  apply includes_append_l, includes_refl.
Qed.

Lemma errorBody_message (n m : string) : JS.includes (errorBody n m) m = true.
Proof.
  unfold errorBody. destruct m as [|c m]; [apply includes_empty|].
  simpl JS.truthy. cbv iota. do 5 apply includes_append_r. apply includes_refl.
Qed.

Lemma filter_prologue (p : Event -> bool) (w : World) (sessionId : string)
    (session : SessionConfig) (lc : bool) :
  (forall l, p (Console l) = false) -> (forall t m, p (Log t m) = false) ->
  (forall x, p (SyncStart x) = false) ->
  List.filter p (prologue w sessionId session lc) = [].
Proof.
  intros Hc Hl Hs. unfold prologue.
  rewrite !List.filter_app, !filter_log_none by assumption.
  destruct (syncStartCallback w); simpl; now rewrite ?Hs.
Qed.

Lemma classify_connection_refused (msg : string) :
  JS.includes msg "Connection refused" = true ->
  JS.includes msg "Permission denied" = false ->
  JS.includes msg "No such file or directory" = false ->
  classifyError msg = connectionRefusedMessage.
Proof. intros H1 H2 H3. unfold classifyError. now rewrite H2, H3, H1. Qed.

(** C2, as stated, fails on the classification: an error text that names
    both a denied permission and a refused connection contains
    [Connection refused], yet the error recorded in the session is the
    permission message, which says nothing of a refused connection. *)
Lemma C2_connection_refused_counterexample :
  execResult envDeniedAndRefused
  = ExecError "rsync: Permission denied (13); Connection refused (111)"
  /\ JS.includes "rsync: Permission denied (13); Connection refused (111)"
       "Connection refused" = true
  /\ (lastSyncError
        <$> findSession "s1"
              (sessions (fst (syncSession "s1" true envDeniedAndRefused scenarioWorld))))
     = Some (Some "Permission denied. Check read permissions on source and write permissions on destination.")
  /\ JS.includes
       "Permission denied. Check read permissions on source and write permissions on destination."
       "Connection refused" = false.
Proof. vm_compute. auto. Qed.

(** C2 (amended). When the subprocess fails with an error of text [msg],
    [syncSession] records in the session the current time, the status
    [error] and the failure message [classifyError msg] (the
    connection-refused message whenever [msg] contains
    [Connection refused] and neither [Permission denied] nor
    [No such file or directory], which the code tests first); it calls the
    persistence callback once, with the updated collection; it sends
    exactly one error notification, whose body contains the session name
    and the message; it sends the end-sync notification once; and it
    rejects with that message. The end-sync notification is sent once on
    the success path too. *)
Theorem C2_failure_path (w : World) (sessionId : string) (session : SessionConfig)
    (rc : RemoteConnection) (logCallback : bool) (e : SyncEnv) (msg : string) :
  findSession sessionId (sessions w) = Some session ->
  remoteConnection session = Some rc ->
  sourceExists e = true ->
  execResult e = ExecError msg ->
  saveSessionsCallback w = true ->
  notificationCallback w = true ->
  syncEndCallback w = true ->
  let w' := fst (syncSession sessionId logCallback e w) in
  let m := classifyError msg in
  snd (syncSession sessionId logCallback e w) = Rejected m
  /\ sessions w'
     = mutateSession sessionId (recordOutcome (nowISO e) StatusError (Some m)) (sessions w)
  /\ (exists s', findSession sessionId (sessions w') = Some s'
                 /\ lastSync s' = Some (nowISO e)
                 /\ lastSyncStatus s' = Some StatusError
                 /\ lastSyncError s' = Some m)
  /\ (JS.includes msg "Connection refused" = true ->
      JS.includes msg "Permission denied" = false ->
      JS.includes msg "No such file or directory" = false ->
      m = connectionRefusedMessage)
  /\ List.filter isSave (newEvents w w') = [Save (sessions w')]
  /\ List.filter isNotify (newEvents w w')
     = [Notify "imeSync - Sync Error" (errorBody (name session) m) NError]
  /\ JS.includes (errorBody (name session) m) (name session) = true
  /\ JS.includes (errorBody (name session) m) m = true
  /\ List.filter isSyncEnd (newEvents w w') = [SyncEnd sessionId]
  /\ (forall e2 stdout stderr,
        sourceExists e2 = true -> execResult e2 = ExecOk stdout stderr ->
        snd (syncSession sessionId logCallback e2 w) = Resolved
        /\ List.filter isSyncEnd (newEvents w (fst (syncSession sessionId logCallback e2 w)))
           = [SyncEnd sessionId]).
Proof.
  intros Hf Hrc Hsrc Hexec Hsave Hnot Hend w' m.
  assert (Ho : rsyncOutcome session e = Rejected m).
  { unfold rsyncOutcome. now rewrite Hsrc, Hrc, Hexec. }
  destruct (syncSession_form sessionId session logCallback e w Hf) as (d & Hd & _ & Heq).
  rewrite Ho in Heq. subst w'. rewrite Heq. cbn [fst snd].
  rewrite newEvents_emit_sessions.
  change (sessions (emit _ (set_sessions ?S w))) with S.
  split; [reflexivity|]. split; [reflexivity|]. split.
  { eexists. split; [apply findSession_mutate; [reflexivity | exact Hf]|].
    repeat split. }
  split; [apply classify_connection_refused|].
  assert (Hq : forall p, (forall l, p (Console l) = false) ->
                         (forall t x, p (Log t x) = false) ->
                         (forall x, p (SyncStart x) = false) ->
                         (forall c x, p (Exec c x) = false) ->
                         forall ep,
                         List.filter p (prologue w sessionId session logCallback ++ d ++ ep)
                         = List.filter p ep).
  { intros p Hc Hl Hs Hx ep.
    rewrite !List.filter_app, filter_prologue by assumption.
    rewrite (filter_rsync_none p d); [reflexivity | | exact Hd].
    intros [] Hev; try discriminate; auto. }
  split.
  { rewrite Hq by reflexivity. unfold epilogue, outcomeRecord, saveEvents.
    rewrite Hsave, Hnot, Hend.
    destruct (saveError e), (notifyError e), logCallback; reflexivity. }
  split.
  { rewrite Hq by reflexivity. unfold epilogue, saveEvents.
    rewrite Hsave, Hnot, Hend.
    destruct (saveError e), (notifyError e), logCallback; reflexivity. }
  split; [apply errorBody_name|]. split; [apply errorBody_message|].
  split.
  { rewrite Hq by reflexivity. unfold epilogue, saveEvents.
    rewrite Hsave, Hnot, Hend.
    destruct (saveError e), (notifyError e), logCallback; reflexivity. }
  intros e2 stdout stderr Hsrc2 Hexec2.
  assert (Ho2 : rsyncOutcome session e2 = Resolved).
  { unfold rsyncOutcome. now rewrite Hsrc2, Hrc, Hexec2. }
  destruct (syncSession_form sessionId session logCallback e2 w Hf) as (d2 & Hd2 & _ & Heq2).
  rewrite Ho2 in Heq2. rewrite Heq2. cbn [fst snd]. split; [reflexivity|].
  rewrite newEvents_emit_sessions.
  rewrite !List.filter_app, filter_prologue by reflexivity.
  rewrite (filter_rsync_none isSyncEnd d2); [| | exact Hd2].
  2:{ intros [] Hev; try discriminate; auto. }
  unfold epilogue, saveEvents. rewrite Hsave, Hend.
  destruct (saveError e2), logCallback; reflexivity.
Qed.

Lemma C2_failure_path_witness :
  findSession "s1" (sessions scenarioWorld) = Some scenarioSession
  /\ remoteConnection scenarioSession
     = Some {| host := "h"; username := "u"; password := None; port := None;
               remotePath := "p"; moduleName := Some "m" |}
  /\ sourceExists envRefused = true
  /\ execResult envRefused
     = ExecError "rsync: failed to connect to h (10.0.0.1): Connection refused (111)"
  /\ saveSessionsCallback scenarioWorld = true
  /\ notificationCallback scenarioWorld = true
  /\ syncEndCallback scenarioWorld = true
  /\ snd (syncSession "s1" true envRefused scenarioWorld) = Rejected connectionRefusedMessage
  /\ List.filter isNotify
       (newEvents scenarioWorld (fst (syncSession "s1" true envRefused scenarioWorld)))
     = [Notify "imeSync - Sync Error"
          (errorBody (name scenarioSession) connectionRefusedMessage) NError].
Proof.
  pose proof (C2_failure_path scenarioWorld "s1" scenarioSession
                {| host := "h"; username := "u"; password := None; port := None;
                   remotePath := "p"; moduleName := Some "m" |}
                true envRefused
                "rsync: failed to connect to h (10.0.0.1): Connection refused (111)"
                eq_refl eq_refl eq_refl eq_refl eq_refl eq_refl eq_refl) as H.
  cbv zeta in H.
  destruct H as (H1 & _ & _ & Hc & _ & H6 & _).
  rewrite (Hc eq_refl eq_refl eq_refl) in H1, H6.
  do 7 (split; [reflexivity|]). split; [exact H1 | exact H6].
Defined.


Lemma occurrences_cons_ne (ev x : Event) (l : list Event) :
  x <> ev -> occurrences ev (x :: l) = occurrences ev l.
Proof.
  intros H. unfold occurrences. cbn [List.filter].
  now rewrite bool_decide_eq_false_2.
Qed.

Lemma occurrences_cons_eq (ev : Event) (l : list Event) :
  occurrences ev (ev :: l) = S (occurrences ev l).
Proof.
  unfold occurrences. cbn [List.filter].
  now rewrite bool_decide_eq_true_2.
Qed.

Lemma occurrences_app (ev : Event) (a b : list Event) :
  occurrences ev (a ++ b) = (occurrences ev a + occurrences ev b)%nat.
Proof. unfold occurrences. now rewrite List.filter_app, length_app. Qed.

Lemma occurrences_rsync (ev : Event) (d : list Event) :
  rsyncEvent ev = false -> forallb rsyncEvent d = true -> occurrences ev d = 0%nat.
Proof.
  intros Hev Hd. unfold occurrences. rewrite filter_rsync_none; [reflexivity | | exact Hd].
  intros x Hx. apply bool_decide_eq_false. intros ->. congruence.
Qed.

Lemma occurrences_log (ev : Event) (lc : bool) (t : LogType) (m : string) :
  Console ("[" +:+ levelUpper t +:+ "] " +:+ m) <> ev -> Log t m <> ev ->
  occurrences ev (logEvents lc t m) = 0%nat.
Proof.
  intros H1 H2. unfold logEvents. rewrite occurrences_cons_ne by exact H1.
  destruct lc; [|reflexivity]. now rewrite occurrences_cons_ne.
Qed.

Lemma occurrences_prologue (ev : Event) (w : World) (sessionId : string)
    (session : SessionConfig) (lc : bool) :
  (forall m, Console ("[" +:+ levelUpper LInfo +:+ "] " +:+ m) <> ev) ->
  (forall m, Log LInfo m <> ev) -> SyncStart sessionId <> ev ->
  occurrences ev (prologue w sessionId session lc) = 0%nat.
Proof.
  intros H1 H2 H3. unfold prologue.
  rewrite !occurrences_app, !occurrences_log by auto.
  destruct (syncStartCallback w); [|reflexivity].
  now rewrite occurrences_cons_ne.
Qed.

(** C10. When the subprocess succeeds and the persistence callback then
    throws, [syncSession] still resolves: the session is recorded as a
    success with no error; the success line goes out exactly once (to
    the console, and to the log callback when there is one); the
    end-sync notification goes out exactly once; the persistence failure
    appears only as one warning line; there is no error notification and
    nothing is raised to the caller. *)
Theorem C10_save_failure_after_success (w : World) (sessionId : string)
    (session : SessionConfig) (rc : RemoteConnection) (logCallback : bool) (e : SyncEnv)
    (stdout stderr err : string) :
  findSession sessionId (sessions w) = Some session ->
  remoteConnection session = Some rc ->
  sourceExists e = true ->
  execResult e = ExecOk stdout stderr ->
  saveSessionsCallback w = true ->
  saveError e = Some err ->
  syncEndCallback w = true ->
  let w' := fst (syncSession sessionId logCallback e w) in
  snd (syncSession sessionId logCallback e w) = Resolved
  /\ (exists s', findSession sessionId (sessions w') = Some s'
                 /\ lastSync s' = Some (nowISO e)
                 /\ lastSyncStatus s' = Some StatusSuccess
                 /\ lastSyncError s' = None)
  /\ occurrences (Console ("[SUCCESS] Sync completed for session: " +:+ name session))
       (newEvents w w') = 1%nat
  /\ occurrences (Log LSuccess ("Sync completed for session: " +:+ name session))
       (newEvents w w') = (if logCallback then 1%nat else 0%nat)
  /\ List.filter isSyncEnd (newEvents w w') = [SyncEnd sessionId]
  /\ occurrences (Console ("[WARNING] Failed to save session data after sync: " +:+ err))
       (newEvents w w') = 1%nat
  /\ List.filter isSave (newEvents w w') = [Save (sessions w')]
  /\ List.filter isNotify (newEvents w w') = [].
Proof.
  intros Hf Hrc Hsrc Hexec Hsave Herr Hend w'.
  assert (Ho : rsyncOutcome session e = Resolved).
  { unfold rsyncOutcome. now rewrite Hsrc, Hrc, Hexec. }
  destruct (syncSession_form sessionId session logCallback e w Hf) as (d & Hd & _ & Heq).
  rewrite Ho in Heq. subst w'. rewrite Heq. cbn [fst snd].
  rewrite newEvents_emit_sessions.
  change (sessions (emit _ (set_sessions ?S w))) with S.
  split; [reflexivity|]. split.
  { eexists. split; [apply findSession_mutate; [reflexivity | exact Hf]|].
    repeat split. }
  assert (Hq : forall p, (forall l, p (Console l) = false) ->
                         (forall t x, p (Log t x) = false) ->
                         (forall x, p (SyncStart x) = false) ->
                         (forall c x, p (Exec c x) = false) ->
                         forall ep,
                         List.filter p (prologue w sessionId session logCallback ++ d ++ ep)
                         = List.filter p ep).
  { intros p Hc Hl Hs Hx ep.
    rewrite !List.filter_app, filter_prologue by assumption.
    rewrite (filter_rsync_none p d); [reflexivity | | exact Hd].
    intros [] Hev; try discriminate; auto. }
  assert (Hocc : forall ev,
             rsyncEvent ev = false ->
             occurrences ev (prologue w sessionId session logCallback) = 0%nat ->
             forall ep,
             occurrences ev (prologue w sessionId session logCallback ++ d ++ ep)
             = occurrences ev ep).
  { intros ev Hev Hp ep. rewrite !occurrences_app, Hp, (occurrences_rsync ev d Hev Hd).
    reflexivity. }
  unfold epilogue, saveEvents. rewrite Hsave, Herr, Hend.
  split.
  { rewrite Hocc; [| reflexivity | apply occurrences_prologue; intros; discriminate].
    rewrite !occurrences_app. unfold logEvents.
    destruct logCallback;
      repeat (rewrite occurrences_cons_ne by discriminate);
      rewrite occurrences_cons_eq;
      repeat (rewrite occurrences_cons_ne by discriminate); reflexivity. }
  split.
  { rewrite Hocc; [| reflexivity | apply occurrences_prologue; intros; discriminate].
    rewrite !occurrences_app. unfold logEvents.
    destruct logCallback;
      repeat (rewrite occurrences_cons_ne by discriminate);
      rewrite ?occurrences_cons_eq;
      repeat (rewrite occurrences_cons_ne by discriminate); reflexivity. }
  split.
  { rewrite Hq by reflexivity. destruct logCallback; reflexivity. }
  split.
  { rewrite Hocc; [| reflexivity | apply occurrences_prologue; intros; discriminate].
    rewrite !occurrences_app. unfold logEvents.
    destruct logCallback;
      repeat (rewrite occurrences_cons_ne by discriminate);
      rewrite occurrences_cons_eq;
      repeat (rewrite occurrences_cons_ne by discriminate); reflexivity. }
  split.
  { rewrite Hq by reflexivity. destruct logCallback; reflexivity. }
  rewrite Hq by reflexivity. destruct logCallback; reflexivity.
Qed.

Lemma C10_save_failure_after_success_witness :
  findSession "s1" (sessions scenarioWorld) = Some scenarioSession
  /\ remoteConnection scenarioSession
     = Some {| host := "h"; username := "u"; password := None; port := None;
               remotePath := "p"; moduleName := Some "m" |}
  /\ sourceExists envSaveFails = true
  /\ execResult envSaveFails = ExecOk EmptyString EmptyString
  /\ saveSessionsCallback scenarioWorld = true
  /\ saveError envSaveFails = Some "Error: EACCES"
  /\ syncEndCallback scenarioWorld = true
  /\ snd (syncSession "s1" true envSaveFails scenarioWorld) = Resolved
  /\ List.filter isSyncEnd
       (newEvents scenarioWorld (fst (syncSession "s1" true envSaveFails scenarioWorld)))
     = [SyncEnd "s1"].
Proof.
  pose proof (C10_save_failure_after_success scenarioWorld "s1" scenarioSession
                {| host := "h"; username := "u"; password := None; port := None;
                   remotePath := "p"; moduleName := Some "m" |}
                true envSaveFails EmptyString EmptyString "Error: EACCES"
                eq_refl eq_refl eq_refl eq_refl eq_refl eq_refl eq_refl) as H.
  cbv zeta in H.
  destruct H as (H1 & _ & _ & _ & H5 & _).
  do 7 (split; [reflexivity|]). split; [exact H1 | exact H5].
Defined.


(** *** Traces only grow *)

Lemma grows_refl (w : World) : grows w w.
Proof. exists []. now rewrite app_nil_r. Qed.

Lemma grows_trans (a b c : World) : grows a b -> grows b c -> grows a c.
Proof.
  intros [d1 H1] [d2 H2]. exists (d1 ++ d2).
  now rewrite H2, H1, map_app, app_assoc.
Qed.

Lemma grows_console (line : string) (w : World) : grows w (console line w).
Proof. now exists [line]. Qed.

Lemma grows_same (w w' : World) : trace w' = trace w -> grows w w'.
Proof. intros H. exists []. now rewrite app_nil_r. Qed.

Lemma grows_fold_left {A} (f : World -> A -> World) (l : list A) (w : World) :
  (forall w x, grows w (f w x)) -> grows w (fold_left f l w).
Proof.
  intros Hf. revert w. induction l as [|x l IH]; intros w; [apply grows_refl|].
  simpl. eapply grows_trans; [apply Hf | apply IH].
Qed.

Lemma trace_foldr_clearTimer (l : list nat) (w : World) :
  trace (foldr clearTimer w l) = trace w.
Proof. induction l as [|h l IH]; [reflexivity | exact IH]. Qed.

Lemma trace_foldr_closeWatcher (l : list nat) (w : World) :
  trace (foldr closeWatcher w l) = trace w.
Proof. induction l as [|h l IH]; [reflexivity | exact IH]. Qed.

Lemma trace_stop (w : World) : trace (stop w) = trace w.
Proof.
  unfold stop. cbv zeta.
  match goal with
  | |- trace (match ?n with _ => _ end) = _ => destruct n
  end; cbn [trace set_networkWatcher clearTimer set_liveTimers set_fileWatchers];
    rewrite trace_foldr_closeWatcher; cbn [trace set_timers];
    apply trace_foldr_clearTimer.
Qed.

Lemma grows_watchOne (session : SessionConfig) (trigger : FileChangeTrigger)
    (watchOk : string -> bool) (acc : list nat * World) (path : string) :
  grows (snd acc) (snd (watchOne session trigger watchOk acc path)).
Proof.
  destruct acc as [ws w]. unfold watchOne.
  destruct (watchOk path); simpl; [apply grows_same; reflexivity | apply grows_console].
Qed.

Lemma grows_setupTrigger (session : SessionConfig) (watchOk : string -> bool)
    (w : World) (trigger : Trigger) :
  grows w (setupTrigger session watchOk w trigger).
Proof.
  destruct trigger as [t|t|t|t|t]; simpl.
  - unfold setupWiFiTrigger. destruct (networkWatcher w); [apply grows_refl|].
    apply grows_same. reflexivity.
  - unfold setupScheduleTrigger. destruct (JS.truthy (time t)); [|apply grows_refl].
    apply grows_same. reflexivity.
  - unfold setupFileChangeTrigger.
    assert (H : forall l acc, grows (snd acc)
                                (snd (fold_left (watchOne session t watchOk) l acc))).
    { induction l as [|p l IH]; intros acc; [apply grows_refl|].
      simpl. eapply grows_trans; [apply grows_watchOne | apply IH]. }
    specialize (H (watchPaths t) ([], w)).
    destruct (fold_left _ _ _) as [ws w1]. simpl in H.
    eapply grows_trans; [exact H|]. apply grows_same. reflexivity.
  - unfold setupStartupTrigger. destruct (startupTriggersExecuted w); simpl;
      [apply grows_refl | apply grows_same; reflexivity].
  - unfold setupIntervalTrigger. apply grows_same. reflexivity.
Qed.

Lemma grows_start (watchOk : string -> bool) (w : World) : grows w (start watchOk w).
Proof.
  unfold start. cbv zeta.
  eapply grows_trans; [|apply grows_same; reflexivity].
  apply grows_fold_left. intros w0 s. unfold armSession.
  destruct (enabled s); [|apply grows_refl].
  unfold setupTriggers. apply grows_fold_left. intros; apply grows_setupTrigger.
Qed.

Lemma grows_updateSessions (ss : list SessionConfig) (watchOk : string -> bool) (w : World) :
  grows w (updateSessions ss watchOk w).
Proof.
  unfold updateSessions. eapply grows_trans; [|apply grows_start].
  apply grows_same. cbn [trace set_sessions]. apply trace_stop.
Qed.

Lemma newEvents_grows (w w' : World) (d : list Event) :
  trace w' = trace w ++ d -> newEvents w w' = d.
Proof. intros H. unfold newEvents. rewrite H. apply drop_app_length. Qed.


(** *** The pause gate *)

Lemma isPaused_spec (sessionId : string) (session : SessionConfig) (w : World) :
  findSession sessionId (sessions w) = Some session ->
  isPaused sessionId w = globallyPaused w || sessionPaused session.
Proof. intros Hf. unfold isPaused. now rewrite Hf. Qed.

Lemma triggerSync_paused (sessionId : string) (session : SessionConfig) (e : SyncEnv)
    (w : World) :
  findSession sessionId (sessions w) = Some session ->
  isPaused sessionId w = true ->
  exists line, triggerSync sessionId e w = (console line w, Skipped)
               /\ JS.startsWith line "Sync skipped for session " = true.
Proof.
  intros Hf Hp. rewrite (isPaused_spec _ _ _ Hf) in Hp. unfold triggerSync.
  destruct (globallyPaused w).
  - eexists. split; [reflexivity|]. apply startsWith_append.
  - rewrite Hf. simpl in Hp. unfold sessionPaused in Hp. rewrite Hp.
    eexists. split; [reflexivity|]. apply startsWith_append.
Qed.

Lemma triggerSync_running (sessionId : string) (session : SessionConfig) (e : SyncEnv)
    (w : World) :
  findSession sessionId (sessions w) = Some session ->
  isPaused sessionId w = false ->
  triggerSync sessionId e w
  = (fst (syncSession sessionId (logCallbackFactory w) e
            (if logCallbackFactory w then emit [LogFactory sessionId] w else w)),
     Invoked (snd (syncSession sessionId (logCallbackFactory w) e
                     (if logCallbackFactory w then emit [LogFactory sessionId] w else w)))).
Proof.
  intros Hf Hp. rewrite (isPaused_spec _ _ _ Hf) in Hp.
  apply orb_false_iff in Hp as [Hg Hs]. unfold triggerSync. rewrite Hg, Hf.
  unfold sessionPaused in Hs. rewrite Hs.
  destruct (logCallbackFactory w) eqn:E; cbv zeta;
    change (logCallbackFactory (emit [LogFactory sessionId] w)) with (logCallbackFactory w);
    rewrite ?E; destruct (syncSession _ _ _ _); reflexivity.
Qed.

Lemma requestSync_globallyPaused (sessionId : string) (e : SyncEnv) (w : World) :
  globallyPaused w = true ->
  exists line, requestSync sessionId e w = console line w.
Proof.
  intros Hg. unfold requestSync, triggerSync. rewrite Hg. eexists. reflexivity.
Qed.

(** With the global pause on, a timer callback leaves nothing in the
    trace but console lines, and leaves the pause on. *)
Lemma runCallback_globallyPaused (cb : Callback) (fe : FireEnv) (w : World) :
  globallyPaused w = true ->
  grows w (runCallback cb fe w) /\ globallyPaused (runCallback cb fe w) = true.
Proof.
  intros Hg.
  assert (Hreq : forall sid e w0, globallyPaused w0 = true ->
                   grows w0 (requestSync sid e w0)
                   /\ globallyPaused (requestSync sid e w0) = true).
  { intros sid e w0 H0. destruct (requestSync_globallyPaused sid e w0 H0) as [l ->].
    split; [apply grows_console | exact H0]. }
  assert (Hcr : forall l sid e w0, globallyPaused w0 = true ->
                   grows w0 (requestSync sid e (console l w0))
                   /\ globallyPaused (requestSync sid e (console l w0)) = true).
  { intros l sid e w0 H0. destruct (Hreq sid e (console l w0) H0) as [G1 G2].
    split; [|exact G2]. eapply grows_trans; [apply grows_console | exact G1]. }
  destruct cb as [|sid sn t|sid sn k f|sid sn t|sid sn t|]; simpl.
  - split; [apply grows_same; reflexivity | exact Hg].
  - unfold checkSchedule.
    destruct (scheduleTimeMatches t (date fe)); [|split; [apply grows_refl | exact Hg]].
    destruct (scheduleShouldTrigger t (date fe)); [|split; [apply grows_refl | exact Hg]].
    now apply Hcr.
  - destruct (Hcr ("File change trigger: " +:+ JS.dquote +:+ f +:+ JS.dquote
                     +:+ " changed, syncing session " +:+ JS.dquote +:+ sn +:+ JS.dquote)
                sid (syncEnv fe sid) w Hg) as [G1 G2].
    split; [|exact G2]. eapply grows_trans; [exact G1 | apply grows_same; reflexivity].
  - now apply Hcr.
  - unfold executeSync.
    destruct (intervalInWindow t (date fe)); [|split; [apply grows_refl | exact Hg]].
    now apply Hcr.
  - unfold checkNetwork.
    destruct (bool_decide (sampledSSID fe = currentSSID w));
      [split; [apply grows_refl | exact Hg]|].
    cbv zeta.
    assert (Hfold : forall (A : Type) (f : World -> A -> World) (l : list A) (w0 w1 : World),
               (forall a b, grows w0 a -> globallyPaused a = true ->
                            grows w0 (f a b) /\ globallyPaused (f a b) = true) ->
               grows w0 w1 -> globallyPaused w1 = true ->
               grows w0 (fold_left f l w1) /\ globallyPaused (fold_left f l w1) = true).
    { intros A f l w0. induction l as [|x l IH]; intros w1 Hf G1 G2; [now split|].
      simpl. destruct (Hf w1 x G1 G2) as [G3 G4]. now apply IH. }
    apply Hfold; [| apply grows_same; reflexivity | exact Hg].
    intros a s Ga Pa. apply Hfold; [| exact Ga | exact Pa].
    intros b tr Gb Pb. destruct tr as [t| | | |]; simpl; try (now split).
    assert (H1 : grows w
                   (if wifiOnConnect t (sampledSSID fe)
                    then requestSync (id s) (syncEnv fe (id s))
                           (console ("WiFi trigger: Connected to " +:+ JS.dquote
                                       +:+ default "null" (sampledSSID fe) +:+ JS.dquote
                                       +:+ ", syncing session " +:+ JS.dquote +:+ name s
                                       +:+ JS.dquote) b)
                    else b)
                 /\ globallyPaused
                      (if wifiOnConnect t (sampledSSID fe)
                       then requestSync (id s) (syncEnv fe (id s))
                              (console ("WiFi trigger: Connected to " +:+ JS.dquote
                                          +:+ default "null" (sampledSSID fe) +:+ JS.dquote
                                          +:+ ", syncing session " +:+ JS.dquote +:+ name s
                                          +:+ JS.dquote) b)
                       else b) = true).
    { destruct (wifiOnConnect t (sampledSSID fe)); [|now split].
      destruct (Hcr ("WiFi trigger: Connected to " +:+ JS.dquote
                       +:+ default "null" (sampledSSID fe) +:+ JS.dquote
                       +:+ ", syncing session " +:+ JS.dquote +:+ name s +:+ JS.dquote)
                  (id s) (syncEnv fe (id s)) b Pb) as [G1 G2].
      split; [eapply grows_trans; [exact Gb | exact G1] | exact G2]. }
    destruct H1 as [G1 G2].
    destruct (wifiOnDisconnect t (currentSSID w) (sampledSSID fe)); [|now split].
    match goal with
    | |- grows w (requestSync ?i ?e (console ?l ?b0)) /\ _ =>
        destruct (Hcr l i e b0 G2) as [G3 G4]
    end.
    split; [eapply grows_trans; [exact G1 | exact G3] | exact G4].
Qed.

Lemma filter_syncStart_consoles (lines : list string) :
  List.filter isSyncStart (map Console lines) = [].
Proof. induction lines as [|l r IH]; [reflexivity | exact IH]. Qed.

Lemma syncSession_syncStarts (sessionId : string) (session : SessionConfig) (lc : bool)
    (e : SyncEnv) (w : World) :
  findSession sessionId (sessions w) = Some session ->
  syncStartCallback w = true ->
  exists D,
    trace (fst (syncSession sessionId lc e w)) = trace w ++ D
    /\ List.filter isSyncStart D = [SyncStart sessionId]
    /\ snd (syncSession sessionId lc e w) = rsyncOutcome session e.
Proof.
  intros Hf Hs.
  destruct (syncSession_form sessionId session lc e w Hf) as (d & Hd & _ & Heq).
  rewrite Heq. cbn [fst snd]. eexists. split; [reflexivity|]. split; [|reflexivity].
  rewrite !List.filter_app.
  rewrite (filter_rsync_none isSyncStart d); [| | exact Hd].
  2:{ intros [] Hev; try discriminate; auto. }
  unfold prologue. rewrite Hs, !List.filter_app, !filter_log_none by reflexivity.
  unfold epilogue, saveEvents.
  destruct (rsyncOutcome session e), (saveSessionsCallback w), (saveError e),
    (notificationCallback w), (notifyError e), (syncEndCallback w), lc; reflexivity.
Qed.




(** *** Schedule triggers *)

Lemma scheduleTimeMatches_spec (t : ScheduleTrigger) (now : Date) :
  scheduleTimeMatches t now = true
  <-> timeOfDay (time t) = (Some (getHours now), Some (getMinutes now)).
Proof.
  unfold scheduleTimeMatches. destruct (timeOfDay (time t)) as [h m].
  rewrite andb_true_iff, !bool_decide_eq_true. split.
  - intros [-> ->]. reflexivity.
  - intros [= -> ->]. split; reflexivity.
Qed.

Lemma scheduleShouldTrigger_spec (t : ScheduleTrigger) (now : Date) :
  scheduleShouldTrigger t now = true
  <-> "daily" ∈ days t
      \/ (exists d, dayNames !! getDay now = Some d /\ d ∈ days t)
      \/ length (days t) = 7%nat.
Proof.
  unfold scheduleShouldTrigger, includesStr. cbv zeta.
  rewrite !orb_true_iff, !bool_decide_eq_true. split.
  - intros [[H|H]|H]; [now left | right; left | now right; right].
    destruct (dayNames !! getDay now) as [d|]; [|discriminate].
    apply bool_decide_eq_true in H. now exists d.
  - intros [H|[(d & Hd & Hin)|H]]; [now left; left | left; right | now right].
    rewrite Hd. now apply bool_decide_eq_true.
Qed.


Lemma requestSync_trace (sessionId : string) (e : SyncEnv) (w : World) :
  exists d, trace (requestSync sessionId e w) = trace w ++ d.
Proof.
  unfold requestSync, triggerSync.
  destruct (globallyPaused w); [eexists; reflexivity|].
  set (w0 := if logCallbackFactory w then emit [LogFactory sessionId] w else w).
  assert (Ht : exists p, trace w0 = trace w ++ p).
  { subst w0. destruct (logCallbackFactory w); [eexists; reflexivity|].
    exists []. now rewrite app_nil_r. }
  assert (Hs : sessions w0 = sessions w).
  { subst w0. now destruct (logCallbackFactory w). }
  destruct Ht as [p Hp].
  assert (Hrun : exists d,
             trace (let '(w1, o) := syncSession sessionId (logCallbackFactory w0) e w0 in
                    match o with
                    | Rejected m => console (JS.errorToString m) w1
                    | Resolved => w1
                    end) = trace w ++ d).
  { destruct (findSession sessionId (sessions w0)) as [session|] eqn:Hf.
    - destruct (syncSession_form sessionId session (logCallbackFactory w0) e w0 Hf)
        as (d & _ & _ & Heq).
      rewrite Heq. destruct (rsyncOutcome session e); eexists;
        cbn [trace console emit set_trace set_sessions]; rewrite Hp, <- ?app_assoc;
        reflexivity.
    - unfold syncSession. rewrite Hf. eexists.
      cbn [trace console emit set_trace]. rewrite Hp, <- app_assoc. reflexivity. }
  destruct (findSession sessionId (sessions w)) as [session|] eqn:Hf.
  - destruct (bool_decide (paused session = Some true)); [eexists; reflexivity|].
    fold w0. destruct Hrun as [d Hd]. exists d. rewrite <- Hd.
    destruct (syncSession _ _ _ _) as [w1 [|m]]; reflexivity.
  - fold w0. destruct Hrun as [d Hd]. exists d. rewrite <- Hd.
    destruct (syncSession _ _ _ _) as [w1 [|m]]; reflexivity.
Qed.

Lemma dayName_monday (d : nat) :
  (d < 7)%nat ->
  (exists n, dayNames !! d = Some n /\ n ∈ ["monday"]) <-> d = 1%nat.
Proof.
  intros Hd. split.
  - intros (n & Hn & Hin). apply list_elem_of_singleton in Hin. subst n.
    do 7 (destruct d as [|d]; [try reflexivity; discriminate|]). lia.
  - intros ->. exists "monday". split; [reflexivity|]. now apply list_elem_of_singleton.
Qed.



(** *** Interval triggers *)

Lemma ltb_leb (a b : string) : JS.ltb a b = negb (String.leb b a).
Proof.
  unfold JS.ltb, String.leb. rewrite (String.compare_antisym a b).
  destruct (String.compare b a); reflexivity.
Qed.

Lemma intervalInWindow_spec (t : IntervalTrigger) (st en : string) (now : Date) :
  startTime t = Some st -> endTime t = Some en ->
  JS.truthy st = true -> JS.truthy en = true ->
  intervalInWindow t now = true
  <-> String.leb st (currentTime now) = true /\ String.leb (currentTime now) en = true.
Proof.
  intros Hs He Ts Te. unfold intervalInWindow, JS.gtb. rewrite Hs, He, Ts, Te.
  cbn [andb]. rewrite !ltb_leb, negb_orb, !negb_involutive. apply andb_true_iff.
Qed.





(** *** What [stop] leaves behind *)

(** C4 fails on the code. A Startup trigger's timer is not recorded in
    [timers]: after [start] and [stop] it is still live and, once due,
    runs and starts a sync. With two Schedule triggers in one session both
    timers go under the key [a-schedule]: the second replaces the first in
    [timers], [stop] cancels only the second, and the first keeps
    running. The timer of the latch of [start] is not recorded either. *)
Theorem C4_stop_leaves_timers :
  (liveTimers (stop (boot [startupSession])) !! 0%nat
   = Some {| callback := StartupFire "a" "a" {| delayMs := 5000 |}; delay := 5000;
             repeating := false; due := 5000 |}
   /\ liveTimers (stop (boot [startupSession])) !! 1%nat
      = Some {| callback := MarkStartupExecuted; delay := 1000;
                repeating := false; due := 1000 |}
   /\ List.filter isSyncStart
        (trace (run (boot [startupSession])
                  [CallStop; Elapse 5000; TimerFires 0 (fireEnv (at_ 1 9 0) None)]))
      = [SyncStart "a"])
  /\ (timers (boot [twoSchedules]) = {[ "a-schedule" := 1%nat ]}
      /\ liveTimers (stop (boot [twoSchedules])) !! 0%nat
         = Some {| callback := CheckSchedule "a" "a" {| time := "09:00"; days := ["daily"] |};
                   delay := 60000; repeating := true; due := 60000 |}
      /\ liveTimers (stop (boot [twoSchedules])) !! 1%nat = None
      /\ List.filter isSyncStart
           (trace (run (boot [twoSchedules])
                     [CallStop; Elapse 60000; TimerFires 0 (fireEnv (at_ 1 9 0) None)]))
         = [SyncStart "a"]).
Proof. vm_compute. repeat split. Qed.

(** *** Disabled sessions and the network poll *)

(** C9 fails on the code. [checkNetwork] goes through all sessions,
    enabled or not: once an enabled session has started the polling loop,
    the WiFi trigger of a disabled session requests a sync when its
    network appears, and the sync runs. Here the session [b] is disabled;
    the first check, made when the loop starts, finds the network [Home]
    (or a later poll does, after [Office]) and starts a sync of [b]. *)
Theorem C9_disabled_wifi_fires :
  enabled disabledHomeWifi = false
  /\ networkWatcher (boot [officeWifi; disabledHomeWifi]) = Some 1%nat
  /\ List.filter isSyncStart
       (trace (run (boot [officeWifi; disabledHomeWifi])
                 [TimerFires 0 (fireEnv (at_ 1 9 0) (Some "Home"))]))
     = [SyncStart "b"]
  /\ lastSyncStatus
       <$> findSession "b"
             (sessions (run (boot [officeWifi; disabledHomeWifi])
                          [TimerFires 0 (fireEnv (at_ 1 9 0) (Some "Home"))]))
     = Some (Some StatusSuccess)
  /\ List.filter isSyncStart
       (trace (run (boot [officeWifi; disabledHomeWifi])
                 [TimerFires 0 (fireEnv (at_ 1 9 0) (Some "Office"));
                  Elapse 10000;
                  TimerFires 1 (fireEnv (at_ 1 9 0) (Some "Home"))]))
     = [SyncStart "a"; SyncStart "b"].
Proof. vm_compute. repeat split. Qed.


(** *** The engine under operations that leave the timers alone *)

Lemma sameEngine_refl (w : World) : sameEngine w w.
Proof. repeat split. Qed.

Lemma sameEngine_trans (a b c : World) : sameEngine a b -> sameEngine b c -> sameEngine a c.
Proof.
  intros (A1 & A2 & A3 & A4 & A5 & A6) (B1 & B2 & B3 & B4 & B5 & B6).
  repeat split; congruence.
Qed.

Lemma startupHandles_app (a b : list Event) :
  startupHandles (a ++ b) = startupHandles a ++ startupHandles b.
Proof. unfold startupHandles. apply omap_app. Qed.

Lemma startupHandles_quiet (d : list Event) :
  List.filter isRan d = [] -> startupHandles d = [].
Proof.
  induction d as [|ev d IH]; [reflexivity|].
  cbn [List.filter]. destruct ev; cbn [isRan]; try exact IH. discriminate.
Qed.

Lemma sameEngine_emit_sessions (d : list Event) (S : list SessionConfig) (w : World) :
  List.filter isRan d = [] -> sameEngine w (emit d (set_sessions S w)).
Proof.
  intros Hd. repeat split. cbn [trace emit set_trace set_sessions].
  now rewrite startupHandles_app, (startupHandles_quiet d Hd), app_nil_r.
Qed.

Lemma sameEngine_emit (d : list Event) (w : World) :
  List.filter isRan d = [] -> sameEngine w (emit d w).
Proof.
  intros Hd. repeat split. cbn [trace emit set_trace].
  now rewrite startupHandles_app, (startupHandles_quiet d Hd), app_nil_r.
Qed.

Lemma sameEngine_console (line : string) (w : World) : sameEngine w (console line w).
Proof. now apply sameEngine_emit. Qed.

Lemma filter_isRan_rsync (d : list Event) :
  forallb rsyncEvent d = true -> List.filter isRan d = [].
Proof.
  apply filter_rsync_none. intros [] Hev; try discriminate; reflexivity.
Qed.

Lemma sameEngine_syncSession (sessionId : string) (lc : bool) (e : SyncEnv) (w : World) :
  sameEngine w (fst (syncSession sessionId lc e w)).
Proof.
  destruct (findSession sessionId (sessions w)) as [session|] eqn:Hf.
  - destruct (syncSession_form sessionId session lc e w Hf) as (d & Hd & _ & Heq).
    rewrite Heq. cbn [fst]. apply sameEngine_emit_sessions.
    rewrite !List.filter_app, (filter_isRan_rsync d Hd).
    rewrite filter_prologue by reflexivity.
    unfold epilogue, saveEvents.
    destruct (rsyncOutcome session e), (saveSessionsCallback w), (saveError e),
      (notificationCallback w), (notifyError e), (syncEndCallback w), lc; reflexivity.
  - unfold syncSession. rewrite Hf. apply sameEngine_refl.
Qed.

Lemma sameEngine_requestSync (sessionId : string) (e : SyncEnv) (w : World) :
  sameEngine w (requestSync sessionId e w).
Proof.
  unfold requestSync, triggerSync.
  destruct (globallyPaused w); [apply sameEngine_console|].
  set (w0 := if logCallbackFactory w then emit [LogFactory sessionId] w else w).
  assert (H0 : sameEngine w w0).
  { subst w0. destruct (logCallbackFactory w);
      [now apply sameEngine_emit | apply sameEngine_refl]. }
  assert (Hrun : sameEngine w
                   (let '(w1, o) := syncSession sessionId (logCallbackFactory w0) e w0 in
                    match o with
                    | Rejected m => console (JS.errorToString m) w1
                    | Resolved => w1
                    end)).
  { pose proof (sameEngine_syncSession sessionId (logCallbackFactory w0) e w0) as H1.
    destruct (syncSession _ _ _ _) as [w1 [|m]]; cbn [fst] in H1.
    - eapply sameEngine_trans; eassumption.
    - eapply sameEngine_trans; [|apply sameEngine_console].
      eapply sameEngine_trans; eassumption. }
  destruct (findSession sessionId (sessions w)) as [session|].
  - destruct (bool_decide (paused session = Some true)); [apply sameEngine_console|].
    fold w0. destruct (syncSession _ _ _ _) as [w1 [|m]]; exact Hrun.
  - fold w0. destruct (syncSession _ _ _ _) as [w1 [|m]]; exact Hrun.
Qed.

Lemma sameEngine_fold_left {A} (f : World -> A -> World) (l : list A) (w : World) :
  (forall w0 x, sameEngine w0 (f w0 x)) -> sameEngine w (fold_left f l w).
Proof.
  intros Hf. revert w. induction l as [|x l IH]; intros w; [apply sameEngine_refl|].
  simpl. eapply sameEngine_trans; [apply Hf | apply IH].
Qed.

Lemma sameEngine_checkWiFiTrigger (sid sn : string) (prev cur : option string)
    (fe : FireEnv) (w : World) (trigger : Trigger) :
  sameEngine w (checkWiFiTrigger sid sn prev cur fe w trigger).
Proof.
  destruct trigger as [t| | | |]; try apply sameEngine_refl. cbn [checkWiFiTrigger].
  set (w1 := if wifiOnConnect t cur then _ else w).
  assert (H1 : sameEngine w w1).
  { subst w1. destruct (wifiOnConnect t cur); [|apply sameEngine_refl].
    eapply sameEngine_trans; [apply sameEngine_console | apply sameEngine_requestSync]. }
  destruct (wifiOnDisconnect t prev cur); [|exact H1].
  eapply sameEngine_trans; [exact H1|].
  eapply sameEngine_trans; [apply sameEngine_console | apply sameEngine_requestSync].
Qed.

Lemma sameEngine_checkNetwork (fe : FireEnv) (w : World) :
  sameEngine w (checkNetwork fe w).
Proof.
  unfold checkNetwork.
  destruct (bool_decide (sampledSSID fe = currentSSID w)); [apply sameEngine_refl|].
  cbv zeta. eapply sameEngine_trans; [|apply sameEngine_fold_left].
  - repeat split.
  - intros w0 s. apply sameEngine_fold_left. intros w1 t.
    apply sameEngine_checkWiFiTrigger.
Qed.

Lemma sameEngine_set_sessions (S : list SessionConfig) (w : World) :
  sameEngine w (set_sessions S w).
Proof. repeat split. Qed.

Lemma sameEngine_setSessionPaused (b : bool) (word sessionId : string)
    (saveErr : option string) (w : World) :
  sameEngine w (setSessionPaused b word sessionId saveErr w).
Proof.
  unfold setSessionPaused.
  destruct (findSession sessionId (sessions w)) as [session|]; [|apply sameEngine_refl].
  cbv zeta.
  match goal with
  | |- sameEngine w (if saveSessionsCallback ?W then _ else _) =>
      assert (H1 : sameEngine w W);
      [eapply sameEngine_trans; [apply sameEngine_set_sessions | apply sameEngine_console]|];
      destruct (saveSessionsCallback W); [|exact H1]
  end.
  eapply sameEngine_trans; [exact H1|].
  destruct saveErr.
  - eapply sameEngine_trans; [|apply sameEngine_console]. now apply sameEngine_emit.
  - now apply sameEngine_emit.
Qed.

Lemma wellFormed_sameEngine (w w' : World) :
  sameEngine w w' -> wellFormed w -> wellFormed w'.
Proof.
  intros (E1 & E2 & E3 & E4 & E5 & E6) [I1 I2 I3 I4].
  split; rewrite ?E1, ?E2, ?E3, ?E4; assumption.
Qed.

Lemma noStartupArmed_sameEngine (w w' : World) : sameEngine w w' -> noStartupArmed w w'.
Proof.
  intros (E1 & E2 & E3 & E4 & E5 & E6). unfold noStartupArmed.
  rewrite E1, E5, E6. auto.
Qed.

Lemma noStartupArmed_refl (w : World) : noStartupArmed w w.
Proof. apply noStartupArmed_sameEngine, sameEngine_refl. Qed.

Lemma noStartupArmed_trans (a b c : World) :
  noStartupArmed a b -> noStartupArmed b c -> noStartupArmed a c.
Proof.
  intros (A1 & A2 & A3) (B1 & B2 & B3). split; [|split].
  - intros Ha h t Hl Hs. apply (A1 Ha), Hs. apply (B1 (A2 Ha)); assumption.
  - auto.
  - congruence.
Qed.


(** *** The engine under operations on timers *)

Lemma engineStep_refl (w : World) : engineStep w w.
Proof. split; [auto | apply noStartupArmed_refl]. Qed.

Lemma engineStep_trans (a b c : World) : engineStep a b -> engineStep b c -> engineStep a c.
Proof.
  intros [A1 A2] [B1 B2]. split; [auto | eapply noStartupArmed_trans; eassumption].
Qed.

Lemma engineStep_sameEngine (w w' : World) : sameEngine w w' -> engineStep w w'.
Proof.
  intros H. split; [now apply wellFormed_sameEngine | now apply noStartupArmed_sameEngine].
Qed.

Lemma engineStep_fold_left {A} (f : World -> A -> World) (l : list A) (w : World) :
  (forall w0 x, engineStep w0 (f w0 x)) -> engineStep w (fold_left f l w).
Proof.
  intros Hf. revert w. induction l as [|x l IH]; intros w; [apply engineStep_refl|].
  simpl. eapply engineStep_trans; [apply Hf | apply IH].
Qed.

(** A new timer that is neither a polling loop nor, behind the latch, a
    startup timer. *)
Lemma engineStep_setTimer (cb : Callback) (d : Z) (rep : bool) (w : World) :
  (isStartupFire cb = true -> rep = false /\ startupTriggersExecuted w = false) ->
  (cb = CheckNetwork -> rep = false) ->
  engineStep w (snd (setTimer cb d rep w)).
Proof.
  intros Hs Hc. unfold setTimer. cbn [snd]. split.
  - intros [I1 I2 I3 I4]. split;
      cbn [liveTimers timers networkWatcher nextHandle set_nextHandle set_liveTimers].
    + intros h t Hl Hst. apply lookup_insert_Some in Hl as [[<- <-]|[Hne Hl]].
      * now apply Hs.
      * now apply (I1 h t).
    + intros h t Hl Hcb Hrep. apply lookup_insert_Some in Hl as [[<- <-]|[Hne Hl]].
      * cbn in Hcb, Hrep. rewrite (Hc Hcb) in Hrep. discriminate.
      * now apply (I2 h t).
    + intros h Hn. destruct (I3 h Hn) as [Hlt [d0 Hl]]. split; [lia|].
      exists d0. rewrite lookup_insert_ne by lia. exact Hl.
    + intros k h Hk. destruct (I4 k h Hk) as [Hlt Hne]. split; [lia | exact Hne].
  - split; [|split]; cbn [liveTimers startupTriggersExecuted trace set_nextHandle
                          set_liveTimers]; [|auto|reflexivity].
    intros Hlatch h t Hl Hst. apply lookup_insert_Some in Hl as [[<- <-]|[Hne Hl]].
    + destruct (Hs Hst) as [_ Hf]. congruence.
    + exact Hl.
Qed.

(** Recording in [timers] the handle of a timer just made. *)
Lemma engineStep_record (k : string) (h : nat) (w : World) :
  (h < nextHandle w)%nat -> networkWatcher w <> Some h ->
  engineStep w (set_timers (<[k := h]> (timers w)) w).
Proof.
  intros Hlt Hne. split.
  - intros [I1 I2 I3 I4]. split; cbn [liveTimers timers networkWatcher nextHandle set_timers];
      try assumption.
    intros k' h' Hk. apply lookup_insert_Some in Hk as [[<- <-]|[_ Hk]].
    + now split.
    + now apply (I4 k').
  - split; [|split]; cbn [liveTimers startupTriggersExecuted trace set_timers]; auto.
Qed.

Lemma engineStep_forget (k : string) (w : World) :
  engineStep w (set_timers (delete k (timers w)) w).
Proof.
  split.
  - intros [I1 I2 I3 I4]. split; cbn [liveTimers timers networkWatcher nextHandle set_timers];
      try assumption.
    intros k' h' Hk. apply lookup_delete_Some in Hk as [_ Hk]. now apply (I4 k').
  - split; [|split]; cbn [liveTimers startupTriggersExecuted trace set_timers]; auto.
Qed.

(** Cancelling a timer that is not the polling timer. *)
Lemma engineStep_clearTimer (h : nat) (w : World) :
  networkWatcher w <> Some h -> engineStep w (clearTimer h w).
Proof.
  intros Hne. unfold clearTimer. split.
  - intros [I1 I2 I3 I4]. split;
      cbn [liveTimers timers networkWatcher nextHandle set_liveTimers]; try assumption.
    + intros h' t Hl. apply lookup_delete_Some in Hl as [_ Hl]. now apply (I1 h' t).
    + intros h' t Hl. apply lookup_delete_Some in Hl as [_ Hl]. now apply (I2 h' t).
    + intros h' Hn. destruct (I3 h' Hn) as [Hlt [d0 Hl]]. split; [exact Hlt|].
      exists d0. rewrite lookup_delete_ne by congruence. exact Hl.
  - split; [|split]; cbn [liveTimers startupTriggersExecuted trace set_liveTimers];
      [|auto|reflexivity].
    intros _ h' t Hl _. now apply lookup_delete_Some in Hl as [_ Hl].
Qed.

Lemma setTimer_handle (cb : Callback) (d : Z) (rep : bool) (w : World) :
  fst (setTimer cb d rep w) = nextHandle w
  /\ nextHandle (snd (setTimer cb d rep w)) = S (nextHandle w)
  /\ networkWatcher (snd (setTimer cb d rep w)) = networkWatcher w
  /\ timers (snd (setTimer cb d rep w)) = timers w.
Proof. repeat split. Qed.

(** Arming a timer and recording it under a key, as the schedule and
    interval triggers do. *)
Lemma engineStep_arm_recorded (cb : Callback) (d : Z) (rep : bool) (k : string) (w : World) :
  isStartupFire cb = false -> cb <> CheckNetwork ->
  engineStep w
    (let '(timer, w1) := setTimer cb d rep w in
     set_timers (<[k := timer]> (timers w1)) w1).
Proof.
  intros Hs Hc.
  pose proof (engineStep_setTimer cb d rep w) as H1.
  destruct (setTimer_handle cb d rep w) as (Hh & Hn & Hnw & _).
  destruct (setTimer cb d rep w) as [timer w1]. cbn [fst snd] in *.
  split.
  - intros Hw.
    assert (Hw1 : wellFormed w1) by (apply H1; [congruence | congruence | exact Hw]).
    apply (engineStep_record k timer w1); [lia | | exact Hw1].
    rewrite Hnw. intros Heq. destruct (polling_live w Hw timer Heq) as [Hlt _]. lia.
  - eapply noStartupArmed_trans; [apply H1; congruence|].
    split; [|split]; cbn [liveTimers startupTriggersExecuted trace set_timers]; auto.
Qed.

Lemma engineStep_setupScheduleTrigger (session : SessionConfig) (t : ScheduleTrigger)
    (w : World) :
  engineStep w (setupScheduleTrigger session t w).
Proof.
  unfold setupScheduleTrigger. destruct (JS.truthy (time t)); [|apply engineStep_refl].
  now apply (engineStep_arm_recorded (CheckSchedule (id session) (name session) t)
               60000 true).
Qed.

Lemma engineStep_setupIntervalTrigger (session : SessionConfig) (t : IntervalTrigger)
    (w : World) :
  engineStep w (setupIntervalTrigger session t w).
Proof.
  unfold setupIntervalTrigger. cbv zeta.
  now apply (engineStep_arm_recorded (ExecuteSync (id session) (name session) t)
               (intervalMinutes t * 60 * 1000) true).
Qed.

Lemma engineStep_setupStartupTrigger (session : SessionConfig) (t : StartupTrigger)
    (w : World) :
  engineStep w (setupStartupTrigger session t w).
Proof.
  unfold setupStartupTrigger.
  destruct (startupTriggersExecuted w) eqn:E; cbn [negb]; [apply engineStep_refl|].
  apply engineStep_setTimer; [auto | discriminate].
Qed.


Lemma engineStep_startNetworkMonitoring (w : World) :
  networkWatcher w = None -> engineStep w (startNetworkMonitoring w).
Proof.
  intros Hn. unfold startNetworkMonitoring, setTimeout, setInterval, setTimer.
  cbn [nextHandle clock liveTimers set_nextHandle set_liveTimers].
  split.
  - intros [I1 I2 I3 I4]. split;
      cbn [liveTimers timers networkWatcher nextHandle set_networkWatcher set_nextHandle
           set_liveTimers].
    + intros h t Hl Hst.
      apply lookup_insert_Some in Hl as [[E1 E2]|[_ Hl]]; [subst; discriminate|].
      apply lookup_insert_Some in Hl as [[E1 E2]|[_ Hl]]; [subst; reflexivity|].
      now apply (I1 h t).
    + intros h t Hl Hcb Hrep.
      apply lookup_insert_Some in Hl as [[E1 E2]|[_ Hl]]; [subst; reflexivity|].
      apply lookup_insert_Some in Hl as [[E1 E2]|[_ Hl]]; [subst; discriminate|].
      pose proof (I2 h t Hl Hcb Hrep). congruence.
    + intros h [= Hh]. subst h. split; [lia|]. eexists. apply lookup_insert_eq.
    + intros k h Hk. destruct (I4 k h Hk) as [Hlt _]. split; [lia|].
      intros [= Hh]. lia.
  - split; [|split];
      cbn [liveTimers startupTriggersExecuted trace set_networkWatcher set_nextHandle
           set_liveTimers]; [|auto|reflexivity].
    intros _ h t Hl Hst.
    apply lookup_insert_Some in Hl as [[E1 E2]|[_ Hl]]; [subst; discriminate|].
    apply lookup_insert_Some in Hl as [[E1 E2]|[_ Hl]]; [subst; discriminate|].
    exact Hl.
Qed.

Lemma engineStep_setupWiFiTrigger (session : SessionConfig) (t : WiFiTrigger) (w : World) :
  engineStep w (setupWiFiTrigger session t w).
Proof.
  unfold setupWiFiTrigger. destruct (networkWatcher w) eqn:E; [apply engineStep_refl|].
  now apply engineStep_startNetworkMonitoring.
Qed.

(** Opening watchers takes handles and touches no timer. *)
Lemma engineStep_later (w w' : World) :
  liveTimers w' = liveTimers w -> timers w' = timers w ->
  networkWatcher w' = networkWatcher w -> (nextHandle w <= nextHandle w')%nat ->
  startupTriggersExecuted w' = startupTriggersExecuted w ->
  startupHandles (trace w') = startupHandles (trace w) ->
  engineStep w w'.
Proof.
  intros E1 E2 E3 E4 E5 E6. split.
  - intros [I1 I2 I3 I4]. split; rewrite ?E1, ?E2, ?E3; try assumption.
    + intros h Hn. destruct (I3 h Hn) as [Hlt Hl]. split; [lia | exact Hl].
    + intros k h Hk. destruct (I4 k h Hk) as [Hlt Hne]. split; [lia | exact Hne].
  - unfold noStartupArmed. rewrite E1, E5, E6. auto.
Qed.

Lemma engineStep_watchOne (session : SessionConfig) (t : FileChangeTrigger)
    (watchOk : string -> bool) (acc : list nat * World) (path : string) :
  engineStep (snd acc) (snd (watchOne session t watchOk acc path)).
Proof.
  destruct acc as [ws w]. unfold watchOne. destruct (watchOk path); cbn [snd].
  - apply engineStep_later; cbn; first [reflexivity | lia].
  - apply engineStep_sameEngine, sameEngine_console.
Qed.

Lemma engineStep_setupFileChangeTrigger (session : SessionConfig) (t : FileChangeTrigger)
    (watchOk : string -> bool) (w : World) :
  engineStep w (setupFileChangeTrigger session t watchOk w).
Proof.
  unfold setupFileChangeTrigger.
  assert (H : forall l acc, engineStep (snd acc)
                              (snd (fold_left (watchOne session t watchOk) l acc))).
  { induction l as [|p l IH]; intros acc; [apply engineStep_refl|].
    simpl. eapply engineStep_trans; [apply engineStep_watchOne | apply IH]. }
  specialize (H (watchPaths t) ([], w)).
  destruct (fold_left _ _ _) as [ws w1]. cbn [snd] in H.
  eapply engineStep_trans; [exact H|].
  apply engineStep_later; cbn; first [reflexivity | lia].
Qed.

Lemma engineStep_setupTrigger (session : SessionConfig) (watchOk : string -> bool)
    (w : World) (trigger : Trigger) :
  engineStep w (setupTrigger session watchOk w trigger).
Proof.
  destruct trigger; cbn [setupTrigger].
  - apply engineStep_setupWiFiTrigger.
  - apply engineStep_setupScheduleTrigger.
  - apply engineStep_setupFileChangeTrigger.
  - apply engineStep_setupStartupTrigger.
  - apply engineStep_setupIntervalTrigger.
Qed.

Lemma engineStep_armSession (watchOk : string -> bool) (w : World) (session : SessionConfig) :
  engineStep w (armSession watchOk w session).
Proof.
  unfold armSession. destruct (enabled session); [|apply engineStep_refl].
  unfold setupTriggers. apply engineStep_fold_left. intros. apply engineStep_setupTrigger.
Qed.

Lemma engineStep_start (watchOk : string -> bool) (w : World) :
  engineStep w (start watchOk w).
Proof.
  unfold start. cbv zeta.
  apply (engineStep_trans _ (fold_left (armSession watchOk) (sessions w) w)).
  - apply engineStep_fold_left. intros. apply engineStep_armSession.
  - apply engineStep_setTimer; discriminate.
Qed.

(** Cancelling all the timers recorded in [timers]. *)
Lemma engineStep_clearAll (l : list nat) (w : World) :
  (forall h, h ∈ l -> networkWatcher w <> Some h) ->
  engineStep w (foldr clearTimer w l)
  /\ networkWatcher (foldr clearTimer w l) = networkWatcher w
  /\ timers (foldr clearTimer w l) = timers w
  /\ nextHandle (foldr clearTimer w l) = nextHandle w.
Proof.
  induction l as [|h l IH]; intros Hl; [split; [apply engineStep_refl | repeat split]|].
  destruct IH as (S1 & S2 & S3 & S4).
  { intros h' Hin. apply Hl. now right. }
  cbn [foldr]. split; [|split; [|split]; assumption].
  eapply engineStep_trans; [exact S1|]. apply engineStep_clearTimer.
  rewrite S2. apply Hl. now left.
Qed.

Lemma engineStep_closeAll (l : list nat) (w : World) :
  sameEngine w (foldr closeWatcher w l).
Proof.
  induction l as [|h l IH]; [apply sameEngine_refl|].
  cbn [foldr]. eapply sameEngine_trans; [exact IH|]. repeat split.
Qed.

Lemma wellFormed_stop (w : World) : wellFormed w -> wellFormed (stop w).
Proof.
  intros Hw. unfold stop. cbv zeta.
  destruct (engineStep_clearAll (snd <$> map_to_list (timers w)) w) as ([S1 _] & S2 & S3 & S4).
  { intros h Hin. apply list_elem_of_fmap in Hin as ([k h'] & -> & Hin).
    apply elem_of_map_to_list in Hin. now apply (timers_fresh w Hw k h'). }
  set (w1 := foldr clearTimer w _) in *.
  assert (Hw1 : wellFormed w1) by auto.
  set (w2 := set_timers ∅ w1).
  assert (Hw2 : wellFormed w2).
  { destruct Hw1 as [I1 I2 I3 I4]. split; try assumption.
    intros k h Hk. cbn in Hk. rewrite lookup_empty in Hk. discriminate. }
  set (w3 := foldr closeWatcher w2 _).
  assert (Hw3 : wellFormed w3).
  { apply (wellFormed_sameEngine w2); [apply engineStep_closeAll | exact Hw2]. }
  set (w4 := set_fileWatchers ∅ w3).
  assert (Hw4 : wellFormed w4).
  { apply (wellFormed_sameEngine w3); [repeat split | exact Hw3]. }
  destruct (networkWatcher w4) as [timer|] eqn:En; [|exact Hw4].
  destruct Hw4 as [I1 I2 I3 I4]. split;
    cbn [liveTimers timers networkWatcher nextHandle set_networkWatcher clearTimer
         set_liveTimers].
  - intros h t Hl. apply lookup_delete_Some in Hl as [_ Hl]. now apply (I1 h t).
  - intros h t Hl Hcb Hrep. apply lookup_delete_Some in Hl as [Hne Hl].
    pose proof (I2 h t Hl Hcb Hrep). congruence.
  - discriminate.
  - intros k h Hk. destruct (I4 k h Hk) as [Hlt _]. split; [exact Hlt | discriminate].
Qed.

Lemma liveTimers_clearAll (l : list nat) (w : World) (h : nat) (t : Timer) :
  liveTimers (foldr clearTimer w l) !! h = Some t -> liveTimers w !! h = Some t.
Proof.
  induction l as [|x l IH]; [auto|].
  cbn [foldr clearTimer liveTimers set_liveTimers]. intros Hl.
  apply lookup_delete_Some in Hl as [_ Hl]. now apply IH.
Qed.

Lemma noStartupArmed_stop (w : World) : noStartupArmed w (stop w).
Proof.
  unfold stop. cbv zeta.
  set (w1 := foldr clearTimer w _).
  set (w3 := foldr closeWatcher (set_timers ∅ w1) _).
  assert (H1 : liveTimers w3 = liveTimers w1
               /\ startupTriggersExecuted w3 = startupTriggersExecuted w
               /\ startupHandles (trace w3) = startupHandles (trace w)).
  { destruct (engineStep_closeAll
                (concat (snd <$> map_to_list (fileWatchers (set_timers ∅ w1))))
                (set_timers ∅ w1)) as (E1 & _ & _ & _ & E5 & E6).
    fold w3 in E1, E5, E6. rewrite E1, E5, E6. cbn [liveTimers startupTriggersExecuted trace set_timers].
    subst w1. split; [reflexivity|].
    rewrite trace_foldr_clearTimer. split; [|reflexivity].
    clear. induction (snd <$> map_to_list (timers w)) as [|x l IH]; [reflexivity | exact IH]. }
  destruct H1 as (E1 & E5 & E6).
  assert (Hsub : forall h t, liveTimers w3 !! h = Some t -> liveTimers w !! h = Some t).
  { intros h t Hl. rewrite E1 in Hl. subst w1. now apply liveTimers_clearAll in Hl. }
  destruct (networkWatcher (set_fileWatchers ∅ w3)) as [timer|];
    (split; [|split]);
    cbn [liveTimers startupTriggersExecuted trace set_networkWatcher clearTimer
         set_liveTimers set_fileWatchers]; rewrite ?E5, ?E6; auto.
  intros _ h t Hl _. apply lookup_delete_Some in Hl as [_ Hl]. now apply Hsub.
Qed.

Lemma engineStep_stop (w : World) : engineStep w (stop w).
Proof. split; [apply wellFormed_stop | apply noStartupArmed_stop]. Qed.

Lemma engineStep_updateSessions (ss : list SessionConfig) (watchOk : string -> bool)
    (w : World) :
  engineStep w (updateSessions ss watchOk w).
Proof.
  unfold updateSessions. eapply engineStep_trans; [apply engineStep_stop|].
  eapply engineStep_trans; [|apply engineStep_start].
  apply engineStep_sameEngine, sameEngine_set_sessions.
Qed.


(** *** Timer callbacks, filesystem events and the other inputs *)

Lemma engineStep_runCallback (cb : Callback) (fe : FireEnv) (w : World) :
  engineStep w (runCallback cb fe w).
Proof.
  destruct cb as [|sid sn t|sid sn k f|sid sn t|sid sn t|]; cbn [runCallback].
  - split.
    + intros [I1 I2 I3 I4]. split; assumption.
    + split; [|split]; cbn; auto.
  - unfold checkSchedule.
    destruct (scheduleTimeMatches t (date fe)); [|apply engineStep_refl].
    destruct (scheduleShouldTrigger t (date fe)); [|apply engineStep_refl].
    apply engineStep_sameEngine.
    eapply sameEngine_trans; [apply sameEngine_console | apply sameEngine_requestSync].
  - eapply engineStep_trans; [|apply engineStep_forget].
    apply engineStep_sameEngine.
    eapply sameEngine_trans; [apply sameEngine_console | apply sameEngine_requestSync].
  - apply engineStep_sameEngine.
    eapply sameEngine_trans; [apply sameEngine_console | apply sameEngine_requestSync].
  - unfold executeSync.
    destruct (intervalInWindow t (date fe)); [|apply engineStep_refl].
    apply engineStep_sameEngine.
    eapply sameEngine_trans; [apply sameEngine_console | apply sameEngine_requestSync].
  - apply engineStep_sameEngine, sameEngine_checkNetwork.
Qed.

Lemma wellFormed_emit (d : list Event) (w : World) : wellFormed w -> wellFormed (emit d w).
Proof. intros [I1 I2 I3 I4]. split; assumption. Qed.

Lemma engineStep_fileEvent (h : nat) (filename : option string)
    (regexTest : string -> string -> bool) (w : World) :
  engineStep w (fileEvent h filename regexTest w).
Proof.
  unfold fileEvent. destruct (openWatchers w !! h) as [watch|]; [|apply engineStep_refl].
  unfold onFileChange. destruct filename as [f|]; [|apply engineStep_refl].
  destruct (JS.truthy f); [|apply engineStep_refl].
  match goal with |- engineStep w (if negb ?c then _ else _) => destruct c end;
    cbn [negb]; [apply engineStep_refl|].
  cbv zeta.
  set (key := watchSessionId watch +:+ "-filechange-" +:+ watchPath watch).
  set (w1 := match timers w !! key with Some existingTimer => clearTimer existingTimer w
                                     | None => w end).
  assert (H1 : engineStep w w1).
  { subst w1. destruct (timers w !! key) as [existing|] eqn:E; [|apply engineStep_refl].
    split.
    - intros Hw. apply engineStep_clearTimer; [|exact Hw].
      now apply (timers_fresh w Hw key existing).
    - unfold clearTimer. split; [|split]; cbn; auto.
      intros _ h' t Hl _. now apply lookup_delete_Some in Hl as [_ Hl]. }
  eapply engineStep_trans; [exact H1|].
  now apply (engineStep_arm_recorded
               (DebounceExpired (watchSessionId watch) (watchSessionName watch) key f)
               (debounceMs (watchTrigger watch)) false).
Qed.

Lemma engineStep_syncNow (sessionId : string) (e : SyncEnv) (disk : list SessionConfig)
    (stamp : string) (watchOk : string -> bool) (w : World) :
  engineStep w (fst (syncNow sessionId e disk stamp watchOk w)).
Proof.
  unfold syncNow.
  pose proof (sameEngine_syncSession sessionId true e w) as H1.
  destruct (syncSession sessionId true e w) as [w1 [|m]]; cbn [fst] in H1.
  - assert (H2 : engineStep w (emit [Log LSuccess "Synchronization completed successfully"] w1)).
    { apply engineStep_sameEngine. eapply sameEngine_trans; [exact H1|].
      now apply sameEngine_emit. }
    destruct (findSession sessionId disk); cbn [fst]; [|exact H2].
    eapply engineStep_trans; [exact H2 | apply engineStep_updateSessions].
  - cbn [fst]. apply engineStep_sameEngine.
    eapply sameEngine_trans; [exact H1 | apply sameEngine_console].
Qed.

(** Every input but the run of a timer. *)
Lemma engineStep_step (w : World) (i : Input) :
  (forall h fe, i <> TimerFires h fe) -> engineStep w (step w i).
Proof.
  intros Hi. destruct i; cbn [step].
  - now destruct (Hi h fe).
  - apply engineStep_fileEvent.
  - apply engineStep_sameEngine. repeat split.
  - apply engineStep_start.
  - apply engineStep_stop.
  - apply engineStep_updateSessions.
  - apply engineStep_sameEngine. unfold pauseAllSessions.
    eapply sameEngine_trans; [|apply sameEngine_console]. repeat split.
  - apply engineStep_sameEngine. unfold resumeAllSessions.
    eapply sameEngine_trans; [|apply sameEngine_console]. repeat split.
  - apply engineStep_sameEngine, sameEngine_setSessionPaused.
  - apply engineStep_sameEngine, sameEngine_setSessionPaused.
  - apply engineStep_syncNow.
Qed.

(** The run of a timer: what becomes of the timer itself. *)
Lemma wellFormed_rescheduled (h : nat) (t : Timer) (w : World) :
  wellFormed w -> liveTimers w !! h = Some t -> repeating t = true ->
  wellFormed
    (set_liveTimers
       (<[h := {| callback := callback t; delay := delay t; repeating := true;
                  due := clock w + delay t |}]> (liveTimers w)) w).
Proof.
  intros [I1 I2 I3 I4] Hl Hrep. split;
    cbn [liveTimers timers networkWatcher nextHandle set_liveTimers]; try assumption.
  - intros h' t' Hl' Hst. apply lookup_insert_Some in Hl' as [[E1 E2]|[_ Hl']].
    + subst. cbn in Hst. pose proof (I1 _ _ Hl Hst). congruence.
    + now apply (I1 h' t').
  - intros h' t' Hl' Hcb Hrep'. apply lookup_insert_Some in Hl' as [[E1 E2]|[_ Hl']].
    + subst. cbn in Hcb. now apply (I2 _ t).
    + now apply (I2 h' t').
  - intros h' Hn. destruct (I3 h' Hn) as [Hlt [d0 H0]]. split; [exact Hlt|].
    destruct (decide (h' = h)) as [->|Hne].
    + rewrite Hl in H0. injection H0 as ->.
      exists (clock w + 10000). now rewrite lookup_insert_eq.
    + exists d0. now rewrite lookup_insert_ne.
Qed.

Lemma wellFormed_fireTimer (h : nat) (fe : FireEnv) (w : World) :
  wellFormed w -> wellFormed (fireTimer h fe w).
Proof.
  intros Hw. unfold fireTimer. destruct (liveTimers w !! h) as [t|] eqn:Hl; [|exact Hw].
  destruct (due t <=? clock w); [|exact Hw]. cbv zeta.
  apply engineStep_runCallback, wellFormed_emit.
  destruct (repeating t) eqn:Hrep; [now apply wellFormed_rescheduled|].
  apply engineStep_clearTimer; [|exact Hw].
  intros Hn. destruct (polling_live w Hw h Hn) as [_ [d0 H0]].
  rewrite Hl in H0. injection H0 as ->. discriminate.
Qed.

Lemma wellFormed_step (w : World) (i : Input) : wellFormed w -> wellFormed (step w i).
Proof.
  intros Hw. destruct i as [h fe| | | | | | | | | |];
    try (apply engineStep_step; [discriminate | exact Hw]).
  now apply wellFormed_fireTimer.
Qed.

Lemma wellFormed_create (ss : list SessionConfig) (a b c d e : bool) (now : Z) :
  wellFormed (create ss a b c d e now).
Proof.
  split; cbn; intros *; try (rewrite lookup_empty; discriminate); discriminate.
Qed.

(** Well-formedness holds in every state the manager can reach. *)
Lemma wellFormed_run (w : World) (inputs : list Input) :
  wellFormed w -> wellFormed (run w inputs).
Proof.
  unfold run. revert w. induction inputs as [|i r IH]; intros w Hw; [exact Hw|].
  cbn [fold_left]. apply IH. now apply wellFormed_step.
Qed.

(** What one input does to the startup timers once the latch is set: it
    runs at most one of them, which was pending and is gone afterwards,
    and it adds none. *)
Lemma step_behind_latch (w : World) (i : Input) :
  wellFormed w -> startupTriggersExecuted w = true ->
  exists F,
    startupHandles (trace (step w i)) = startupHandles (trace w) ++ F
    /\ NoDup F
    /\ (forall h, h ∈ F -> exists t, liveTimers w !! h = Some t
                                    /\ isStartupFire (callback t) = true)
    /\ (forall h t, liveTimers (step w i) !! h = Some t ->
                    isStartupFire (callback t) = true ->
                    liveTimers w !! h = Some t /\ h ∉ F)
    /\ startupTriggersExecuted (step w i) = true.
Proof.
  intros Hw Hlatch.
  assert (Hquiet : forall w', noStartupArmed w w' ->
            exists F,
              startupHandles (trace w') = startupHandles (trace w) ++ F
              /\ NoDup F
              /\ (forall h, h ∈ F -> exists t, liveTimers w !! h = Some t
                                              /\ isStartupFire (callback t) = true)
              /\ (forall h t, liveTimers w' !! h = Some t ->
                              isStartupFire (callback t) = true ->
                              liveTimers w !! h = Some t /\ h ∉ F)
              /\ startupTriggersExecuted w' = true).
  { intros w' (R1 & R2 & R3). exists []. rewrite app_nil_r.
    split; [exact R3|]. split; [constructor|]. split.
    - intros h Hin. now apply elem_of_nil in Hin.
    - split; [|auto]. intros h t Hl Hst. split; [now apply R1|]. apply not_elem_of_nil. }
  destruct i as [h fe| | | | | | | | | |];
    try (apply Hquiet, engineStep_step; discriminate).
  cbn [step]. unfold fireTimer.
  destruct (liveTimers w !! h) as [t|] eqn:Hl; [|apply Hquiet, noStartupArmed_refl].
  destruct (due t <=? clock w); [|apply Hquiet, noStartupArmed_refl]. cbv zeta.
  set (w1 := if repeating t then _ else clearTimer h w).
  destruct (engineStep_runCallback (callback t) fe (emit [Ran h (callback t)] w1))
    as [_ (R1 & R2 & R3)].
  assert (Hlatch1 : startupTriggersExecuted (emit [Ran h (callback t)] w1) = true).
  { subst w1. destruct (repeating t); exact Hlatch. }
  rewrite R3. cbn [trace emit set_trace]. rewrite startupHandles_app.
  assert (Htr : trace w1 = trace w) by (subst w1; now destruct (repeating t)).
  rewrite Htr.
  destruct (isStartupFire (callback t)) eqn:Hst.
  - (* a startup timer runs: it is one-shot, hence gone *)
    pose proof (startup_one_shot w Hw h t Hl Hst) as Hrep.
    exists [h]. split; [unfold startupHandles; simpl; now rewrite Hst|].
    split; [apply NoDup_singleton|]. split.
    + intros h' Hin. apply list_elem_of_singleton in Hin as ->. now exists t.
    + split; [|auto]. intros h' t' Hl' Hst'.
      apply (R1 Hlatch1) in Hl'; [|exact Hst'].
      subst w1. rewrite Hrep in Hl'.
      cbn [liveTimers emit set_trace clearTimer set_liveTimers] in Hl'.
      apply lookup_delete_Some in Hl' as [Hne Hl'].
      split; [exact Hl'|]. intros Hin. apply list_elem_of_singleton in Hin. congruence.
  - exists []. split; [unfold startupHandles; simpl; now rewrite Hst|].
    split; [constructor|]. split.
    + intros h' Hin. now apply elem_of_nil in Hin.
    + split; [|auto]. intros h' t' Hl' Hst'. split; [|apply not_elem_of_nil].
      apply (R1 Hlatch1) in Hl'; [|exact Hst'].
      subst w1. destruct (repeating t);
        cbn [liveTimers emit set_trace clearTimer set_liveTimers] in Hl'.
      * apply lookup_insert_Some in Hl' as [[E1 E2]|[_ Hl']]; [|exact Hl'].
        subst. cbn in Hst'. congruence.
      * now apply lookup_delete_Some in Hl' as [_ Hl'].
Qed.

Lemma run_behind_latch (w : World) (inputs : list Input) :
  wellFormed w -> startupTriggersExecuted w = true ->
  exists F,
    startupHandles (trace (run w inputs)) = startupHandles (trace w) ++ F
    /\ NoDup F
    /\ (forall h, h ∈ F -> exists t, liveTimers w !! h = Some t
                                    /\ isStartupFire (callback t) = true)
    /\ (forall h t, liveTimers (run w inputs) !! h = Some t ->
                    isStartupFire (callback t) = true ->
                    liveTimers w !! h = Some t /\ h ∉ F)
    /\ startupTriggersExecuted (run w inputs) = true.
Proof.
  unfold run. revert w. induction inputs as [|i r IH]; intros w Hw Hlatch.
  - exists []. rewrite app_nil_r. split; [reflexivity|]. split; [constructor|].
    split; [intros h Hin; now apply elem_of_nil in Hin|].
    split; [|exact Hlatch]. intros h t Hl _. split; [exact Hl | apply not_elem_of_nil].
  - cbn [fold_left].
    destruct (step_behind_latch w i Hw Hlatch) as (F1 & A1 & A2 & A3 & A4 & A5).
    destruct (IH (step w i) (wellFormed_step w i Hw) A5) as (F2 & B1 & B2 & B3 & B4 & B5).
    exists (F1 ++ F2). split; [now rewrite B1, A1, app_assoc|]. split.
    { apply NoDup_app. split; [exact A2|]. split; [|exact B2].
      intros h H1 H2. destruct (B3 h H2) as (t & Hl & Hst).
      now destruct (A4 h t Hl Hst). }
    split.
    { intros h Hin. apply elem_of_app in Hin as [Hin|Hin]; [now apply A3|].
      destruct (B3 h Hin) as (t & Hl & Hst). exists t.
      split; [now apply (A4 h t Hl Hst) | exact Hst]. }
    split; [|exact B5].
    intros h t Hl Hst. destruct (B4 h t Hl Hst) as [Hl1 Hn2].
    destruct (A4 h t Hl1 Hst) as [Hl0 Hn1]. split; [exact Hl0|].
    intros Hin. apply elem_of_app in Hin as [Hin|Hin]; auto.
Qed.


(** *** Startup triggers and the latch *)





(** *** The network polling loop *)

Lemma networkWatcher_setupTrigger (session : SessionConfig) (watchOk : string -> bool)
    (w : World) (trigger : Trigger) :
  is_Some (networkWatcher (setupTrigger session watchOk w trigger))
  <-> is_Some (networkWatcher w) \/ isWiFi trigger = true.
Proof.
  destruct trigger as [t|t|t|t|t]; cbn [setupTrigger isWiFi].
  - unfold setupWiFiTrigger. destruct (networkWatcher w) eqn:E.
    + rewrite E. split; [now left | eauto].
    + cbn. split; [now right | eauto].
  - unfold setupScheduleTrigger. destruct (JS.truthy (time t)); cbn;
      (split; [now left | intros [H|H]; [exact H | discriminate]]).
  - unfold setupFileChangeTrigger.
    assert (H : forall l acc, networkWatcher (snd (fold_left (watchOne session t watchOk) l acc))
                              = networkWatcher (snd acc)).
    { induction l as [|p l IH]; intros acc; [reflexivity|].
      simpl. rewrite IH. destruct acc as [ws w0]. unfold watchOne.
      now destruct (watchOk p). }
    specialize (H (watchPaths t) ([], w)).
    destruct (fold_left _ _ _) as [ws w1]. cbn in *. rewrite H.
    split; [now left | intros [H0|H0]; [exact H0 | discriminate]].
  - unfold setupStartupTrigger. destruct (startupTriggersExecuted w); cbn;
      (split; [now left | intros [H|H]; [exact H | discriminate]]).
  - unfold setupIntervalTrigger. cbn.
    split; [now left | intros [H|H]; [exact H | discriminate]].
Qed.

Lemma networkWatcher_armSession (watchOk : string -> bool) (w : World)
    (session : SessionConfig) :
  is_Some (networkWatcher (armSession watchOk w session))
  <-> is_Some (networkWatcher w)
      \/ enabled session && existsb isWiFi (triggers session) = true.
Proof.
  unfold armSession. destruct (enabled session); cbn [andb].
  2:{ split; [now left | intros [H|H]; [exact H | discriminate]]. }
  unfold setupTriggers. revert w.
  induction (triggers session) as [|tr l IH]; intros w; cbn [fold_left existsb].
  - split; [now left | intros [H|H]; [exact H | discriminate]].
  - rewrite IH, networkWatcher_setupTrigger, orb_true_iff. tauto.
Qed.

Lemma networkWatcher_start (watchOk : string -> bool) (w : World) :
  is_Some (networkWatcher (start watchOk w))
  <-> is_Some (networkWatcher w) \/ wifiArmed (sessions w) = true.
Proof.
  unfold start, wifiArmed. cbv zeta.
  cbn [snd setTimeout setTimer networkWatcher set_nextHandle set_liveTimers].
  generalize (sessions w). intros ss. revert w.
  induction ss as [|s r IH]; intros w; cbn [fold_left existsb].
  - split; [now left | intros [H|H]; [exact H | discriminate]].
  - rewrite IH, networkWatcher_armSession, orb_true_iff. tauto.
Qed.

Lemma networkWatcher_stop (w : World) : networkWatcher (stop w) = None.
Proof.
  unfold stop. cbv zeta.
  match goal with |- networkWatcher (match ?n with _ => _ end) = _ => destruct n eqn:E end;
    [reflexivity | exact E].
Qed.

Lemma wifi_tests_spec (t : WiFiTrigger) (prev cur : option string) :
  (wifiOnConnect t cur || wifiOnDisconnect t prev cur = true <-> wifiCondition t prev cur)
  /\ (wifiOnConnect t cur && wifiOnDisconnect t prev cur = false).
Proof.
  unfold wifiOnConnect, wifiOnDisconnect, wifiCondition.
  destruct (onConnect t); cbn [andb negb orb].
  - rewrite orb_false_r, bool_decide_eq_true. split; [|apply andb_false_r].
    split; [now left | intros [[_ H]|[H _]]; [exact H | discriminate]].
  - rewrite andb_true_iff, negb_true_iff, bool_decide_eq_true, bool_decide_eq_false.
    split; [|reflexivity].
    split; [now right | intros [[H _]|[_ H]]; [discriminate | exact H]].
Qed.

Lemma singleton_of_unique {A} (l : list A) (a : A) :
  NoDup l -> a ∈ l -> (forall x, x ∈ l -> x = a) -> l = [a].
Proof.
  intros Hnd Hin Hall. destruct l as [|x l]; [now apply elem_of_nil in Hin|].
  assert (x = a) as -> by (apply Hall; now left).
  destruct l as [|y l]; [reflexivity|].
  assert (y = a) as -> by (apply Hall; right; now left).
  apply NoDup_cons in Hnd as [Hn _]. exfalso. apply Hn. now left.
Qed.

Lemma pollingLoops_spec (w : World) :
  wellFormed w ->
  match networkWatcher w with
  | Some h => exists d, pollingLoops w = [(h, pollingTimer d)]
  | None => pollingLoops w = []
  end.
Proof.
  intros Hw. unfold pollingLoops, liveWhere.
  assert (Hin : forall h t,
            (h, t) ∈ List.filter
                       (fun ht => isCheckNetwork (callback ht.2) && repeating ht.2)
                       (map_to_list (liveTimers w))
            <-> liveTimers w !! h = Some t /\ callback t = CheckNetwork
                /\ repeating t = true).
  { intros h t. rewrite list_elem_of_In, List.filter_In, <- list_elem_of_In,
      elem_of_map_to_list, andb_true_iff. cbn [snd].
    assert (isCheckNetwork (callback t) = true <-> callback t = CheckNetwork).
    { destruct (callback t); cbn; split; intros; congruence. }
    tauto. }
  destruct (networkWatcher w) as [h|] eqn:En.
  - destruct (polling_live w Hw h En) as [_ [d Hl]]. exists d.
    apply singleton_of_unique.
    + apply NoDup_ListNoDup, List.NoDup_filter, NoDup_ListNoDup, NoDup_map_to_list.
    + apply Hin. now split.
    + intros [h' t'] Hx. apply Hin in Hx as (Hl' & Hcb & Hrep).
      pose proof (polling_unique w Hw h' t' Hl' Hcb Hrep) as E. rewrite En in E.
      injection E as <-. rewrite Hl in Hl'. now injection Hl' as <-.
  - destruct (List.filter _ _) as [|[h t] l] eqn:E; [reflexivity|].
    assert (Hx : (h, t) ∈ (h, t) :: l) by now left.
    apply Hin in Hx as (Hl' & Hcb & Hrep).
    pose proof (polling_unique w Hw h t Hl' Hcb Hrep). congruence.
Qed.

(** C8. In every state the manager can reach there is at most one polling
    loop, and exactly one when [networkWatcher] is set: a repeating timer
    of period 10 s that runs [checkNetwork]. The first WiFi trigger armed
    starts it, every further one, of any session, finds it and starts
    nothing; after a Rearm it runs if and only if some enabled session has
    a WiFi trigger. A sample equal to the last identity does nothing; on a
    change from [prev] to [cur] every WiFi trigger of every session is
    tested, and one requests a sync if and only if ([onConnect] and [cur]
    is its ssid) or (not [onConnect], [prev] is its ssid and [cur] is
    not). *)
Theorem C8_network_polling (ss : list SessionConfig)
    (save notify syncStart syncEnd logFactory : bool) (now : Z) (inputs : list Input)
    (session : SessionConfig) (t : WiFiTrigger) (prev cur : option string)
    (fe : FireEnv) (w0 : World) (ss' : list SessionConfig) (watchOk : string -> bool) :
  let w := run (create ss save notify syncStart syncEnd logFactory now) inputs in
  match networkWatcher w with
  | Some h => exists d, pollingLoops w = [(h, pollingTimer d)]
  | None => pollingLoops w = []
  end
  /\ (networkWatcher w0 = None ->
      networkWatcher (setupWiFiTrigger session t w0) = Some (S (nextHandle w0))
      /\ liveTimers (setupWiFiTrigger session t w0) !! S (nextHandle w0)
         = Some (pollingTimer (clock w0 + 10000)))
  /\ (is_Some (networkWatcher w0) -> setupWiFiTrigger session t w0 = w0)
  /\ (is_Some (networkWatcher (updateSessions ss' watchOk w)) <-> wifiArmed ss' = true)
  /\ (sampledSSID fe = currentSSID w0 -> checkNetwork fe w0 = w0)
  /\ (sampledSSID fe <> currentSSID w0 ->
      checkNetwork fe w0
      = fold_left
          (fun w1 s =>
             fold_left
               (checkWiFiTrigger (id s) (name s) (currentSSID w0) (sampledSSID fe) fe)
               (triggers s) w1)
          (sessions w0) (set_currentSSID (sampledSSID fe) w0))
  /\ (wifiCondition t prev cur ->
      exists line,
        checkWiFiTrigger (id session) (name session) prev cur fe w0 (TWiFi t)
        = requestSync (id session) (syncEnv fe (id session)) (console line w0))
  /\ (~ wifiCondition t prev cur ->
      checkWiFiTrigger (id session) (name session) prev cur fe w0 (TWiFi t) = w0).
Proof.
  intros w.
  split; [apply pollingLoops_spec, wellFormed_run, wellFormed_create|].
  split.
  { intros Hn. unfold setupWiFiTrigger. rewrite Hn. split; [reflexivity|].
    unfold startNetworkMonitoring. cbn. apply lookup_insert_eq. }
  split.
  { intros [h Hn]. unfold setupWiFiTrigger. now rewrite Hn. }
  split.
  { unfold updateSessions. rewrite networkWatcher_start.
    cbn [networkWatcher sessions set_sessions]. rewrite networkWatcher_stop.
    split; [intros [[x Hx]|H]; [discriminate | exact H] | now right]. }
  split.
  { intros He. unfold checkNetwork. now rewrite bool_decide_eq_true_2. }
  split.
  { intros Hne. unfold checkNetwork. now rewrite bool_decide_eq_false_2. }
  destruct (wifi_tests_spec t prev cur) as [Hiff Hexcl].
  split.
  - intros Hc. apply Hiff in Hc. cbn [checkWiFiTrigger].
    destruct (wifiOnConnect t cur) eqn:E1.
    + cbn [andb] in Hexcl. rewrite Hexcl. eexists. reflexivity.
    + cbn [orb] in Hc. rewrite Hc. eexists. reflexivity.
  - intros Hn. cbn [checkWiFiTrigger].
    destruct (wifiOnConnect t cur) eqn:E1; [exfalso; apply Hn, Hiff; reflexivity|].
    destruct (wifiOnDisconnect t prev cur) eqn:E2; [exfalso; apply Hn, Hiff; reflexivity|].
    reflexivity.
Qed.


(** ** The setup under operations that leave it alone *)

Lemma sameSetup_refl (w : World) : sameSetup w w.
Proof. repeat split. Qed.

Lemma sameSetup_trans (a b c : World) : sameSetup a b -> sameSetup b c -> sameSetup a c.
Proof.
  intros (A1 & A2 & A3 & A4) (B1 & B2 & B3 & B4). repeat split; congruence.
Qed.

Lemma sameSetup_emit (d : list Event) (w : World) : sameSetup w (emit d w).
Proof. repeat split. Qed.

Lemma sameSetup_console (line : string) (w : World) : sameSetup w (console line w).
Proof. repeat split. Qed.

Lemma config_mutate (sessionId : string) (f : SessionConfig -> SessionConfig)
    (ss : list SessionConfig) :
  (forall s, config (f s) = config s) ->
  map config (mutateSession sessionId f ss) = map config ss.
Proof.
  intros Hf. induction ss as [|s r IH]; [reflexivity|].
  cbn [mutateSession]. destruct (bool_decide (id s = sessionId)); cbn [map].
  - now rewrite Hf.
  - now rewrite IH.
Qed.

Lemma config_outcomeRecord (e : SyncEnv) (o : Outcome) (s : SessionConfig) :
  config (outcomeRecord e o s) = config s.
Proof. destruct o; reflexivity. Qed.

Lemma sameSetup_emit_sessions (d : list Event) (S : list SessionConfig) (w : World) :
  map config S = map config (sessions w) -> sameSetup w (emit d (set_sessions S w)).
Proof. intros HS. repeat split. exact HS. Qed.

Lemma sameSetup_syncSession (sessionId : string) (lc : bool) (e : SyncEnv) (w : World) :
  sameSetup w (fst (syncSession sessionId lc e w)).
Proof.
  destruct (findSession sessionId (sessions w)) as [session|] eqn:Hf.
  - destruct (syncSession_form sessionId session lc e w Hf) as (d & _ & _ & Heq).
    rewrite Heq. cbn [fst]. apply sameSetup_emit_sessions.
    apply config_mutate. intros s. apply config_outcomeRecord.
  - unfold syncSession. rewrite Hf. apply sameSetup_refl.
Qed.

Lemma sameSetup_requestSync (sessionId : string) (e : SyncEnv) (w : World) :
  sameSetup w (requestSync sessionId e w).
Proof.
  unfold requestSync, triggerSync.
  destruct (globallyPaused w); [apply sameSetup_console|].
  set (w0 := if logCallbackFactory w then emit [LogFactory sessionId] w else w).
  assert (H0 : sameSetup w w0).
  { subst w0. destruct (logCallbackFactory w);
      [apply sameSetup_emit | apply sameSetup_refl]. }
  assert (Hrun : sameSetup w
                   (let '(w1, o) := syncSession sessionId (logCallbackFactory w0) e w0 in
                    match o with
                    | Rejected m => console (JS.errorToString m) w1
                    | Resolved => w1
                    end)).
  { pose proof (sameSetup_syncSession sessionId (logCallbackFactory w0) e w0) as H1.
    destruct (syncSession _ _ _ _) as [w1 [|m]]; cbn [fst] in H1.
    - eapply sameSetup_trans; eassumption.
    - eapply sameSetup_trans; [|apply sameSetup_console].
      eapply sameSetup_trans; eassumption. }
  destruct (findSession sessionId (sessions w)) as [session|].
  - destruct (bool_decide (paused session = Some true)); [apply sameSetup_console|].
    fold w0. destruct (syncSession _ _ _ _) as [w1 [|m]]; exact Hrun.
  - fold w0. destruct (syncSession _ _ _ _) as [w1 [|m]]; exact Hrun.
Qed.

Lemma sameSetup_fold_left {A} (f : World -> A -> World) (l : list A) (w : World) :
  (forall w0 x, sameSetup w0 (f w0 x)) -> sameSetup w (fold_left f l w).
Proof.
  intros Hf. revert w. induction l as [|x l IH]; intros w; [apply sameSetup_refl|].
  simpl. eapply sameSetup_trans; [apply Hf | apply IH].
Qed.

Lemma sameSetup_checkWiFiTrigger (sid sn : string) (prev cur : option string)
    (fe : FireEnv) (w : World) (trigger : Trigger) :
  sameSetup w (checkWiFiTrigger sid sn prev cur fe w trigger).
Proof.
  destruct trigger as [t| | | |]; try apply sameSetup_refl. cbn [checkWiFiTrigger].
  set (w1 := if wifiOnConnect t cur then _ else w).
  assert (H1 : sameSetup w w1).
  { subst w1. destruct (wifiOnConnect t cur); [|apply sameSetup_refl].
    eapply sameSetup_trans; [apply sameSetup_console | apply sameSetup_requestSync]. }
  destruct (wifiOnDisconnect t prev cur); [|exact H1].
  eapply sameSetup_trans; [exact H1|].
  eapply sameSetup_trans; [apply sameSetup_console | apply sameSetup_requestSync].
Qed.

Lemma sameSetup_checkNetwork (fe : FireEnv) (w : World) :
  sameSetup w (checkNetwork fe w).
Proof.
  unfold checkNetwork.
  destruct (bool_decide (sampledSSID fe = currentSSID w)); [apply sameSetup_refl|].
  cbv zeta. eapply sameSetup_trans; [|apply sameSetup_fold_left].
  - repeat split.
  - intros w0 s. apply sameSetup_fold_left. intros w1 t.
    apply sameSetup_checkWiFiTrigger.
Qed.

Lemma sameSetup_runCallback (cb : Callback) (fe : FireEnv) (w : World) :
  sameSetup w (runCallback cb fe w).
Proof.
  destruct cb as [|sid sn t|sid sn k f|sid sn t|sid sn t|]; cbn [runCallback].
  - repeat split.
  - unfold checkSchedule.
    destruct (scheduleTimeMatches t (date fe)); [|apply sameSetup_refl].
    destruct (scheduleShouldTrigger t (date fe)); [|apply sameSetup_refl].
    eapply sameSetup_trans; [apply sameSetup_console | apply sameSetup_requestSync].
  - cbv zeta. eapply sameSetup_trans; [|repeat split].
    eapply sameSetup_trans; [apply sameSetup_console | apply sameSetup_requestSync].
  - eapply sameSetup_trans; [apply sameSetup_console | apply sameSetup_requestSync].
  - unfold executeSync.
    destruct (intervalInWindow t (date fe)); [|apply sameSetup_refl].
    eapply sameSetup_trans; [apply sameSetup_console | apply sameSetup_requestSync].
  - apply sameSetup_checkNetwork.
Qed.

Lemma sameSetup_fireTimer (h : nat) (fe : FireEnv) (w : World) :
  sameSetup w (fireTimer h fe w).
Proof.
  unfold fireTimer. destruct (liveTimers w !! h) as [t|]; [|apply sameSetup_refl].
  destruct (due t <=? clock w); [|apply sameSetup_refl].
  eapply sameSetup_trans; [|apply sameSetup_runCallback].
  destruct (repeating t); repeat split.
Qed.

Lemma sameSetup_fileEvent (h : nat) (filename : option string)
    (regexTest : string -> string -> bool) (w : World) :
  sameSetup w (fileEvent h filename regexTest w).
Proof.
  unfold fileEvent. destruct (openWatchers w !! h) as [wt|]; [|apply sameSetup_refl].
  unfold onFileChange. destruct filename as [f|]; [|apply sameSetup_refl].
  destruct (JS.truthy f); [|apply sameSetup_refl].
  destruct (negb _); [|apply sameSetup_refl].
  cbv zeta. destruct (timers w !! _); repeat split.
Qed.

Lemma config_setPaused (b : bool) (s : SessionConfig) : config (setPaused b s) = config s.
Proof. reflexivity. Qed.

Lemma sameSetup_setSessionPaused (b : bool) (word sessionId : string)
    (saveErr : option string) (w : World) :
  sameSetup w (setSessionPaused b word sessionId saveErr w).
Proof.
  unfold setSessionPaused.
  destruct (findSession sessionId (sessions w)) as [session|]; [|apply sameSetup_refl].
  cbv zeta.
  assert (Hc : map config (mutateSession sessionId (setPaused b) (sessions w))
               = map config (sessions w)).
  { apply config_mutate. intros s. apply config_setPaused. }
  match goal with
  | |- sameSetup w (if ?c then _ else _) => destruct c
  end; [destruct saveErr|]; repeat split; exact Hc.
Qed.

(** ** The sessions under the operations of the engine *)

Lemma sameSessions_refl (w : World) : sameSessions w w.
Proof. repeat split. Qed.

Lemma sameSessions_trans (a b c : World) :
  sameSessions a b -> sameSessions b c -> sameSessions a c.
Proof. unfold sameSessions. intuition congruence. Qed.

Lemma sameSessions_fold_left {A} (f : World -> A -> World) (l : list A) (w : World) :
  (forall w0 x, sameSessions w0 (f w0 x)) -> sameSessions w (fold_left f l w).
Proof.
  intros Hf. revert w. induction l as [|x l IH]; intros w; [apply sameSessions_refl|].
  simpl. eapply sameSessions_trans; [apply Hf | apply IH].
Qed.

Lemma sameSessions_foldr {A} (f : A -> World -> World) (l : list A) (w : World) :
  (forall w0 x, sameSessions w0 (f x w0)) -> sameSessions w (foldr f w l).
Proof.
  intros Hf. induction l as [|x l IH]; [apply sameSessions_refl|].
  simpl. eapply sameSessions_trans; [apply IH | apply Hf].
Qed.

Lemma sameSessions_watchOne (session : SessionConfig) (t : FileChangeTrigger)
    (watchOk : string -> bool) (acc : list nat * World) (path : string) :
  sameSessions (snd acc) (snd (watchOne session t watchOk acc path)).
Proof.
  destruct acc as [ws w]. unfold watchOne. destruct (watchOk path); repeat split.
Qed.

Lemma sameSessions_setupFileChangeTrigger (session : SessionConfig) (t : FileChangeTrigger)
    (watchOk : string -> bool) (w : World) :
  sameSessions w (setupFileChangeTrigger session t watchOk w).
Proof.
  unfold setupFileChangeTrigger.
  assert (H : forall l acc,
             sameSessions (snd acc) (snd (fold_left (watchOne session t watchOk) l acc))).
  { induction l as [|p l IH]; intros acc; [apply sameSessions_refl|].
    simpl. eapply sameSessions_trans; [apply sameSessions_watchOne | apply IH]. }
  specialize (H (watchPaths t) ([], w)).
  destruct (fold_left _ _ _) as [ws w1]. cbn [snd] in H.
  eapply sameSessions_trans; [exact H|]. repeat split.
Qed.

Lemma sameSessions_setupTrigger (session : SessionConfig) (watchOk : string -> bool)
    (w : World) (trigger : Trigger) :
  sameSessions w (setupTrigger session watchOk w trigger).
Proof.
  destruct trigger as [t|t|t|t|t]; cbn [setupTrigger].
  - unfold setupWiFiTrigger. destruct (networkWatcher w); repeat split.
  - unfold setupScheduleTrigger. destruct (JS.truthy (time t)); repeat split.
  - apply sameSessions_setupFileChangeTrigger.
  - unfold setupStartupTrigger. destruct (negb _); repeat split.
  - repeat split.
Qed.

Lemma sameSessions_start (watchOk : string -> bool) (w : World) :
  sameSessions w (start watchOk w).
Proof.
  unfold start. cbv zeta.
  eapply sameSessions_trans; [|repeat split].
  apply sameSessions_fold_left. intros w0 s. unfold armSession.
  destruct (enabled s); [|apply sameSessions_refl].
  apply sameSessions_fold_left. intros w1 t. apply sameSessions_setupTrigger.
Qed.

Lemma sameSessions_stop (w : World) : sameSessions w (stop w).
Proof.
  unfold stop. cbv zeta.
  set (w1 := foldr clearTimer w _).
  assert (H1 : sameSessions w w1).
  { apply sameSessions_foldr. intros w0 h. repeat split. }
  set (w2 := foldr closeWatcher (set_timers ∅ w1) _).
  assert (H2 : sameSessions w w2).
  { eapply sameSessions_trans; [exact H1|].
    eapply sameSessions_trans; [|apply sameSessions_foldr; intros w0 h; repeat split].
    repeat split. }
  eapply sameSessions_trans; [exact H2|].
  cbn [networkWatcher set_fileWatchers].
  destruct (networkWatcher w2); repeat split.
Qed.

Lemma config_step (w : World) (i : Input) :
  replacesSessions i = false ->
  map config (sessions (step w i)) = map config (sessions w).
Proof.
  intros Hi. destruct i; try discriminate; cbn [step].
  - apply sameSetup_fireTimer.
  - apply sameSetup_fileEvent.
  - reflexivity.
  - now rewrite (proj1 (sameSessions_start _ _)).
  - now rewrite (proj1 (sameSessions_stop _)).
  - reflexivity.
  - reflexivity.
  - apply sameSetup_setSessionPaused.
  - apply sameSetup_setSessionPaused.
Qed.


(** ** The executor and the pause controller, case by case *)

Lemma findSession_None (sessionId : string) (ss : list SessionConfig) :
  findSession sessionId ss = None <-> (forall s, s ∈ ss -> id s <> sessionId).
Proof.
  unfold findSession. induction ss as [|s r IH]; cbn [find].
  - split; [intros _ s Hs; inversion Hs | reflexivity].
  - destruct (bool_decide (id s = sessionId)) eqn:E.
    + apply bool_decide_eq_true in E. split; [discriminate|].
      intros H. exfalso. apply (H s); [left | exact E].
    + apply bool_decide_eq_false in E. rewrite IH. split.
      * intros H x Hx. apply elem_of_cons in Hx as [->|Hx]; [exact E | now apply H].
      * intros H x Hx. apply H. now right.
Qed.

Lemma findSession_id (sessionId : string) (ss : list SessionConfig) (s : SessionConfig) :
  findSession sessionId ss = Some s -> id s = sessionId.
Proof.
  unfold findSession. intros H. apply find_some in H as [_ H].
  now apply bool_decide_eq_true in H.
Qed.

Lemma launches_logEvents (lc : bool) (t : LogType) (m : string) :
  launches (logEvents lc t m) = [].
Proof. destruct lc; reflexivity. Qed.

Lemma launches_prologue (w : World) (sessionId : string) (session : SessionConfig)
    (lc : bool) :
  launches (prologue w sessionId session lc) = [].
Proof.
  unfold prologue. rewrite !launches_app, !launches_logEvents.
  destruct (syncStartCallback w); reflexivity.
Qed.

Lemma launches_epilogue (w : World) (sessionId : string) (session : SessionConfig)
    (lc : bool) (e : SyncEnv) (o : Outcome) (snapshot : list SessionConfig) :
  launches (epilogue w sessionId session lc e o snapshot) = [].
Proof.
  unfold epilogue, saveEvents.
  destruct o; rewrite !launches_app, !launches_logEvents;
    destruct (saveSessionsCallback w), (saveError e), (notificationCallback w),
      (notifyError e), (syncEndCallback w), lc; reflexivity.
Qed.

Lemma mutateSession_mutate (sessionId : string) (f g : SessionConfig -> SessionConfig)
    (ss : list SessionConfig) :
  (forall s, id (f s) = id s) ->
  mutateSession sessionId g (mutateSession sessionId f ss)
  = mutateSession sessionId (fun s => g (f s)) ss.
Proof.
  intros Hf. induction ss as [|s r IH]; [reflexivity|].
  cbn [mutateSession]. destruct (bool_decide (id s = sessionId)) eqn:E; cbn [mutateSession].
  - now rewrite Hf, E.
  - now rewrite E, IH.
Qed.

Lemma mutateSession_ext (sessionId : string) (f g : SessionConfig -> SessionConfig)
    (ss : list SessionConfig) :
  (forall s, f s = g s) -> mutateSession sessionId f ss = mutateSession sessionId g ss.
Proof.
  intros H. induction ss as [|s r IH]; [reflexivity|].
  cbn [mutateSession]. now rewrite H, IH.
Qed.

Lemma mutateSession_absent (sessionId : string) (f : SessionConfig -> SessionConfig)
    (ss : list SessionConfig) :
  findSession sessionId ss = None -> mutateSession sessionId f ss = ss.
Proof.
  unfold findSession. induction ss as [|s r IH]; [reflexivity|].
  cbn [find mutateSession]. destruct (bool_decide (id s = sessionId)); [discriminate|].
  intros H. now rewrite IH.
Qed.

Lemma setSessionPaused_sessions (b : bool) (word sessionId : string)
    (saveErr : option string) (w : World) :
  sessions (setSessionPaused b word sessionId saveErr w)
  = mutateSession sessionId (setPaused b) (sessions w).
Proof.
  unfold setSessionPaused.
  destruct (findSession sessionId (sessions w)) as [session|] eqn:Hf.
  - cbv zeta.
    match goal with |- sessions (if ?c then _ else _) = _ => destruct c end;
      [destruct saveErr|]; reflexivity.
  - symmetry. now apply mutateSession_absent.
Qed.

Lemma setSessionPaused_trace (b : bool) (word sessionId : string) (session : SessionConfig)
    (saveErr : option string) (w : World) :
  findSession sessionId (sessions w) = Some session ->
  trace (setSessionPaused b word sessionId saveErr w)
  = trace w
    ++ Console ("Session " +:+ JS.dquote +:+ name session +:+ JS.dquote +:+ " " +:+ word)
    :: (if saveSessionsCallback w
        then Save (mutateSession sessionId (setPaused b) (sessions w))
               :: match saveErr with Some err => [Console err] | None => [] end
        else []).
Proof.
  intros Hf. unfold setSessionPaused. rewrite Hf. cbv zeta.
  cbn [saveSessionsCallback console emit set_trace set_sessions sessions trace].
  destruct (saveSessionsCallback w); [destruct saveErr|];
    cbn [console emit set_trace trace]; rewrite <- ?app_assoc; reflexivity.
Qed.



(** X2. One run of the executor launches the subprocess at most once: once,
    with the command line of the session and the password in the
    environment, when the source directory exists and the session has a
    remote connection; not at all otherwise. In that case the run fails
    fast: it rejects with the message of the first check that failed, the
    source before the connection, and records that message in the session
    with the status [error]. *)
Theorem X2_launch_or_fail_fast (w : World) (sessionId : string) (session : SessionConfig)
    (logCallback : bool) (e : SyncEnv) :
  findSession sessionId (sessions w) = Some session ->
  let w' := fst (syncSession sessionId logCallback e w) in
  let ready := sourceExists e && bool_decide (is_Some (remoteConnection session)) in
  launches (newEvents w w')
  = (if ready then [(buildCommand session, rsyncPassword session)] else [])
  /\ (ready = false ->
      let m := if sourceExists e then "Remote connection configuration is required"
               else "Source directory does not exist: " +:+ sourcePath session in
      snd (syncSession sessionId logCallback e w) = Rejected m
      /\ findSession sessionId (sessions w')
         = Some (recordOutcome (nowISO e) StatusError (Some m) session)).
Proof.
  intros Hf w' ready.
  destruct (syncSession_form sessionId session logCallback e w Hf) as (d & _ & Hl & Heq).
  assert (Hw : launches (newEvents w w') = rsyncLaunches session e).
  { subst w'. rewrite Heq. cbn [fst]. rewrite newEvents_emit_sessions.
    now rewrite !launches_app, launches_prologue, launches_epilogue, Hl, app_nil_r. }
  split.
  - rewrite Hw. subst ready. unfold rsyncLaunches.
    destruct (sourceExists e); [|reflexivity].
    destruct (remoteConnection session); cbn [negb andb].
    + now rewrite bool_decide_eq_true_2 by (eexists; reflexivity).
    + rewrite bool_decide_eq_false_2; [reflexivity|]. intros [x Hx]. discriminate.
  - intros Hr m.
    assert (Ho : rsyncOutcome session e = Rejected m).
    { subst ready m. unfold rsyncOutcome.
      destruct (sourceExists e); [|reflexivity].
      destruct (remoteConnection session); [|reflexivity].
      cbn [andb] in Hr. apply bool_decide_eq_false in Hr.
      exfalso. apply Hr. eexists. reflexivity. }
    subst w'. rewrite Heq, Ho. cbn [fst snd]. split; [reflexivity|].
    cbn [sessions emit set_trace set_sessions outcomeRecord].
    apply findSession_mutate; [reflexivity | exact Hf].
Qed.

Lemma X2_launch_or_fail_fast_witness :
  findSession "s1" (sessions scenarioWorld) = Some scenarioSession
  /\ launches (newEvents scenarioWorld (fst (syncSession "s1" true envOk scenarioWorld)))
     = [(buildCommand scenarioSession, None)].
Proof.
  split; [reflexivity|].
  exact (proj1 (X2_launch_or_fail_fast scenarioWorld "s1" scenarioSession true envOk
                  eq_refl)).
Defined.

(** X3. The manager never edits what the user configured. Whatever timers
    fire, files change, time passes, and whatever start, stop, pause and
    resume calls are made, the sessions keep their number, their order and
    every field but the pause flag and the record of the last sync; only
    a call that hands the manager another collection changes them. *)
Theorem X3_settings_survive (w : World) (inputs : list Input) :
  forallb (fun i => negb (replacesSessions i)) inputs = true ->
  map config (sessions (run w inputs)) = map config (sessions w).
Proof.
  revert w. induction inputs as [|i r IH]; intros w H; [reflexivity|].
  cbn [forallb] in H. apply andb_true_iff in H as [Hi Hr].
  unfold run. cbn [fold_left]. fold (run (step w i) r).
  rewrite (IH _ Hr). apply config_step. now apply negb_true_iff.
Qed.

Lemma X3_settings_survive_witness :
  forallb (fun i => negb (replacesSessions i))
    [Elapse 5000; TimerFires 0 (fireEnv (at_ 1 9 0) None); CallPauseSession "a" None;
     CallStop] = true
  /\ map config
       (sessions (run (boot [startupSession])
                    [Elapse 5000; TimerFires 0 (fireEnv (at_ 1 9 0) None);
                     CallPauseSession "a" None; CallStop]))
     = map config (sessions (boot [startupSession])).
Proof.
  split; [reflexivity|].
  apply (X3_settings_survive (boot [startupSession])
           [Elapse 5000; TimerFires 0 (fireEnv (at_ 1 9 0) None);
            CallPauseSession "a" None; CallStop]).
  reflexivity.
Defined.




(** ** The host at work while the manager is paused *)

Lemma idles_refl (w : World) : idles w w.
Proof. split; [exists []; now rewrite app_nil_r | split; reflexivity]. Qed.

Lemma idles_trans (a b c : World) : idles a b -> idles b c -> idles a c.
Proof.
  intros ((d1 & T1 & I1) & S1 & G1) ((d2 & T2 & I2) & S2 & G2).
  split; [|split; congruence].
  exists (d1 ++ d2). split.
  - now rewrite T2, T1, app_assoc.
  - rewrite forallb_app. now rewrite I1, I2.
Qed.

Lemma idles_emit (d : list Event) (w : World) :
  forallb idleEvent d = true -> idles w (emit d w).
Proof. intros Hd. split; [exists d; now split | split; reflexivity]. Qed.

Lemma idles_same (w w' : World) :
  trace w' = trace w -> sessions w' = sessions w -> globallyPaused w' = globallyPaused w ->
  idles w w'.
Proof.
  intros T S G. split; [exists []; now rewrite app_nil_r | now split].
Qed.

Lemma idles_fold_left {A} (f : World -> A -> World) (l : list A) (w : World) :
  (forall w0 x, globallyPaused w0 = true -> idles w0 (f w0 x)) ->
  globallyPaused w = true -> idles w (fold_left f l w).
Proof.
  intros Hf. revert w. induction l as [|x l IH]; intros w Hg; [apply idles_refl|].
  simpl. pose proof (Hf w x Hg) as H1.
  eapply idles_trans; [exact H1|]. apply IH.
  destruct H1 as (_ & _ & ->). exact Hg.
Qed.

Lemma idles_requestSync (sessionId : string) (e : SyncEnv) (w : World) :
  globallyPaused w = true -> idles w (requestSync sessionId e w).
Proof.
  intros Hg. destruct (requestSync_globallyPaused sessionId e w Hg) as [l ->].
  now apply idles_emit.
Qed.

Lemma idles_console_requestSync (line sessionId : string) (e : SyncEnv) (w : World) :
  globallyPaused w = true -> idles w (requestSync sessionId e (console line w)).
Proof.
  intros Hg. eapply idles_trans; [apply (idles_emit [Console line]); reflexivity|].
  now apply idles_requestSync.
Qed.

Lemma idles_checkWiFiTrigger (sid sn : string) (prev cur : option string)
    (fe : FireEnv) (w : World) (trigger : Trigger) :
  globallyPaused w = true -> idles w (checkWiFiTrigger sid sn prev cur fe w trigger).
Proof.
  intros Hg. destruct trigger as [t| | | |]; try apply idles_refl. cbn [checkWiFiTrigger].
  set (w1 := if wifiOnConnect t cur then _ else w).
  assert (H1 : idles w w1).
  { subst w1. destruct (wifiOnConnect t cur); [|apply idles_refl].
    now apply idles_console_requestSync. }
  destruct (wifiOnDisconnect t prev cur); [|exact H1].
  eapply idles_trans; [exact H1|]. apply idles_console_requestSync.
  destruct H1 as (_ & _ & ->). exact Hg.
Qed.

Lemma idles_runCallback (cb : Callback) (fe : FireEnv) (w : World) :
  globallyPaused w = true -> idles w (runCallback cb fe w).
Proof.
  intros Hg. destruct cb as [|sid sn t|sid sn k f|sid sn t|sid sn t|]; cbn [runCallback].
  - now apply idles_same.
  - unfold checkSchedule.
    destruct (scheduleTimeMatches t (date fe)); [|apply idles_refl].
    destruct (scheduleShouldTrigger t (date fe)); [|apply idles_refl].
    now apply idles_console_requestSync.
  - cbv zeta. eapply idles_trans; [now apply idles_console_requestSync|].
    now apply idles_same.
  - now apply idles_console_requestSync.
  - unfold executeSync.
    destruct (intervalInWindow t (date fe)); [|apply idles_refl].
    now apply idles_console_requestSync.
  - unfold checkNetwork.
    destruct (bool_decide (sampledSSID fe = currentSSID w)); [apply idles_refl|].
    cbv zeta.
    eapply idles_trans;
      [apply (idles_same w (set_currentSSID (sampledSSID fe) w)); reflexivity|].
    apply idles_fold_left; [|exact Hg].
    intros w0 s H0. apply idles_fold_left; [|exact H0].
    intros w1 t H1. now apply idles_checkWiFiTrigger.
Qed.

Lemma idles_fireTimer (h : nat) (fe : FireEnv) (w : World) :
  globallyPaused w = true -> idles w (fireTimer h fe w).
Proof.
  intros Hg. unfold fireTimer. destruct (liveTimers w !! h) as [t|]; [|apply idles_refl].
  destruct (due t <=? clock w); [|apply idles_refl].
  eapply idles_trans; [|apply idles_runCallback; destruct (repeating t); exact Hg].
  destruct (repeating t).
  - split; [exists [Ran h (callback t)]; now split | split; reflexivity].
  - split; [exists [Ran h (callback t)]; now split | split; reflexivity].
Qed.

Lemma idles_fileEvent (h : nat) (filename : option string)
    (regexTest : string -> string -> bool) (w : World) :
  idles w (fileEvent h filename regexTest w).
Proof.
  unfold fileEvent. destruct (openWatchers w !! h) as [wt|]; [|apply idles_refl].
  unfold onFileChange. destruct filename as [f|]; [|apply idles_refl].
  destruct (JS.truthy f); [|apply idles_refl].
  destruct (negb _); [|apply idles_refl].
  cbv zeta. destruct (timers w !! _); now apply idles_same.
Qed.

Lemma idles_launches (d : list Event) : forallb idleEvent d = true -> launches d = [].
Proof.
  induction d as [|ev d IH]; [reflexivity|]. cbn [forallb]. intros H.
  apply andb_true_iff in H as [H1 H2]. destruct ev; try discriminate; now apply IH.
Qed.

Lemma idles_syncStarts (d : list Event) :
  forallb idleEvent d = true -> List.filter isSyncStart d = [].
Proof.
  induction d as [|ev d IH]; [reflexivity|]. cbn [forallb]. intros H.
  apply andb_true_iff in H as [H1 H2]. destruct ev; try discriminate; now apply IH.
Qed.

(** X6. While the global pause is on, the host can do what it likes: let
    timers fire, deliver filesystem events, let time pass. No run of the
    executor starts, no subprocess is launched, no session is touched, and
    the pause stays on; all that is added to the trace are console lines
    and the runs of the timer callbacks themselves. *)
Theorem X6_global_pause_holds (w : World) (inputs : list Input) :
  globallyPaused w = true ->
  forallb hostInput inputs = true ->
  let w' := run w inputs in
  globallyPaused w' = true
  /\ sessions w' = sessions w
  /\ trace w' = trace w ++ newEvents w w'
  /\ forallb idleEvent (newEvents w w') = true
  /\ List.filter isSyncStart (newEvents w w') = []
  /\ launches (newEvents w w') = [].
Proof.
  intros Hg Hin w'.
  assert (H : idles w w').
  { subst w'. revert w Hg. induction inputs as [|i r IH]; intros w Hg; [apply idles_refl|].
    cbn [forallb] in Hin. apply andb_true_iff in Hin as [Hi Hr].
    unfold run. cbn [fold_left]. fold (run (step w i) r).
    assert (H1 : idles w (step w i)).
    { destruct i; try discriminate; cbn [step].
      - now apply idles_fireTimer.
      - apply idles_fileEvent.
      - now apply idles_same. }
    eapply idles_trans; [exact H1|]. apply IH; [exact Hr|].
    destruct H1 as (_ & _ & ->). exact Hg. }
  destruct H as ((d & T & I) & S & G).
  rewrite (newEvents_grows w w' d T).
  repeat split; try assumption.
  - now rewrite G.
  - now apply idles_syncStarts.
  - now apply idles_launches.
Qed.

Lemma X6_global_pause_holds_witness :
  globallyPaused (pauseAllSessions (boot [startupSession])) = true
  /\ forallb hostInput [Elapse 5000; TimerFires 0 (fireEnv (at_ 1 9 0) None)] = true
  /\ List.filter isSyncStart
       (newEvents (pauseAllSessions (boot [startupSession]))
          (run (pauseAllSessions (boot [startupSession]))
             [Elapse 5000; TimerFires 0 (fireEnv (at_ 1 9 0) None)])) = [].
Proof.
  split; [reflexivity|]. split; [reflexivity|].
  exact (proj1 (proj2 (proj2 (proj2 (proj2
           (X6_global_pause_holds (pauseAllSessions (boot [startupSession]))
              [Elapse 5000; TimerFires 0 (fireEnv (at_ 1 9 0) None)]
              eq_refl eq_refl)))))).
Defined.


(** ** What [stop] releases *)

Lemma liveTimers_foldr_clearTimer (l : list nat) (w : World) :
  liveTimers (foldr clearTimer w l) = foldr delete (liveTimers w) l.
Proof.
  induction l as [|h l IH]; [reflexivity|].
  cbn [foldr clearTimer liveTimers set_liveTimers]. now rewrite IH.
Qed.

Lemma openWatchers_foldr_clearTimer (l : list nat) (w : World) :
  openWatchers (foldr clearTimer w l) = openWatchers w.
Proof. induction l as [|h l IH]; [reflexivity | exact IH]. Qed.

Lemma fileWatchers_foldr_clearTimer (l : list nat) (w : World) :
  fileWatchers (foldr clearTimer w l) = fileWatchers w.
Proof. induction l as [|h l IH]; [reflexivity | exact IH]. Qed.

Lemma networkWatcher_foldr_clearTimer (l : list nat) (w : World) :
  networkWatcher (foldr clearTimer w l) = networkWatcher w.
Proof. induction l as [|h l IH]; [reflexivity | exact IH]. Qed.

Lemma openWatchers_foldr_closeWatcher (l : list nat) (w : World) :
  openWatchers (foldr closeWatcher w l) = foldr delete (openWatchers w) l.
Proof.
  induction l as [|h l IH]; [reflexivity|].
  cbn [foldr closeWatcher openWatchers set_openWatchers]. now rewrite IH.
Qed.

Lemma liveTimers_foldr_closeWatcher (l : list nat) (w : World) :
  liveTimers (foldr closeWatcher w l) = liveTimers w.
Proof. induction l as [|h l IH]; [reflexivity | exact IH]. Qed.

Lemma networkWatcher_foldr_closeWatcher (l : list nat) (w : World) :
  networkWatcher (foldr closeWatcher w l) = networkWatcher w.
Proof. induction l as [|h l IH]; [reflexivity | exact IH]. Qed.

Lemma lookup_foldr_delete {V} (l : list nat) (m : gmap nat V) (h : nat) :
  foldr delete m l !! h = if bool_decide (h ∈ l) then None else m !! h.
Proof.
  induction l as [|x l IH]; [reflexivity|]. cbn [foldr].
  destruct (decide (x = h)) as [->|Hne].
  - rewrite lookup_delete_eq. rewrite bool_decide_eq_true_2 by left. reflexivity.
  - rewrite lookup_delete_ne by exact Hne. rewrite IH.
    destruct (bool_decide (h ∈ l)) eqn:E.
    + apply bool_decide_eq_true in E. rewrite bool_decide_eq_true_2 by (now right). reflexivity.
    + apply bool_decide_eq_false in E. rewrite bool_decide_eq_false_2; [reflexivity|].
      intros H. apply elem_of_cons in H as [->|H]; [now apply Hne | now apply E].
Qed.

Lemma elem_of_concat {A} (x : A) (ls : list (list A)) :
  x ∈ concat ls <-> exists l, x ∈ l /\ l ∈ ls.
Proof.
  induction ls as [|l0 ls IH]; cbn [concat].
  - split; [intros H; inversion H | intros (l & _ & H); inversion H].
  - rewrite elem_of_app, IH. split.
    + intros [H|(l & H1 & H2)]; [exists l0; split; [exact H | left]|].
      exists l. split; [exact H1 | now right].
    + intros (l & H1 & H2). apply elem_of_cons in H2 as [->|H2]; [now left|].
      right. now exists l.
Qed.

(** The fields of [stop w], one by one. *)
Lemma stop_fields (w : World) :
  timers (stop w) = ∅
  /\ fileWatchers (stop w) = ∅
  /\ networkWatcher (stop w) = None
  /\ openWatchers (stop w)
     = foldr delete (openWatchers w) (concat (snd <$> map_to_list (fileWatchers w)))
  /\ liveTimers (stop w)
     = match networkWatcher w with
       | Some timer =>
           delete timer (foldr delete (liveTimers w) (snd <$> map_to_list (timers w)))
       | None => foldr delete (liveTimers w) (snd <$> map_to_list (timers w))
       end
  /\ nextHandle (stop w) = nextHandle w.
Proof.
  unfold stop. cbv zeta.
  set (l1 := snd <$> map_to_list (timers w)).
  set (w1 := foldr clearTimer w l1).
  assert (F1 : fileWatchers (set_timers ∅ w1) = fileWatchers w)
    by apply fileWatchers_foldr_clearTimer.
  rewrite F1.
  set (l2 := concat (snd <$> map_to_list (fileWatchers w))).
  set (w2 := foldr closeWatcher (set_timers ∅ w1) l2).
  assert (N2 : networkWatcher w2 = networkWatcher w).
  { subst w2. rewrite networkWatcher_foldr_closeWatcher.
    apply networkWatcher_foldr_clearTimer. }
  assert (O2 : openWatchers w2 = foldr delete (openWatchers w) l2).
  { subst w2. rewrite openWatchers_foldr_closeWatcher. cbn [openWatchers set_timers].
    subst w1. now rewrite openWatchers_foldr_clearTimer. }
  assert (L2 : liveTimers w2 = foldr delete (liveTimers w) l1).
  { subst w2. rewrite liveTimers_foldr_closeWatcher. cbn [liveTimers set_timers].
    apply liveTimers_foldr_clearTimer. }
  assert (T2 : timers w2 = ∅).
  { subst w2. clear. induction l2 as [|h l IH]; [reflexivity | exact IH]. }
  assert (H2 : nextHandle w2 = nextHandle w).
  { subst w2. transitivity (nextHandle w1).
    - clear. induction l2 as [|h l IH]; [reflexivity | exact IH].
    - subst w1. clear. induction l1 as [|h l IH]; [reflexivity | exact IH]. }
  cbn [networkWatcher set_fileWatchers]. rewrite N2.
  destruct (networkWatcher w) as [timer|];
    cbn [timers fileWatchers networkWatcher openWatchers liveTimers nextHandle
         set_networkWatcher clearTimer set_liveTimers set_fileWatchers];
    rewrite ?L2; repeat split; assumption.
Qed.

Lemma stop_idle (w : World) :
  timers w = ∅ -> fileWatchers w = ∅ -> networkWatcher w = None -> stop w = w.
Proof.
  destruct w as [s0 t0 f0 n0 c0 l0 g0 b1 b2 b3 b4 b5 k0 h0 lt0 ow0 tr0].
  cbn [timers fileWatchers networkWatcher]. intros -> -> ->.
  unfold stop. cbv zeta. cbn [timers]. rewrite map_to_list_empty.
  cbn [fmap list_fmap foldr set_timers fileWatchers]. rewrite map_to_list_empty.
  reflexivity.
Qed.

(** X8. What [stop] releases. It empties the two tables and forgets the
    polling timer; every timer whose handle was in the table, and the
    polling timer, is cancelled; every watcher whose handle was in the
    table is closed. It leaves the sessions, the pause switch, the network
    identity, the latch and the trace as they were, writes nothing to the
    console, and a second [stop] changes nothing. *)
Theorem X8_stop_releases (w : World) :
  timers (stop w) = ∅
  /\ fileWatchers (stop w) = ∅
  /\ networkWatcher (stop w) = None
  /\ (forall k h, timers w !! k = Some h -> liveTimers (stop w) !! h = None)
  /\ (forall h, networkWatcher w = Some h -> liveTimers (stop w) !! h = None)
  /\ (forall k l h, fileWatchers w !! k = Some l -> h ∈ l ->
        openWatchers (stop w) !! h = None)
  /\ sameSessions w (stop w)
  /\ trace (stop w) = trace w
  /\ stop (stop w) = stop w.
Proof.
  destruct (stop_fields w) as (T & F & N & O & L & _).
  split; [exact T|]. split; [exact F|]. split; [exact N|]. split.
  { intros k h Hk. rewrite L.
    assert (Hin : h ∈ snd <$> map_to_list (timers w)).
    { apply list_elem_of_fmap. exists (k, h). split; [reflexivity|].
      now apply elem_of_map_to_list. }
    destruct (networkWatcher w) as [timer|].
    - destruct (decide (timer = h)) as [->|Hne];
        [apply lookup_delete_eq | rewrite lookup_delete_ne by exact Hne].
      rewrite lookup_foldr_delete. now rewrite bool_decide_eq_true_2.
    - rewrite lookup_foldr_delete. now rewrite bool_decide_eq_true_2. }
  split.
  { intros h Hh. rewrite L, Hh. apply lookup_delete_eq. }
  split.
  { intros k l h Hk Hl. rewrite O, lookup_foldr_delete.
    rewrite bool_decide_eq_true_2; [reflexivity|].
    apply elem_of_concat. exists l. split; [exact Hl|].
    apply list_elem_of_fmap. exists (k, l). split; [reflexivity|].
    now apply elem_of_map_to_list. }
  split; [apply sameSessions_stop|].
  split; [apply trace_stop|].
  now apply stop_idle.
Qed.

(** ** Open watchers are on record *)

Lemma watchersRecorded_sameSetup (w w' : World) :
  sameSetup w w' -> watchersRecorded w -> watchersRecorded w'.
Proof.
  intros (O & F & _ & _) H h wt Hh. rewrite O in Hh. rewrite F. now apply H.
Qed.

Lemma watchersRecorded_same (w w' : World) :
  openWatchers w' = openWatchers w -> fileWatchers w' = fileWatchers w ->
  watchersRecorded w -> watchersRecorded w'.
Proof.
  intros O F H h wt Hh. rewrite O in Hh. rewrite F. now apply H.
Qed.

Lemma watchOne_step (session : SessionConfig) (t : FileChangeTrigger)
    (watchOk : string -> bool) (acc : list nat * World) (p : string) :
  let r := watchOne session t watchOk acc p in
  fileWatchers (snd r) = fileWatchers (snd acc)
  /\ (exists new, fst r = fst acc ++ new)
  /\ (forall h wt, openWatchers (snd r) !! h = Some wt ->
        openWatchers (snd acc) !! h = Some wt
        \/ (h ∈ fst r /\ watchSessionId wt = id session)).
Proof.
  destruct acc as [ws w]. unfold watchOne. destruct (watchOk p); cbn [fst snd].
  - split; [reflexivity|]. split; [eexists; reflexivity|].
    intros h wt Hh. cbn [openWatchers set_nextHandle set_openWatchers] in Hh.
    apply lookup_insert_Some in Hh as [[E1 E2]|[_ Hh]]; [|now left].
    right. subst h wt. split; [|reflexivity]. apply elem_of_app. right. left.
  - split; [reflexivity|]. split; [exists []; now rewrite app_nil_r|].
    intros h wt Hh. now left.
Qed.

Lemma watchOne_fold (session : SessionConfig) (t : FileChangeTrigger)
    (watchOk : string -> bool) (paths : list string) (acc : list nat * World) :
  let r := fold_left (watchOne session t watchOk) paths acc in
  fileWatchers (snd r) = fileWatchers (snd acc)
  /\ (exists new, fst r = fst acc ++ new)
  /\ (forall h wt, openWatchers (snd r) !! h = Some wt ->
        openWatchers (snd acc) !! h = Some wt
        \/ (h ∈ fst r /\ watchSessionId wt = id session)).
Proof.
  revert acc. induction paths as [|p paths IH]; intros acc r.
  - subst r. cbn [fold_left]. split; [reflexivity|].
    split; [exists []; now rewrite app_nil_r|]. intros h wt Hh. now left.
  - subst r. cbn [fold_left].
    destruct (IH (watchOne session t watchOk acc p)) as (F & (new & E) & O).
    destruct (watchOne_step session t watchOk acc p) as (F1 & (new1 & E1) & O1).
    split; [now rewrite F|]. split.
    + exists (new1 ++ new). now rewrite E, E1, app_assoc.
    + intros h wt Hh. apply O in Hh as [Hh|Hh]; [|now right].
      apply O1 in Hh as [Hh|[Hh Hid]]; [now left|]. right. split; [|exact Hid].
      rewrite E. apply elem_of_app. now left.
Qed.

Lemma watchersRecorded_setupFileChangeTrigger (session : SessionConfig)
    (t : FileChangeTrigger) (watchOk : string -> bool) (w : World) :
  watchersRecorded w -> watchersRecorded (setupFileChangeTrigger session t watchOk w).
Proof.
  intros H. unfold setupFileChangeTrigger.
  pose proof (watchOne_fold session t watchOk (watchPaths t) ([], w)) as (F & _ & O).
  destruct (fold_left _ _ _) as [ws w1]. cbn [fst snd] in F, O.
  intros h wt Hh. cbn [openWatchers fileWatchers set_fileWatchers] in *.
  rewrite F.
  destruct (decide (watchSessionId wt = id session)) as [E|Hne].
  - rewrite E, lookup_insert_eq. eexists. split; [reflexivity|].
    apply elem_of_app. apply O in Hh as [Hh|[Hh _]]; [left | now right].
    destruct (H h wt Hh) as (l & Hl & Hin). rewrite E in Hl. now rewrite Hl.
  - rewrite lookup_insert_ne by congruence.
    apply O in Hh as [Hh|[_ Hh]]; [now apply H | contradiction].
Qed.

Lemma sameSetup_setTimer (cb : Callback) (d : Z) (rep : bool) (w : World) :
  sameSetup w (snd (setTimer cb d rep w)).
Proof. repeat split. Qed.

Lemma watchersRecorded_setupTrigger (session : SessionConfig) (watchOk : string -> bool)
    (w : World) (trigger : Trigger) :
  watchersRecorded w -> watchersRecorded (setupTrigger session watchOk w trigger).
Proof.
  destruct trigger as [t|t|t|t|t]; cbn [setupTrigger].
  - apply watchersRecorded_same;
      unfold setupWiFiTrigger; destruct (networkWatcher w); reflexivity.
  - apply watchersRecorded_same;
      unfold setupScheduleTrigger; destruct (JS.truthy (time t)); reflexivity.
  - apply watchersRecorded_setupFileChangeTrigger.
  - apply watchersRecorded_same;
      unfold setupStartupTrigger; destruct (negb _); reflexivity.
  - apply watchersRecorded_same; reflexivity.
Qed.

Lemma watchersRecorded_fold_left {A} (f : World -> A -> World) (l : list A) (w : World) :
  (forall w0 x, watchersRecorded w0 -> watchersRecorded (f w0 x)) ->
  watchersRecorded w -> watchersRecorded (fold_left f l w).
Proof.
  intros Hf. revert w. induction l as [|x l IH]; intros w H; [exact H|].
  simpl. apply IH, Hf, H.
Qed.

Lemma watchersRecorded_start (watchOk : string -> bool) (w : World) :
  watchersRecorded w -> watchersRecorded (start watchOk w).
Proof.
  intros H. unfold start. cbv zeta.
  apply (watchersRecorded_sameSetup _ _ (sameSetup_setTimer _ _ _ _)).
  apply watchersRecorded_fold_left; [|exact H].
  intros w0 s H0. unfold armSession. destruct (enabled s); [|exact H0].
  apply watchersRecorded_fold_left; [|exact H0].
  intros w1 t. apply watchersRecorded_setupTrigger.
Qed.

Lemma openWatchers_stop (w : World) : watchersRecorded w -> openWatchers (stop w) = ∅.
Proof.
  intros H. apply map_eq. intros h. rewrite lookup_empty.
  destruct (stop_fields w) as (_ & _ & _ & O & _). rewrite O, lookup_foldr_delete.
  destruct (bool_decide _) eqn:E; [reflexivity|].
  apply bool_decide_eq_false in E.
  destruct (openWatchers w !! h) as [wt|] eqn:Hh; [|reflexivity].
  exfalso. apply E. destruct (H h wt Hh) as (l & Hl & Hin).
  apply elem_of_concat. exists l. split; [exact Hin|].
  apply list_elem_of_fmap. exists (watchSessionId wt, l). split; [reflexivity|].
  now apply elem_of_map_to_list.
Qed.

Lemma watchersRecorded_stop (w : World) : watchersRecorded w -> watchersRecorded (stop w).
Proof.
  intros H h wt Hh. rewrite (openWatchers_stop w H), lookup_empty in Hh. discriminate.
Qed.

Lemma watchersRecorded_updateSessions (ss : list SessionConfig) (watchOk : string -> bool)
    (w : World) :
  watchersRecorded w -> watchersRecorded (updateSessions ss watchOk w).
Proof.
  intros H. unfold updateSessions. apply watchersRecorded_start.
  apply (watchersRecorded_same (stop w)); [reflexivity..|].
  now apply watchersRecorded_stop.
Qed.

Lemma watchersRecorded_step (w : World) (i : Input) :
  watchersRecorded w -> watchersRecorded (step w i).
Proof.
  intros H. destruct i; cbn [step].
  - exact (watchersRecorded_sameSetup _ _ (sameSetup_fireTimer _ _ _) H).
  - exact (watchersRecorded_sameSetup _ _ (sameSetup_fileEvent _ _ _ _) H).
  - exact H.
  - now apply watchersRecorded_start.
  - now apply watchersRecorded_stop.
  - now apply watchersRecorded_updateSessions.
  - exact H.
  - exact H.
  - exact (watchersRecorded_sameSetup _ _ (sameSetup_setSessionPaused _ _ _ _ _) H).
  - exact (watchersRecorded_sameSetup _ _ (sameSetup_setSessionPaused _ _ _ _ _) H).
  - unfold syncNow.
    pose proof (sameSetup_syncSession sessionId true e w) as H1.
    destruct (syncSession sessionId true e w) as [w1 [|m]]; cbn [fst] in *.
    + destruct (findSession sessionId disk); cbn [fst].
      * apply watchersRecorded_updateSessions.
        apply (watchersRecorded_sameSetup w1); [apply sameSetup_emit|].
        now apply (watchersRecorded_sameSetup w).
      * apply (watchersRecorded_sameSetup w1); [apply sameSetup_emit|].
        now apply (watchersRecorded_sameSetup w).
    + apply (watchersRecorded_sameSetup w1); [apply sameSetup_console|].
      now apply (watchersRecorded_sameSetup w).
Qed.

(** X9. Watchers do not leak. In every state the manager can reach from its
    construction, whatever is called and whatever the host delivers, each
    open watcher is recorded under the id of the session it was opened for;
    so [stop] closes every watcher there is. *)
Theorem X9_watchers_never_leak (ss : list SessionConfig)
    (save notify syncStart syncEnd logFactory : bool) (now : Z) (inputs : list Input) :
  let w := run (create ss save notify syncStart syncEnd logFactory now) inputs in
  (forall h wt, openWatchers w !! h = Some wt ->
     exists l, fileWatchers w !! watchSessionId wt = Some l /\ h ∈ l)
  /\ openWatchers (stop w) = ∅.
Proof.
  intros w.
  assert (H : watchersRecorded w).
  { subst w. unfold run.
    apply watchersRecorded_fold_left; [intros w0 i; apply watchersRecorded_step|].
    intros h wt Hh. cbn [openWatchers create] in Hh. rewrite lookup_empty in Hh.
    discriminate. }
  split; [exact H | now apply openWatchers_stop].
Qed.

(** ** Re-arming *)

Lemma sameSessions_updateSessions (ss : list SessionConfig) (watchOk : string -> bool)
    (w : World) :
  sessions (updateSessions ss watchOk w) = ss
  /\ globallyPaused (updateSessions ss watchOk w) = globallyPaused w
  /\ currentSSID (updateSessions ss watchOk w) = currentSSID w
  /\ startupTriggersExecuted (updateSessions ss watchOk w) = startupTriggersExecuted w
  /\ clock (updateSessions ss watchOk w) = clock w
  /\ callbacks (updateSessions ss watchOk w) = callbacks w.
Proof.
  unfold updateSessions.
  destruct (sameSessions_start watchOk (set_sessions ss (stop w)))
    as (A1 & A2 & A3 & A4 & A5 & A6).
  destruct (sameSessions_stop w) as (B1 & B2 & B3 & B4 & B5 & B6).
  change (callbacks (set_sessions ss (stop w))) with (callbacks (stop w)) in A6.
  cbn [sessions globallyPaused currentSSID startupTriggersExecuted clock set_sessions] in *.
  repeat split; congruence.
Qed.

(** X7. Re-arming with another collection replaces the sessions and nothing
    else of the manager's own state: the global pause, the network identity
    last seen, the startup latch and the clock are as before. So the check
    of the network that a re-arm starts fires no WiFi trigger when the
    network has not changed, and a paused manager stays paused through an
    edit of its sessions. *)
Theorem X7_rearm_keeps (ss : list SessionConfig) (watchOk : string -> bool) (w : World) :
  let w' := updateSessions ss watchOk w in
  sessions w' = ss
  /\ globallyPaused w' = globallyPaused w
  /\ currentSSID w' = currentSSID w
  /\ startupTriggersExecuted w' = startupTriggersExecuted w
  /\ trace w' = trace w ++ newEvents w w'
  /\ forallb idleEvent (newEvents w w') = true
  /\ (forall fe, sampledSSID fe = currentSSID w -> checkNetwork fe w' = w')
  /\ (forall sessionId e, globallyPaused w = true ->
        snd (triggerSync sessionId e w') = Skipped).
Proof.
  intros w'. destruct (sameSessions_updateSessions ss watchOk w) as (S & G & C & L & _).
  fold w' in S, G, C, L.
  destruct (grows_updateSessions ss watchOk w) as [lines T]. fold w' in T.
  rewrite (newEvents_grows w w' _ T).
  repeat split; try assumption.
  - clear. induction lines as [|l r IH]; [reflexivity | exact IH].
  - intros fe Hfe. unfold checkNetwork. rewrite C.
    now rewrite bool_decide_eq_true_2.
  - intros sessionId e Hg. unfold triggerSync. now rewrite G, Hg.
Qed.

(** ** The [sync-now] handler *)




(** ** Watching paths *)

Lemma watchOne_eq (session : SessionConfig) (t : FileChangeTrigger)
    (watchOk : string -> bool) (ws : list nat) (w : World) (p : string) :
  watchOne session t watchOk (ws, w) p
  = if watchOk p
    then (ws ++ [nextHandle w],
          set_nextHandle (S (nextHandle w))
            (set_openWatchers (<[nextHandle w := watchOf session t p]> (openWatchers w)) w))
    else (ws, console ("Failed to watch path " +:+ p +:+ ":") w).
Proof. reflexivity. Qed.

Lemma watchOne_fold_exact (session : SessionConfig) (t : FileChangeTrigger)
    (watchOk : string -> bool) (paths : list string) (ws : list nat) (w : World) :
  let r := fold_left (watchOne session t watchOk) paths (ws, w) in
  let good := List.filter watchOk paths in
  let bad := List.filter (fun p => negb (watchOk p)) paths in
  fst r = ws ++ seq (nextHandle w) (length good)
  /\ nextHandle (snd r) = (nextHandle w + length good)%nat
  /\ (forall h, (h < nextHandle w)%nat -> openWatchers (snd r) !! h = openWatchers w !! h)
  /\ (forall i p, good !! i = Some p ->
        openWatchers (snd r) !! (nextHandle w + i)%nat = Some (watchOf session t p))
  /\ trace (snd r)
     = trace w ++ map (fun p => Console ("Failed to watch path " +:+ p +:+ ":")) bad
  /\ fileWatchers (snd r) = fileWatchers w
  /\ liveTimers (snd r) = liveTimers w
  /\ timers (snd r) = timers w.
Proof.
  revert ws w. induction paths as [|p paths IH]; intros ws w.
  - cbn [fold_left List.filter length seq fst snd map].
    rewrite !app_nil_r, Nat.add_0_r. repeat split. intros i p Hp. inversion Hp.
  - cbn [fold_left List.filter]. rewrite watchOne_eq. destruct (watchOk p); cbn [negb].
    + match goal with |- context [fold_left _ paths (?a, ?b)] =>
        specialize (IH a b) end.
      cbv zeta in IH. destruct IH as (E & N & Fr & Lk & T & F & L & Tm).
      cbn [nextHandle set_nextHandle set_openWatchers openWatchers trace fileWatchers
           liveTimers timers] in *.
      cbv zeta. cbn [length seq]. split; [now rewrite E, <- app_assoc|].
      split; [rewrite N; lia|]. split.
      { intros h Hh. rewrite Fr by lia. apply lookup_insert_ne. lia. }
      split.
      { intros [|i] q Hq.
        - cbn in Hq. injection Hq as <-. rewrite Nat.add_0_r, Fr by lia.
          apply lookup_insert_eq.
        - cbn in Hq. replace (nextHandle w + S i)%nat with (S (nextHandle w) + i)%nat by lia.
          now apply Lk. }
      repeat split; assumption.
    + specialize (IH ws (console ("Failed to watch path " +:+ p +:+ ":") w)).
      cbv zeta in IH. destruct IH as (E & N & Fr & Lk & T & F & L & Tm).
      cbv zeta. cbn [map]. repeat split; try assumption.
      rewrite T. cbn [trace console emit set_trace]. now rewrite <- app_assoc.
Qed.

(** X10. Arming a FileChange trigger. Each path that the host can watch
    gets a watcher with a fresh handle, in the order of the list; each path
    it cannot watch gets one line on the console and is skipped, without
    cutting the others short. The handles of the new watchers are appended
    to those already recorded for the session, and no timer is touched. *)
Theorem X10_watch_paths (session : SessionConfig) (t : FileChangeTrigger)
    (watchOk : string -> bool) (w : World) :
  let w' := setupFileChangeTrigger session t watchOk w in
  let good := List.filter watchOk (watchPaths t) in
  let bad := List.filter (fun p => negb (watchOk p)) (watchPaths t) in
  fileWatchers w' !! id session
  = Some (default [] (fileWatchers w !! id session) ++ seq (nextHandle w) (length good))
  /\ (forall k, k <> id session -> fileWatchers w' !! k = fileWatchers w !! k)
  /\ (forall i p, good !! i = Some p ->
        openWatchers w' !! (nextHandle w + i)%nat = Some (watchOf session t p))
  /\ (forall h, (h < nextHandle w)%nat -> openWatchers w' !! h = openWatchers w !! h)
  /\ nextHandle w' = (nextHandle w + length good)%nat
  /\ newEvents w w' = map (fun p => Console ("Failed to watch path " +:+ p +:+ ":")) bad
  /\ liveTimers w' = liveTimers w
  /\ timers w' = timers w.
Proof.
  intros w' good bad. subst w'. unfold setupFileChangeTrigger.
  pose proof (watchOne_fold_exact session t watchOk (watchPaths t) [] w) as H.
  cbv zeta in H. destruct (fold_left _ _ _) as [ws w1]. cbn [fst snd] in H.
  destruct H as (E & N & Fr & Lk & T & F & L & Tm).
  cbn [fileWatchers openWatchers nextHandle liveTimers timers set_fileWatchers].
  rewrite F, E. cbn [app].
  split; [apply lookup_insert_eq|].
  split; [intros k Hk; now apply lookup_insert_ne|].
  split; [exact Lk|]. split; [exact Fr|]. split; [exact N|].
  split; [|split; assumption].
  apply newEvents_grows. exact T.
Qed.

(** ** Debouncing *)

Lemma fileEvent_accepted (h : nat) (watch : Watch) (regexTest : string -> string -> bool)
    (f : string) (w : World) :
  openWatchers w !! h = Some watch ->
  accepted watch regexTest f = true ->
  let w' := fileEvent h (Some f) regexTest w in
  timers w' = <[debounceKeyOf watch := nextHandle w]> (timers w)
  /\ liveTimers w'
     = <[nextHandle w := debounceTimer watch f (clock w)]>
         (match timers w !! debounceKeyOf watch with
          | Some existingTimer => delete existingTimer (liveTimers w)
          | None => liveTimers w
          end)
  /\ nextHandle w' = S (nextHandle w)
  /\ openWatchers w' = openWatchers w
  /\ clock w' = clock w
  /\ trace w' = trace w.
Proof.
  intros Hh Ha w'. subst w'. unfold fileEvent. rewrite Hh. unfold onFileChange.
  unfold accepted in Ha. apply andb_true_iff in Ha as [A1 A2]. rewrite A1, A2.
  cbv zeta. fold (debounceKeyOf watch).
  destruct (timers w !! debounceKeyOf watch); repeat split.
Qed.

Lemma run_app (w : World) (a b : list Input) : run w (a ++ b) = run (run w a) b.
Proof. unfold run. apply fold_left_app. Qed.

Lemma burst_app (h : nat) (regexTest : string -> string -> bool)
    (a b : list (Z * string)) :
  burst h regexTest (a ++ b) = burst h regexTest a ++ burst h regexTest b.
Proof. unfold burst. apply flat_map_app. Qed.




(** ** Arming does not read the collection *)

Lemma watchOne_fold_set_sessions (S : list SessionConfig) (session : SessionConfig)
    (t : FileChangeTrigger) (watchOk : string -> bool) (paths : list string)
    (ws : list nat) (w : World) :
  fold_left (watchOne session t watchOk) paths (ws, set_sessions S w)
  = (fst (fold_left (watchOne session t watchOk) paths (ws, w)),
     set_sessions S (snd (fold_left (watchOne session t watchOk) paths (ws, w)))).
Proof.
  revert ws w. induction paths as [|p paths IH]; intros ws w; [reflexivity|].
  cbn [fold_left]. rewrite !watchOne_eq. destruct (watchOk p).
  - rewrite <- IH. reflexivity.
  - rewrite <- IH. reflexivity.
Qed.

Lemma setupTrigger_set_sessions (S : list SessionConfig) (session : SessionConfig)
    (watchOk : string -> bool) (w : World) (trigger : Trigger) :
  setupTrigger session watchOk (set_sessions S w) trigger
  = set_sessions S (setupTrigger session watchOk w trigger).
Proof.
  destruct trigger as [t|t|t|t|t]; cbn [setupTrigger].
  - unfold setupWiFiTrigger. cbn [networkWatcher set_sessions].
    destruct (networkWatcher w); reflexivity.
  - unfold setupScheduleTrigger. destruct (JS.truthy (time t)); reflexivity.
  - unfold setupFileChangeTrigger. rewrite watchOne_fold_set_sessions.
    destruct (fold_left _ _ _) as [ws w1]. reflexivity.
  - unfold setupStartupTrigger. cbn [startupTriggersExecuted set_sessions].
    destruct (negb _); reflexivity.
  - reflexivity.
Qed.

Lemma fold_set_sessions {A} (f : World -> A -> World) (S : list SessionConfig)
    (l : list A) (w : World) :
  (forall w0 x, f (set_sessions S w0) x = set_sessions S (f w0 x)) ->
  fold_left f l (set_sessions S w) = set_sessions S (fold_left f l w).
Proof.
  intros Hf. revert w. induction l as [|x l IH]; intros w; [reflexivity|].
  cbn [fold_left]. now rewrite Hf, IH.
Qed.

Lemma armSession_set_sessions (S : list SessionConfig) (watchOk : string -> bool)
    (w : World) (session : SessionConfig) :
  armSession watchOk (set_sessions S w) session = set_sessions S (armSession watchOk w session).
Proof.
  unfold armSession. destruct (enabled session); [|reflexivity].
  unfold setupTriggers. apply fold_set_sessions. intros w0 t.
  apply setupTrigger_set_sessions.
Qed.

Lemma arm_enabled_only (watchOk : string -> bool) (ss : list SessionConfig) (w : World) :
  fold_left (armSession watchOk) ss w
  = fold_left (armSession watchOk) (List.filter enabled ss) w.
Proof.
  revert w. induction ss as [|s r IH]; intros w; [reflexivity|].
  cbn [fold_left List.filter]. unfold armSession at 2.
  destruct (enabled s) eqn:E.
  - cbn [fold_left]. unfold armSession at 3. rewrite E. apply IH.
  - apply IH.
Qed.

(** X12. A disabled session arms nothing. Starting the manager with a
    collection sets the timers, watchers and polling that starting it with
    the enabled sessions alone would set, with the same handles, and
    writes the same lines; with no enabled session, all that is set is the
    latch timer. *)
Theorem X12_disabled_not_armed (ss : list SessionConfig) (watchOk : string -> bool)
    (w : World) :
  start watchOk (set_sessions ss w)
  = set_sessions ss (start watchOk (set_sessions (List.filter enabled ss) w))
  /\ (forallb (fun s => negb (enabled s)) ss = true ->
      start watchOk (set_sessions ss w)
      = snd (setTimeout MarkStartupExecuted 1000 (set_sessions ss w))).
Proof.
  assert (H : start watchOk (set_sessions ss w)
              = set_sessions ss (start watchOk (set_sessions (List.filter enabled ss) w))).
  { unfold start. cbv zeta. cbn [sessions set_sessions].
    rewrite (arm_enabled_only watchOk ss).
    rewrite !(fold_set_sessions (armSession watchOk))
      by (intros; apply armSession_set_sessions).
    reflexivity. }
  split; [exact H|]. intros Hd. rewrite H.
  assert (E : List.filter enabled ss = []).
  { clear H. induction ss as [|s r IH]; [reflexivity|].
    cbn [forallb] in Hd. apply andb_true_iff in Hd as [H1 H2].
    cbn [List.filter]. apply negb_true_iff in H1. rewrite H1. now apply IH. }
  rewrite E. reflexivity.
Qed.

(** ** Classifying errors *)

(** X4. Classifying the message of a subprocess error is idempotent: the
    four messages it substitutes are classified as themselves, and a
    message that names none of the four causes is passed on unchanged. *)
Theorem X4_classifyError_idempotent (m : string) :
  classifyError (classifyError m) = classifyError m
  /\ (JS.includes m "Permission denied" = false ->
      JS.includes m "No such file or directory" = false ->
      JS.includes m "Connection refused" = false ->
      JS.includes m "Host key verification failed" = false ->
      classifyError m = m).
Proof.
  assert (P : forall x, JS.includes x "Permission denied" = false ->
                JS.includes x "No such file or directory" = false ->
                JS.includes x "Connection refused" = false ->
                JS.includes x "Host key verification failed" = false ->
                classifyError x = x).
  { intros x H1 H2 H3 H4. unfold classifyError. now rewrite H1, H2, H3, H4. }
  split; [|apply P].
  remember (classifyError m) as c eqn:Hc. unfold classifyError in Hc.
  destruct (JS.includes m "Permission denied") eqn:E1;
    [subst c; vm_compute; reflexivity|].
  destruct (JS.includes m "No such file or directory") eqn:E2;
    [subst c; vm_compute; reflexivity|].
  destruct (JS.includes m "Connection refused") eqn:E3;
    [subst c; vm_compute; reflexivity|].
  destruct (JS.includes m "Host key verification failed") eqn:E4;
    [subst c; vm_compute; reflexivity|].
  subst c. now apply P.
Qed.


(** ** Times of day as strings *)

Lemma clockAt_minuteOfDay (d : Date) :
  validDate d ->
  getHours (clockAt (Z.to_nat (minuteOfDay d))) = getHours d
  /\ getMinutes (clockAt (Z.to_nat (minuteOfDay d))) = getMinutes d
  /\ (Z.to_nat (minuteOfDay d) < 1440)%nat.
Proof.
  intros ([H1 H2] & [H3 H4] & _). unfold minuteOfDay, clockAt. cbn [getHours getMinutes].
  rewrite Nat2Z.inj_div, Nat2Z.inj_mod, Z2Nat.id by lia.
  split; [|split; [|lia]].
  - symmetry. apply (Z.div_unique _ 60 _ (getMinutes d)); lia.
  - symmetry. apply (Z.mod_unique _ 60 (getHours d)); lia.
Qed.

Lemma currentTime_clockAt (d : Date) :
  validDate d -> currentTime d = currentTime (clockAt (Z.to_nat (minuteOfDay d)))
                 /\ (Z.to_nat (minuteOfDay d) < 1440)%nat.
Proof.
  intros Hv. destruct (clockAt_minuteOfDay d Hv) as (Hh & Hm & Hk).
  split; [|exact Hk]. unfold currentTime. now rewrite Hh, Hm.
Qed.

Lemma timeOfDay_clockAt (k : nat) :
  (k < 1440)%nat ->
  timeOfDay (currentTime (clockAt k))
  = (Some (getHours (clockAt k)), Some (getMinutes (clockAt k))).
Proof.
  intros Hk.
  assert (H : forallb (fun k => bool_decide
                         (timeOfDay (currentTime (clockAt k))
                          = (Some (getHours (clockAt k)), Some (getMinutes (clockAt k)))))
                (seq 0 1440) = true) by (vm_compute; reflexivity).
  rewrite forallb_forall in H. specialize (H k).
  apply bool_decide_eq_true in H; [exact H|]. apply in_seq. lia.
Qed.

Lemma compare_app (a b r1 r2 : string) :
  String.length a = String.length b ->
  String.compare (a +:+ r1) (b +:+ r2)
  = match String.compare a b with Eq => String.compare r1 r2 | c => c end.
Proof.
  revert b. induction a as [|x a IH]; intros [|y b] H; try discriminate.
  - now rewrite !append_empty_l.
  - rewrite !append_cons. cbn [String.compare].
    destruct (Ascii.compare x y); try reflexivity. apply IH. now injection H.
Qed.

Lemma compare_pad2 (x y : nat) :
  (x < 100)%nat -> (y < 100)%nat ->
  String.compare (JS.pad2 (Z.of_nat x)) (JS.pad2 (Z.of_nat y)) = Nat.compare x y
  /\ String.length (JS.pad2 (Z.of_nat x)) = 2%nat.
Proof.
  intros Hx Hy.
  assert (H : forallb (fun x => forallb (fun y =>
                match String.compare (JS.pad2 (Z.of_nat x)) (JS.pad2 (Z.of_nat y)),
                      Nat.compare x y with
                | Eq, Eq | Lt, Lt | Gt, Gt => true
                | _, _ => false
                end && (String.length (JS.pad2 (Z.of_nat x)) =? 2)%nat)
                (seq 0 100)) (seq 0 100) = true) by (vm_compute; reflexivity).
  rewrite forallb_forall in H.
  assert (Ix : In x (seq 0 100)) by (apply in_seq; lia).
  assert (Iy : In y (seq 0 100)) by (apply in_seq; lia).
  specialize (H x Ix). rewrite forallb_forall in H. specialize (H y Iy).
  apply andb_true_iff in H as [H1 H2]. split; [|now apply Nat.eqb_eq].
  destruct (String.compare _ _), (Nat.compare x y); try discriminate; reflexivity.
Qed.

Lemma compare_currentTime (a b : Date) :
  validDate a -> validDate b ->
  String.compare (currentTime a) (currentTime b) = (minuteOfDay a ?= minuteOfDay b).
Proof.
  intros ([A1 A2] & [A3 A4] & _) ([B1 B2] & [B3 B4] & _). unfold currentTime, minuteOfDay.
  rewrite <- (Z2Nat.id (getHours a)), <- (Z2Nat.id (getMinutes a)),
    <- (Z2Nat.id (getHours b)), <- (Z2Nat.id (getMinutes b)) by lia.
  set (ha := Z.to_nat (getHours a)). set (ma := Z.to_nat (getMinutes a)).
  set (hb := Z.to_nat (getHours b)). set (mb := Z.to_nat (getMinutes b)).
  assert (Ha : (ha < 24)%nat) by lia. assert (Hma : (ma < 60)%nat) by lia.
  assert (Hb : (hb < 24)%nat) by lia. assert (Hmb : (mb < 60)%nat) by lia.
  clearbody ha ma hb mb.
  destruct (compare_pad2 ha hb ltac:(lia) ltac:(lia)) as [Ch La].
  destruct (compare_pad2 hb ha ltac:(lia) ltac:(lia)) as [_ Lb].
  destruct (compare_pad2 ma mb ltac:(lia) ltac:(lia)) as [Cm _].
  rewrite compare_app by congruence. rewrite Ch.
  rewrite (compare_app ":" ":") by reflexivity. rewrite Cm.
  change (String.compare ":" ":") with Eq. cbv iota.
  destruct (Nat.compare_spec ha hb) as [E|L|G];
    [destruct (Nat.compare_spec ma mb) as [E'|L'|G']| |]; symmetry.
  - apply Z.compare_eq_iff. lia.
  - apply Z.compare_lt_iff. lia.
  - apply Z.compare_gt_iff. lia.
  - apply Z.compare_lt_iff. lia.
  - apply Z.compare_gt_iff. lia.
Qed.

Lemma leb_currentTime (a b : Date) :
  validDate a -> validDate b ->
  String.leb (currentTime a) (currentTime b) = true <-> minuteOfDay a <= minuteOfDay b.
Proof.
  intros Va Vb. unfold String.leb. rewrite (compare_currentTime a b Va Vb).
  unfold Z.le. destruct (minuteOfDay a ?= minuteOfDay b); split; congruence.
Qed.

Lemma currentTime_length (d : Date) :
  validDate d -> String.length (currentTime d) = 5%nat.
Proof.
  intros Hv. destruct (currentTime_clockAt d Hv) as [E Hk]. rewrite E.
  assert (H : forallb (fun k => (String.length (currentTime (clockAt k)) =? 5)%nat)
                (seq 0 1440) = true) by (vm_compute; reflexivity).
  rewrite forallb_forall in H.
  apply Nat.eqb_eq, H, in_seq. lia.
Qed.

(** X18. The time that an Interval trigger prints, [HH:MM] with both parts
    padded to two digits, is read back by a Schedule trigger as the same
    hour and minute: a Schedule trigger whose time is what the clock shows
    matches now. *)
Theorem X18_time_round_trip (now : Date) (ds : list string) :
  validDate now ->
  timeOfDay (currentTime now) = (Some (getHours now), Some (getMinutes now))
  /\ scheduleTimeMatches {| time := currentTime now; days := ds |} now = true
  /\ String.length (currentTime now) = 5%nat.
Proof.
  intros Hv. destruct (currentTime_clockAt now Hv) as [E Hk].
  destruct (clockAt_minuteOfDay now Hv) as (Hh & Hm & _).
  assert (T : timeOfDay (currentTime now) = (Some (getHours now), Some (getMinutes now))).
  { rewrite E, timeOfDay_clockAt by exact Hk. now rewrite Hh, Hm. }
  split; [exact T|]. split.
  - apply scheduleTimeMatches_spec. exact T.
  - now apply currentTime_length.
Qed.

Lemma X18_time_round_trip_witness :
  validDate (at_ 1 9 5)
  /\ timeOfDay (currentTime (at_ 1 9 5)) = (Some 9, Some 5).
Proof.
  assert (H : validDate (at_ 1 9 5)) by (unfold validDate; cbn; lia).
  split; [exact H|]. exact (proj1 (X18_time_round_trip (at_ 1 9 5) [] H)).
Defined.

(** X19. The window of an Interval trigger is tested on strings, in
    lexical order. For bounds written as the code writes the current time,
    [HH:MM] with two digits each, that order is the order of the clock: the
    tick goes on exactly when the minute of the day is between those of
    the two bounds, both included. *)
Theorem X19_window_clock_order (t : IntervalTrigger) (from to now : Date) :
  validDate from -> validDate to -> validDate now ->
  startTime t = Some (currentTime from) ->
  endTime t = Some (currentTime to) ->
  intervalInWindow t now = true
  <-> minuteOfDay from <= minuteOfDay now <= minuteOfDay to.
Proof.
  intros Vf Vt Vn Hs He.
  assert (Tr : forall d, validDate d -> JS.truthy (currentTime d) = true).
  { intros d Vd. pose proof (currentTime_length d Vd) as L.
    destruct (currentTime d); [discriminate | reflexivity]. }
  rewrite (intervalInWindow_spec t _ _ now Hs He (Tr _ Vf) (Tr _ Vt)).
  now rewrite !leb_currentTime by assumption.
Qed.

Lemma X19_window_clock_order_witness :
  validDate (at_ 1 9 0) /\ validDate (at_ 1 17 0) /\ validDate (at_ 1 12 30)
  /\ startTime officeHours = Some (currentTime (at_ 1 9 0))
  /\ endTime officeHours = Some (currentTime (at_ 1 17 0))
  /\ intervalInWindow officeHours (at_ 1 12 30) = true.
Proof.
  assert (V : forall h m, 0 <= h < 24 -> 0 <= m < 60 -> validDate (at_ 1 h m)).
  { intros h m Hh Hm. unfold validDate. cbn. lia. }
  assert (V1 : validDate (at_ 1 9 0)) by (apply V; lia).
  assert (V2 : validDate (at_ 1 17 0)) by (apply V; lia).
  assert (V3 : validDate (at_ 1 12 30)) by (apply V; lia).
  repeat (split; [first [assumption | reflexivity]|]).
  apply (X19_window_clock_order officeHours (at_ 1 9 0) (at_ 1 17 0) (at_ 1 12 30)
           V1 V2 V3 eq_refl eq_refl).
  unfold minuteOfDay. cbn. lia.
Defined.


(** ** Saving and deleting a session *)

Lemma putSession_cons (session s : SessionConfig) (r : list SessionConfig) :
  putSession session (s :: r)
  = if bool_decide (id s = id session) then session :: r else s :: putSession session r.
Proof.
  unfold putSession. cbn [findIndex].
  destruct (bool_decide (id s = id session)); [reflexivity|].
  destruct (findIndex (id session) r); reflexivity.
Qed.

Lemma findSession_putSession (session : SessionConfig) (ss : list SessionConfig) :
  findSession (id session) (putSession session ss) = Some session.
Proof.
  unfold findSession. induction ss as [|s r IH].
  - cbn. now rewrite bool_decide_eq_true_2.
  - rewrite putSession_cons. destruct (bool_decide (id s = id session)) eqn:E.
    + cbn [find]. now rewrite bool_decide_eq_true_2.
    + cbn [find]. now rewrite E.
Qed.

Lemma findSession_putSession_ne (session : SessionConfig) (ss : list SessionConfig)
    (j : string) :
  j <> id session -> findSession j (putSession session ss) = findSession j ss.
Proof.
  intros Hj. unfold findSession. induction ss as [|s r IH].
  - cbn. now rewrite bool_decide_eq_false_2 by congruence.
  - rewrite putSession_cons. destruct (bool_decide (id s = id session)) eqn:E.
    + apply bool_decide_eq_true in E. cbn [find].
      rewrite !bool_decide_eq_false_2 by congruence. reflexivity.
    + cbn [find]. now rewrite IH.
Qed.

Lemma length_putSession (session : SessionConfig) (ss : list SessionConfig) :
  length (putSession session ss)
  = match findSession (id session) ss with
    | Some _ => length ss
    | None => S (length ss)
    end.
Proof.
  unfold findSession. induction ss as [|s r IH]; [reflexivity|].
  rewrite putSession_cons. cbn [find].
  destruct (bool_decide (id s = id session)); [reflexivity|].
  cbn [length]. rewrite IH. now destruct (find _ r).
Qed.

Lemma putSession_twice (session : SessionConfig) (ss : list SessionConfig) :
  putSession session (putSession session ss) = putSession session ss.
Proof.
  induction ss as [|s r IH].
  - cbn. unfold putSession. cbn [findIndex]. now rewrite bool_decide_eq_true_2.
  - rewrite putSession_cons. destruct (bool_decide (id s = id session)) eqn:E.
    + rewrite putSession_cons. now rewrite bool_decide_eq_true_2.
    + rewrite putSession_cons, E. now rewrite IH.
Qed.


Lemma findSession_filter_ne (sessionId j : string) (ss : list SessionConfig) :
  j <> sessionId ->
  findSession j (List.filter (fun s => negb (bool_decide (id s = sessionId))) ss)
  = findSession j ss.
Proof.
  intros Hj. unfold findSession. induction ss as [|s r IH]; [reflexivity|].
  cbn [List.filter find]. destruct (bool_decide (id s = sessionId)) eqn:E; cbn [negb].
  - apply bool_decide_eq_true in E.
    now rewrite bool_decide_eq_false_2 by congruence.
  - cbn [find]. now rewrite IH.
Qed.

Lemma findSession_filter_eq (sessionId : string) (ss : list SessionConfig) :
  findSession sessionId (List.filter (fun s => negb (bool_decide (id s = sessionId))) ss)
  = None.
Proof.
  unfold findSession. induction ss as [|s r IH]; [reflexivity|].
  cbn [List.filter]. destruct (bool_decide (id s = sessionId)) eqn:E; cbn [negb].
  - exact IH.
  - cbn [find]. now rewrite E.
Qed.

Lemma filter_putSession (session : SessionConfig) (ss : list SessionConfig) :
  List.filter (fun s => negb (bool_decide (id s = id session))) (putSession session ss)
  = List.filter (fun s => negb (bool_decide (id s = id session))) ss.
Proof.
  induction ss as [|s r IH].
  - cbn. now rewrite bool_decide_eq_true_2.
  - rewrite putSession_cons. destruct (bool_decide (id s = id session)) eqn:E.
    + cbn [List.filter]. rewrite E. now rewrite bool_decide_eq_true_2.
    + cbn [List.filter]. now rewrite E, IH.
Qed.

Lemma filter_absent (sessionId : string) (ss : list SessionConfig) :
  findSession sessionId ss = None ->
  List.filter (fun s => negb (bool_decide (id s = sessionId))) ss = ss.
Proof.
  unfold findSession. induction ss as [|s r IH]; [reflexivity|].
  cbn [find List.filter]. destruct (bool_decide (id s = sessionId)); [discriminate|].
  intros H. cbn [negb]. now rewrite IH.
Qed.



(** ** Reading listings *)

Lemma splitSpaces_nonempty (b : bool) (s : string) : splitSpaces b s <> [].
Proof.
  revert b. induction s as [|c s IH]; intros b; cbn [splitSpaces]; [discriminate|].
  destruct (JS.isWhiteSpace c).
  - destruct b; [apply IH | discriminate].
  - destruct (splitSpaces false s); discriminate.
Qed.

Lemma splitSpaces_hasSpace (b : bool) (s : string) :
  Forall (fun part => hasSpace part = false) (splitSpaces b s).
Proof.
  revert b. induction s as [|c s IH]; intros b; cbn [splitSpaces].
  - repeat constructor.
  - destruct (JS.isWhiteSpace c) eqn:E.
    + destruct b; [apply IH|]. constructor; [reflexivity | apply IH].
    + specialize (IH false). destruct (splitSpaces false s) as [|h r].
      * repeat constructor. cbn [hasSpace]. now rewrite E.
      * inversion IH; subst. constructor; [|assumption]. cbn [hasSpace]. now rewrite E.
Qed.

Lemma trimEnd_lastChar (s : string) :
  JS.trimEnd s = EmptyString
  \/ exists c, lastChar (JS.trimEnd s) = Some c /\ JS.isWhiteSpace c = false.
Proof.
  induction s as [|c s IH]; [now left|]. cbn [JS.trimEnd].
  destruct IH as [->|(x & Hx & Hw)].
  - destruct (JS.isWhiteSpace c) eqn:E; [now left|]. right. exists c. now split.
  - right. exists x. destruct (JS.trimEnd s) as [|y t]; [discriminate|].
    split; [exact Hx | exact Hw].
Qed.

Lemma last_cons_ne {A} (x : A) (l : list A) : l <> [] -> last (x :: l) = last l.
Proof. destruct l; [congruence | reflexivity]. Qed.

Lemma splitSpaces_last (b : bool) (s : string) (c : ascii) :
  lastChar s = Some c -> JS.isWhiteSpace c = false ->
  exists part, last (splitSpaces b s) = Some part /\ part <> EmptyString.
Proof.
  revert b. induction s as [|x s IH]; intros b Hl Hc; [discriminate|].
  cbn [splitSpaces]. destruct s as [|y s'].
  - cbn in Hl. injection Hl as ->. rewrite Hc. cbn. eexists. split; [reflexivity | discriminate].
  - assert (Hl' : lastChar (String y s') = Some c) by exact Hl.
    destruct (JS.isWhiteSpace x).
    + destruct b; [now apply IH|].
      rewrite last_cons_ne by apply splitSpaces_nonempty. now apply IH.
    + destruct (IH false Hl' Hc) as (part & Hp & Hne).
      destruct (splitSpaces false (String y s')) as [|h r] eqn:E; [discriminate|].
      destruct r as [|h' r'].
      * cbn. eexists. split; [reflexivity | discriminate].
      * exists part. split; [exact Hp | exact Hne].
Qed.

Lemma head_splitSpaces_d (s : string) :
  JS.startsWith (default EmptyString (head (splitSpaces false s))) "d" = JS.startsWith s "d".
Proof.
  destruct s as [|c s]; [reflexivity|]. cbn [splitSpaces].
  destruct (JS.isWhiteSpace c) eqn:E.
  - cbn [head default from_option Datatypes.id JS.startsWith].
    destruct (decide ("d"%char = c)) as [<-|]; [|reflexivity]. discriminate.
  - destruct (splitSpaces false s);
      cbn [head default from_option Datatypes.id JS.startsWith];
      destruct (decide ("d"%char = c)); reflexivity.
Qed.

Lemma elem_of_omap_list {A B} (f : A -> option B) (l : list A) (y : B) :
  y ∈ omap f l -> exists x, x ∈ l /\ f x = Some y.
Proof.
  induction l as [|x l IH]; cbn [omap list_omap]; [intros H; inversion H|].
  destruct (f x) as [z|] eqn:E.
  - intros H. apply elem_of_cons in H as [->|H].
    + exists x. split; [left | exact E].
    + destruct (IH H) as (x' & H1 & H2). exists x'. split; [now right | exact H2].
  - intros H. destruct (IH H) as (x' & H1 & H2). exists x'. split; [now right | exact H2].
Qed.

Lemma length_omap_le {A B} (f : A -> option B) (l : list A) :
  (length (omap f l) <= length l)%nat.
Proof.
  induction l as [|x l IH]; [reflexivity|]. cbn [omap list_omap].
  destruct (f x); cbn [length]; lia.
Qed.

Lemma elem_of_nonBlankLines (stdout line : string) :
  line ∈ nonBlankLines stdout ->
  line ∈ JS.split "010" stdout /\ JS.trim line <> EmptyString.
Proof.
  unfold nonBlankLines. intros H. apply list_elem_of_In, filter_In in H as [H1 H2].
  split; [now apply list_elem_of_In|]. intros E. now rewrite E in H2.
Qed.

Lemma trim_lastChar (line : string) :
  JS.trim line <> EmptyString ->
  exists c, lastChar (JS.trim line) = Some c /\ JS.isWhiteSpace c = false.
Proof.
  intros Hne. unfold JS.trim in *.
  destruct (trimEnd_lastChar (JS.trimStart line)) as [E|H]; [contradiction | exact H].
Qed.

(** X16. What a remote directory listing yields. Every entry comes from a
    line of the output that is not blank; its name is the last of the
    parts of that line between white space, so it is not empty, has no
    white space in it, and is neither [.] nor [..]; it is a directory
    exactly when the line, trimmed, begins with [d]; and its path is the
    name, after the remote path and a slash when there is a remote path.
    There are no more entries than lines. *)
Theorem X16_listing_entries (remotePath stdout : string) (e : Entry) :
  e ∈ parseListing remotePath stdout ->
  (exists line,
     line ∈ JS.split "010" stdout
     /\ last (splitWhitespace (JS.trim line)) = Some (entryName e)
     /\ (5 <= length (splitWhitespace (JS.trim line)))%nat
     /\ entryIsDirectory e = JS.startsWith (JS.trim line) "d")
  /\ entryName e <> EmptyString
  /\ hasSpace (entryName e) = false
  /\ entryName e <> "." /\ entryName e <> ".."
  /\ entryPath e = (if JS.truthy remotePath then remotePath +:+ "/" +:+ entryName e
                    else entryName e)
  /\ (length (parseListing remotePath stdout) <= length (JS.split "010" stdout))%nat.
Proof.
  intros He. unfold parseListing in *.
  destruct (elem_of_omap_list _ _ _ He) as (line & Hline & Hentry).
  apply elem_of_nonBlankLines in Hline as [Hin Hne].
  unfold listingEntry in Hentry. cbv zeta in Hentry.
  destruct (5 <=? length (splitWhitespace (JS.trim line)))%nat eqn:E5; [|discriminate].
  apply Nat.leb_le in E5.
  destruct (trim_lastChar line Hne) as (c & Hc & Hw).
  destruct (splitSpaces_last false (JS.trim line) c Hc Hw) as (part & Hpart & Hpne).
  fold (splitWhitespace (JS.trim line)) in Hpart. rewrite Hpart in Hentry.
  cbn [default from_option Datatypes.id] in Hentry.
  destruct (bool_decide (part = ".")) eqn:D1; [discriminate|].
  destruct (bool_decide (part = "..")) eqn:D2; [discriminate|].
  cbn [orb] in Hentry. injection Hentry as <-. cbn [entryName entryIsDirectory entryPath].
  apply bool_decide_eq_false in D1, D2.
  split.
  { exists line. split; [exact Hin|]. split; [exact Hpart|]. split; [exact E5|].
    apply head_splitSpaces_d. }
  split; [exact Hpne|]. split.
  { pose proof (splitSpaces_hasSpace false (JS.trim line)) as HF.
    rewrite Forall_forall in HF. apply HF.
    apply last_Some_elem_of. exact Hpart. }
  split; [exact D1|]. split; [exact D2|]. split; [reflexivity|].
  etransitivity; [apply length_omap_le|]. unfold nonBlankLines.
  apply List.filter_length_le.
Qed.

Lemma X16_listing_entries_witness :
  {| entryName := "Notes.txt"; entryIsDirectory := false;
     entryPath := "docs/Notes.txt" |} ∈ parseListing "docs" sampleListing
  /\ hasSpace "Notes.txt" = false.
Proof.
  assert (H : {| entryName := "Notes.txt"; entryIsDirectory := false;
                 entryPath := "docs/Notes.txt" |} ∈ parseListing "docs" sampleListing).
  { right. left. }
  split; [exact H|].
  exact (proj1 (proj2 (proj2 (X16_listing_entries "docs" sampleListing _ H)))).
Defined.


(** ** Listing the modules of a daemon *)

Lemma trimEnd_first (c : ascii) (s : string) :
  JS.isWhiteSpace c = false -> exists r, JS.trimEnd (String c s) = String c r.
Proof.
  intros Hc. cbn [JS.trimEnd]. destruct (JS.trimEnd s).
  - rewrite Hc. eexists. reflexivity.
  - eexists. reflexivity.
Qed.

Lemma trimStart_first (s : string) :
  JS.trimStart s = EmptyString
  \/ exists c r, JS.trimStart s = String c r /\ JS.isWhiteSpace c = false.
Proof.
  induction s as [|c s IH]; [now left|]. cbn [JS.trimStart].
  destruct (JS.isWhiteSpace c) eqn:E; [exact IH|]. right. now exists c, s.
Qed.

Lemma trim_first (s : string) :
  JS.trim s = EmptyString
  \/ exists c r, JS.trim s = String c r /\ JS.isWhiteSpace c = false.
Proof.
  unfold JS.trim. destruct (trimStart_first s) as [->|(c & r & -> & Hc)]; [now left|].
  right. destruct (trimEnd_first c r Hc) as [r' ->]. now exists c, r'.
Qed.

Lemma head_splitSpaces_prefix (s : string) :
  exists rest, s = default EmptyString (head (splitSpaces false s)) +:+ rest.
Proof.
  induction s as [|c s IH]; [exists EmptyString; reflexivity|]. cbn [splitSpaces].
  destruct (JS.isWhiteSpace c).
  - exists (String c s). reflexivity.
  - destruct IH as [rest IH]. destruct (splitSpaces false s) as [|h r].
    + exists s. reflexivity.
    + exists rest. cbn [head default from_option Datatypes.id] in *.
      rewrite append_cons. now rewrite <- IH.
Qed.

Lemma head_splitSpaces_first (c : ascii) (s : string) :
  JS.isWhiteSpace c = false ->
  exists h, head (splitSpaces false (String c s)) = Some (String c h).
Proof.
  intros Hc. cbn [splitSpaces]. rewrite Hc.
  destruct (splitSpaces false s); eexists; reflexivity.
Qed.

Lemma startsWith_prefix_false (s rest p : string) :
  JS.startsWith (s +:+ rest) p = false -> JS.startsWith s p = false.
Proof.
  intros H. destruct (JS.startsWith s p) eqn:E; [|reflexivity].
  now rewrite (startsWith_append_l s rest p E) in H.
Qed.

Lemma moduleEntry_sound (line : string) (m : DaemonModule) :
  moduleEntry line = Some m ->
  daemonModuleName m <> EmptyString
  /\ hasSpace (daemonModuleName m) = false
  /\ looksLikePermissions (daemonModuleName m) = false
  /\ JS.startsWith (daemonModuleName m) "drwx" = false
  /\ JS.startsWith (daemonModuleName m) "-rw" = false
  /\ daemonModuleComment m <> EmptyString
  /\ head (splitWhitespace (JS.trim line)) = Some (daemonModuleName m).
Proof.
  unfold moduleEntry. cbv zeta. intros H.
  destruct (JS.truthy (JS.trim line)) eqn:T; [|discriminate].
  destruct (JS.startsWith (JS.trim line) "drwx") eqn:D1; [discriminate|].
  destruct (JS.startsWith (JS.trim line) "-rw") eqn:D2; [discriminate|].
  cbn [negb andb] in H.
  destruct (1 <=? length (splitWhitespace (JS.trim line)))%nat; [|discriminate].
  destruct (looksLikePermissions _) eqn:L; [discriminate|]. cbn [negb] in H.
  injection H as <-. cbn [daemonModuleName daemonModuleComment].
  destruct (trim_first line) as [E|(c & r & E & Hc)]; [now rewrite E in T|].
  destruct (head_splitSpaces_first c r Hc) as [h Hh].
  destruct (head_splitSpaces_prefix (JS.trim line)) as [rest Hrest].
  unfold splitWhitespace in *. rewrite E in *. rewrite Hh in *.
  cbn [default from_option Datatypes.id] in *.
  split; [discriminate|]. split.
  { pose proof (splitSpaces_hasSpace false (String c r)) as HF.
    rewrite Forall_forall in HF. apply HF. now apply head_Some_elem_of. }
  split; [exact L|].
  split; [rewrite Hrest in D1; now apply startsWith_prefix_false in D1|].
  split; [rewrite Hrest in D2; now apply startsWith_prefix_false in D2|].
  split; [|reflexivity].
  destruct (JS.truthy (JS.join " " _)) eqn:J; [|discriminate].
  intros EJ. now rewrite EJ in J.
Qed.

(** X17. Listing the modules of a daemon. The first launch is without
    credentials: no user name in the URL, no password in the environment.
    When it succeeds it is the only launch, and the answer does not depend
    on the credentials given. Only when it fails is there a second launch,
    with the user name in the URL and the password, if it is not empty, in
    the environment. Every module of the answer has a name that is not
    empty, has no white space, is not made of the characters of a
    permission string and does not begin as a line of a file listing does,
    and a comment that is not empty. *)
Theorem X17_available_modules (host username : string) (password : option string)
    (port : option Z) (anonymous authenticated : ExecResult) :
  let r := getAvailableModules host username password port anonymous authenticated in
  let url := "rsync://" +:+ host +:+ ":" +:+ JS.numToString (portOrDefault port) +:+ "/" in
  let authUrl := "rsync://" +:+ username +:+ "@" +:+ host +:+ ":"
                   +:+ JS.numToString (portOrDefault port) +:+ "/" in
  head (fst r) = Some ("rsync --list-only " +:+ url, None)
  /\ (forall stdout stderr, anonymous = ExecOk stdout stderr ->
        r = ([("rsync --list-only " +:+ url, None)], inl (parseModules stdout))
        /\ forall username' password' authenticated',
             getAvailableModules host username' password' port anonymous authenticated' = r)
  /\ (forall m, anonymous = ExecError m ->
        fst r = [("rsync --list-only " +:+ url, None);
                 ("rsync --list-only " +:+ authUrl, passwordEnv password)]
        /\ forall stdout stderr, authenticated = ExecOk stdout stderr ->
             snd r = inl (parseModules stdout))
  /\ (forall modules m, snd r = inl modules -> m ∈ modules ->
        daemonModuleName m <> EmptyString
        /\ hasSpace (daemonModuleName m) = false
        /\ looksLikePermissions (daemonModuleName m) = false
        /\ JS.startsWith (daemonModuleName m) "drwx" = false
        /\ JS.startsWith (daemonModuleName m) "-rw" = false
        /\ daemonModuleComment m <> EmptyString).
Proof.
  intros r url authUrl.
  assert (Hs : forall stdout m, m ∈ parseModules stdout ->
                 daemonModuleName m <> EmptyString
                 /\ hasSpace (daemonModuleName m) = false
                 /\ looksLikePermissions (daemonModuleName m) = false
                 /\ JS.startsWith (daemonModuleName m) "drwx" = false
                 /\ JS.startsWith (daemonModuleName m) "-rw" = false
                 /\ daemonModuleComment m <> EmptyString).
  { intros stdout m Hm. unfold parseModules in Hm.
    destruct (elem_of_omap_list _ _ _ Hm) as (line & _ & Hline).
    destruct (moduleEntry_sound line m Hline) as (A & B & C & D & E & F & _).
    repeat split; assumption. }
  subst r url authUrl. unfold getAvailableModules. cbv zeta.
  split; [destruct anonymous, authenticated; reflexivity|].
  split.
  { intros stdout stderr ->. split; reflexivity. }
  split.
  { intros m ->. split; [destruct authenticated; reflexivity|].
    intros stdout stderr ->. reflexivity. }
  intros modules m Hr Hm.
  destruct anonymous as [out err|msg].
  - cbn [snd] in Hr. injection Hr as <-. now apply (Hs out).
  - destruct authenticated as [out err|msg'].
    + cbn [snd] in Hr. injection Hr as <-. now apply (Hs out).
    + discriminate.
Qed.


(** ** Reading back a listing *)

Lemma splitSpaces_field (f t : string) (b : bool) :
  isField f = true ->
  splitSpaces b (f +:+ t)
  = match splitSpaces false t with
    | h :: r => (f +:+ h) :: r
    | [] => [f]
    end.
Proof.
  unfold isField. intros H. apply andb_true_iff in H as [Hne Hs].
  apply negb_true_iff in Hs. revert b.
  induction f as [|c f IH]; intros b; [discriminate|].
  cbn [hasSpace] in Hs. apply orb_false_iff in Hs as [Hc Hf].
  rewrite append_cons. cbn [splitSpaces]. rewrite Hc.
  destruct f as [|c' f'].
  - rewrite append_empty_l. destruct (splitSpaces false t); reflexivity.
  - rewrite (IH eq_refl Hf false).
    destruct (splitSpaces false t); now rewrite ?append_cons.
Qed.

Lemma splitSpaces_blanks (s t : string) :
  blanks s = true -> splitSpaces true (s +:+ t) = splitSpaces true t.
Proof.
  induction s as [|c s IH]; intros H; [now rewrite append_empty_l|].
  cbn [blanks] in H. apply andb_true_iff in H as [H1 H2].
  apply andb_true_iff in H1 as [H1 _].
  rewrite append_cons. cbn [splitSpaces]. rewrite H1. now apply IH.
Qed.

Lemma splitSpaces_separator (s t : string) :
  isSeparator s = true -> splitSpaces false (s +:+ t) = EmptyString :: splitSpaces true t.
Proof.
  unfold isSeparator. intros H. apply andb_true_iff in H as [Hne Hb].
  destruct s as [|c s]; [discriminate|]. cbn [blanks] in Hb.
  apply andb_true_iff in Hb as [H1 H2]. apply andb_true_iff in H1 as [H1 _].
  rewrite append_cons. cbn [splitSpaces]. rewrite H1. f_equal.
  now apply splitSpaces_blanks.
Qed.

Lemma splitSpaces_fieldsLine (first : string) (rest : list (string * string)) (b : bool) :
  isField first = true ->
  forallb (fun sf => isSeparator (fst sf) && isField (snd sf)) rest = true ->
  splitSpaces b (fieldsLine first rest) = first :: map snd rest.
Proof.
  revert first b. induction rest as [|[sep f] r IH]; intros first b Hf Hr.
  - cbn [fieldsLine map]. rewrite <- (append_empty_r first) at 1.
    rewrite splitSpaces_field by exact Hf. cbn [splitSpaces]. now rewrite append_empty_r.
  - cbn [forallb fst snd] in Hr. apply andb_true_iff in Hr as [H1 Hr].
    apply andb_true_iff in H1 as [Hsep Hfield].
    cbn [fieldsLine map snd]. rewrite splitSpaces_field by exact Hf.
    rewrite splitSpaces_separator by exact Hsep.
    rewrite (IH f true Hfield Hr). now rewrite append_empty_r.
Qed.

Lemma lastChar_append (a b : string) :
  b <> EmptyString -> lastChar (a +:+ b) = lastChar b.
Proof.
  intros Hb. induction a as [|c a IH]; [now rewrite append_empty_l|].
  rewrite append_cons. cbn [lastChar]. rewrite IH.
  destruct (a +:+ b) eqn:E; [|reflexivity].
  destruct a; [rewrite append_empty_l in E; contradiction | now rewrite append_cons in E].
Qed.

Lemma lastChar_field (f : string) :
  isField f = true -> exists c, lastChar f = Some c /\ JS.isWhiteSpace c = false.
Proof.
  unfold isField. intros H. apply andb_true_iff in H as [Hne Hs].
  apply negb_true_iff in Hs.
  induction f as [|c f IH]; [discriminate|].
  cbn [hasSpace] in Hs. apply orb_false_iff in Hs as [Hc Hf].
  destruct f as [|c' f']; [now exists c|]. now apply IH.
Qed.

Lemma fieldsLine_ends (first : string) (rest : list (string * string)) :
  isField first = true ->
  forallb (fun sf => isSeparator (fst sf) && isField (snd sf)) rest = true ->
  (exists c r, fieldsLine first rest = String c r /\ JS.isWhiteSpace c = false)
  /\ (exists c, lastChar (fieldsLine first rest) = Some c /\ JS.isWhiteSpace c = false).
Proof.
  revert first. induction rest as [|[sep f] r IH]; intros first Hf Hr.
  - cbn [fieldsLine]. split; [|now apply lastChar_field].
    unfold isField in Hf. apply andb_true_iff in Hf as [Hne Hs].
    apply negb_true_iff in Hs. destruct first as [|c s]; [discriminate|].
    cbn [hasSpace] in Hs. apply orb_false_iff in Hs as [Hc _]. now exists c, s.
  - cbn [forallb fst snd] in Hr. apply andb_true_iff in Hr as [H1 Hr].
    apply andb_true_iff in H1 as [Hsep Hfield].
    destruct (IH f Hfield Hr) as ((c & s & E & Hc) & Hl).
    cbn [fieldsLine]. split.
    + unfold isField in Hf. apply andb_true_iff in Hf as [Hne Hs].
      apply negb_true_iff in Hs. destruct first as [|c0 s0]; [discriminate|].
      cbn [hasSpace] in Hs. apply orb_false_iff in Hs as [Hc0 _].
      rewrite append_cons. now eexists _, _.
    + rewrite lastChar_append.
      * rewrite lastChar_append; [exact Hl | rewrite E; discriminate].
      * rewrite E. destruct sep; [rewrite append_empty_l | rewrite append_cons]; discriminate.
Qed.

Lemma trimEnd_id (s : string) (c : ascii) :
  lastChar s = Some c -> JS.isWhiteSpace c = false -> JS.trimEnd s = s.
Proof.
  induction s as [|x s IH]; intros Hl Hc; [reflexivity|].
  cbn [JS.trimEnd]. destruct s as [|y s'].
  - cbn in Hl. injection Hl as ->. cbn [JS.trimEnd]. now rewrite Hc.
  - rewrite (IH Hl Hc). reflexivity.
Qed.

Lemma trim_fieldsLine (first : string) (rest : list (string * string)) :
  isField first = true ->
  forallb (fun sf => isSeparator (fst sf) && isField (snd sf)) rest = true ->
  JS.trim (fieldsLine first rest) = fieldsLine first rest.
Proof.
  intros Hf Hr. destruct (fieldsLine_ends first rest Hf Hr) as ((c & s & E & Hc) & (x & Hl & Hx)).
  unfold JS.trim. rewrite E in *. cbn [JS.trimStart]. rewrite Hc.
  now apply (trimEnd_id _ x).
Qed.

Lemma listingEntry_rowLine (remotePath : string) (row : string * list (string * string)) :
  listingRow row = true -> listingEntry remotePath (rowLine row) = rowEntry remotePath row.
Proof.
  destruct row as [first rest]. unfold listingRow, rowLine, rowEntry. cbn [fst snd].
  intros H. apply andb_true_iff in H as [H H4]. apply andb_true_iff in H as [Hf Hr].
  apply Nat.leb_le in H4.
  unfold listingEntry. cbv zeta. rewrite (trim_fieldsLine first rest Hf Hr).
  unfold splitWhitespace. rewrite (splitSpaces_fieldsLine first rest false Hf Hr).
  cbn [length head default from_option Datatypes.id].
  rewrite length_map. rewrite (proj2 (Nat.leb_le 5 (S (length rest)))) by lia.
  assert (L : default EmptyString (last (first :: map snd rest))
              = default first (last (map snd rest))).
  { destruct rest as [|p r]; [reflexivity|]. cbn [map].
    rewrite last_cons_ne by discriminate.
    destruct (last (snd p :: map snd r)) eqn:E; [reflexivity|].
    apply last_None in E. discriminate. }
  rewrite L. reflexivity.
Qed.

Lemma split_no_lineFeed (line rest : string) :
  hasLineFeed line = false ->
  JS.split "010" (line +:+ newline +:+ rest) = line :: JS.split "010" rest.
Proof.
  induction line as [|c line IH]; intros H.
  - rewrite append_empty_l. reflexivity.
  - cbn [hasLineFeed] in H. apply orb_false_iff in H as [Hc Hl].
    apply bool_decide_eq_false in Hc.
    rewrite append_cons. cbn [JS.split].
    destruct (decide (c = "010"%char)) as [E|_]; [contradiction|].
    now rewrite (IH Hl).
Qed.

Lemma listingEntry_blank (remotePath line : string) :
  JS.truthy (JS.trim line) = false -> listingEntry remotePath line = None.
Proof.
  intros H. unfold listingEntry. destruct (JS.trim line); [reflexivity | discriminate].
Qed.

Lemma omap_cons {A B} (f : A -> option B) (x : A) (l : list A) :
  omap f (x :: l) = match f x with Some y => y :: omap f l | None => omap f l end.
Proof. reflexivity. Qed.

Lemma parseListing_unlines (remotePath : string) (lines : list string) :
  forallb (fun l => negb (hasLineFeed l)) lines = true ->
  parseListing remotePath (unlines lines) = omap (listingEntry remotePath) lines.
Proof.
  unfold parseListing, nonBlankLines. induction lines as [|l r IH]; intros H; [reflexivity|].
  cbn [forallb] in H. apply andb_true_iff in H as [Hl Hr]. apply negb_true_iff in Hl.
  cbn [unlines foldr]. fold (unlines r). rewrite (split_no_lineFeed l _ Hl).
  cbn [List.filter]. destruct (JS.truthy (JS.trim l)) eqn:T.
  - rewrite !omap_cons. now rewrite (IH Hr).
  - rewrite omap_cons, (listingEntry_blank _ _ T). now apply IH.
Qed.

Lemma hasLineFeed_append (a b : string) :
  hasLineFeed (a +:+ b) = hasLineFeed a || hasLineFeed b.
Proof.
  induction a as [|c a IH]; [now rewrite append_empty_l|].
  rewrite append_cons. cbn [hasLineFeed]. now rewrite IH, orb_assoc.
Qed.

Lemma hasLineFeed_field (f : string) : hasSpace f = false -> hasLineFeed f = false.
Proof.
  induction f as [|c f IH]; [reflexivity|]. cbn [hasSpace hasLineFeed]. intros H.
  apply orb_false_iff in H as [Hc Hf]. rewrite (IH Hf), orb_false_r.
  apply bool_decide_eq_false. intros ->. discriminate.
Qed.

Lemma hasLineFeed_blanks (s : string) : blanks s = true -> hasLineFeed s = false.
Proof.
  induction s as [|c s IH]; [reflexivity|]. cbn [blanks hasLineFeed]. intros H.
  apply andb_true_iff in H as [H1 H2]. apply andb_true_iff in H1 as [_ H1].
  apply negb_true_iff in H1. now rewrite H1, (IH H2).
Qed.

Lemma hasLineFeed_rowLine (row : string * list (string * string)) :
  listingRow row = true -> hasLineFeed (rowLine row) = false.
Proof.
  destruct row as [first rest]. unfold listingRow, rowLine. cbn [fst snd].
  intros H. apply andb_true_iff in H as [H _]. apply andb_true_iff in H as [Hf Hr].
  revert first Hf. induction rest as [|[sep f] r IH]; intros first Hf.
  - cbn [fieldsLine]. apply hasLineFeed_field.
    unfold isField in Hf. apply andb_true_iff in Hf as [_ Hs]. now apply negb_true_iff.
  - cbn [forallb fst snd] in Hr. apply andb_true_iff in Hr as [H1 Hr].
    apply andb_true_iff in H1 as [Hsep Hfield].
    cbn [fieldsLine]. rewrite !hasLineFeed_append, (IH Hr f Hfield), orb_false_r.
    apply orb_false_iff. split.
    + apply hasLineFeed_field. unfold isField in Hf.
      apply andb_true_iff in Hf as [_ Hs]. now apply negb_true_iff.
    + apply hasLineFeed_blanks. unfold isSeparator in Hsep.
      now apply andb_true_iff in Hsep as [_ Hs].
Qed.

(** X20. A listing read back. Take rows as [rsync --list-only] prints
    them: permissions, then at least four more fields, the last of them
    the name, with blanks between the fields and a line feed after each
    row. What the browser makes of that output is, row by row and in
    order, the entry the row stands for: the name, whether the
    permissions begin with [d], and the path under the remote path; the
    rows of [.] and [..] are left out. *)
Theorem X20_listing_read_back (remotePath : string)
    (rows : list (string * list (string * string))) :
  forallb listingRow rows = true ->
  parseListing remotePath (unlines (map rowLine rows)) = omap (rowEntry remotePath) rows.
Proof.
  intros H. rewrite parseListing_unlines.
  - induction rows as [|row r IH]; [reflexivity|].
    cbn [forallb] in H. apply andb_true_iff in H as [H1 H2].
    cbn [map]. rewrite !omap_cons.
    now rewrite (listingEntry_rowLine remotePath row H1), (IH H2).
  - induction rows as [|row r IH]; [reflexivity|].
    cbn [forallb] in H. apply andb_true_iff in H as [H1 H2].
    cbn [map forallb]. now rewrite (hasLineFeed_rowLine row H1), (IH H2).
Qed.

Lemma X20_listing_read_back_witness :
  forallb listingRow
    [("drwxr-xr-x", [("          ", "4,096"); (" ", "2024/01/15"); (" ", "10:30:00");
                     (" ", "photos")])] = true
  /\ parseListing "docs"
       (unlines (map rowLine
          [("drwxr-xr-x", [("          ", "4,096"); (" ", "2024/01/15"); (" ", "10:30:00");
                           (" ", "photos")])]))
     = [{| entryName := "photos"; entryIsDirectory := true; entryPath := "docs/photos" |}].
Proof.
  split; [reflexivity|].
  exact (X20_listing_read_back "docs"
           [("drwxr-xr-x", [("          ", "4,096"); (" ", "2024/01/15"); (" ", "10:30:00");
                            (" ", "photos")])] eq_refl).
Defined.


(** ** Invariants of the trace *)

Lemma callbacks_emit_sessions (d : list Event) (S : list SessionConfig) (w : World) :
  callbacks (emit d (set_sessions S w)) = callbacks w.
Proof. reflexivity. Qed.

Lemma quiet_rsync (d : list Event) :
  forallb rsyncEvent d = true -> forallb quietEvent d = true.
Proof.
  induction d as [|ev d IH]; [reflexivity|]. cbn [forallb]. intros H.
  apply andb_true_iff in H as [H1 H2]. rewrite (IH H2), andb_true_r.
  destruct ev; try discriminate; reflexivity.
Qed.

Lemma quiet_consoles (lines : list string) : forallb quietEvent (map Console lines) = true.
Proof. induction lines as [|l r IH]; [reflexivity | exact IH]. Qed.

Section Advances.
Variable Q : list Event -> Prop.
Variable F : bool * bool * bool * bool * bool.
Hypothesis Q_app : forall a b, Q a -> Q b -> Q (a ++ b).
Hypothesis Q_quiet : forall d, forallb quietEvent d = true -> Q d.
Hypothesis Q_sync :
  forall w sessionId session lc e d snapshot,
    callbacks w = F -> forallb rsyncEvent d = true ->
    Q (prologue w sessionId session lc ++ d
         ++ epilogue w sessionId session lc e (rsyncOutcome session e) snapshot).

Lemma advances_refl (w : World) : advances Q w w.
Proof.
  split; [|reflexivity]. exists []. split; [now rewrite app_nil_r | now apply Q_quiet].
Qed.

Lemma advances_trans (a b c : World) : advances Q a b -> advances Q b c -> advances Q a c.
Proof.
  intros [(d1 & T1 & Q1) C1] [(d2 & T2 & Q2) C2]. split; [|congruence].
  exists (d1 ++ d2). split; [now rewrite T2, T1, app_assoc | now apply Q_app].
Qed.

Lemma advances_callbacks (w w' : World) :
  advances Q w w' -> callbacks w = F -> callbacks w' = F.
Proof. intros [_ C] H. congruence. Qed.

Lemma advances_emit (d : list Event) (w : World) :
  forallb quietEvent d = true -> advances Q w (emit d w).
Proof.
  intros H. split; [|reflexivity]. exists d. split; [reflexivity | now apply Q_quiet].
Qed.

Lemma advances_console (line : string) (w : World) : advances Q w (console line w).
Proof. now apply advances_emit. Qed.

Lemma advances_same (w w' : World) :
  trace w' = trace w -> callbacks w' = callbacks w -> advances Q w w'.
Proof.
  intros T C. split; [|exact C]. exists []. split; [now rewrite app_nil_r | now apply Q_quiet].
Qed.

Lemma advances_grows (w w' : World) :
  grows w w' -> callbacks w' = callbacks w -> advances Q w w'.
Proof.
  intros [lines T] C. split; [|exact C]. exists (map Console lines).
  split; [exact T | apply Q_quiet, quiet_consoles].
Qed.

Lemma advances_fold_left {A} (f : World -> A -> World) (l : list A) (w : World) :
  (forall w0 x, callbacks w0 = F -> advances Q w0 (f w0 x)) ->
  callbacks w = F -> advances Q w (fold_left f l w).
Proof.
  intros Hf. revert w. induction l as [|x l IH]; intros w Hw; [apply advances_refl|].
  simpl. pose proof (Hf w x Hw) as H1.
  eapply advances_trans; [exact H1|]. apply IH. now apply (advances_callbacks w).
Qed.

Lemma advances_syncSession (sessionId : string) (lc : bool) (e : SyncEnv) (w : World) :
  callbacks w = F -> advances Q w (fst (syncSession sessionId lc e w)).
Proof.
  intros Hw. destruct (findSession sessionId (sessions w)) as [session|] eqn:Hf.
  - destruct (syncSession_form sessionId session lc e w Hf) as (d & Hd & _ & Heq).
    rewrite Heq. cbn [fst]. split; [|reflexivity].
    eexists. split; [reflexivity|]. now apply Q_sync.
  - unfold syncSession. rewrite Hf. apply advances_refl.
Qed.

Lemma advances_requestSync (sessionId : string) (e : SyncEnv) (w : World) :
  callbacks w = F -> advances Q w (requestSync sessionId e w).
Proof.
  intros Hw. unfold requestSync, triggerSync.
  destruct (globallyPaused w); [apply advances_console|].
  set (w0 := if logCallbackFactory w then emit [LogFactory sessionId] w else w).
  assert (H0 : advances Q w w0).
  { subst w0. destruct (logCallbackFactory w);
      [now apply advances_emit | apply advances_refl]. }
  assert (Hrun : advances Q w
                   (let '(w1, o) := syncSession sessionId (logCallbackFactory w0) e w0 in
                    match o with
                    | Rejected m => console (JS.errorToString m) w1
                    | Resolved => w1
                    end)).
  { pose proof (advances_syncSession sessionId (logCallbackFactory w0) e w0
                  (advances_callbacks _ _ H0 Hw)) as H1.
    destruct (syncSession _ _ _ _) as [w1 [|m]]; cbn [fst] in H1.
    - eapply advances_trans; eassumption.
    - eapply advances_trans; [|apply advances_console].
      eapply advances_trans; eassumption. }
  destruct (findSession sessionId (sessions w)) as [session|].
  - destruct (bool_decide (paused session = Some true)); [apply advances_console|].
    fold w0. destruct (syncSession _ _ _ _) as [w1 [|m]]; exact Hrun.
  - fold w0. destruct (syncSession _ _ _ _) as [w1 [|m]]; exact Hrun.
Qed.

Lemma advances_console_requestSync (line sessionId : string) (e : SyncEnv) (w : World) :
  callbacks w = F -> advances Q w (requestSync sessionId e (console line w)).
Proof.
  intros Hw. eapply advances_trans; [apply advances_console|].
  now apply advances_requestSync.
Qed.

Lemma advances_checkWiFiTrigger (sid sn : string) (prev cur : option string)
    (fe : FireEnv) (w : World) (trigger : Trigger) :
  callbacks w = F -> advances Q w (checkWiFiTrigger sid sn prev cur fe w trigger).
Proof.
  intros Hw. destruct trigger as [t| | | |]; try apply advances_refl.
  cbn [checkWiFiTrigger].
  set (w1 := if wifiOnConnect t cur then _ else w).
  assert (H1 : advances Q w w1).
  { subst w1. destruct (wifiOnConnect t cur); [|apply advances_refl].
    now apply advances_console_requestSync. }
  destruct (wifiOnDisconnect t prev cur); [|exact H1].
  eapply advances_trans; [exact H1|]. apply advances_console_requestSync.
  now apply (advances_callbacks w).
Qed.

Lemma advances_runCallback (cb : Callback) (fe : FireEnv) (w : World) :
  callbacks w = F -> advances Q w (runCallback cb fe w).
Proof.
  intros Hw. destruct cb as [|sid sn t|sid sn k f|sid sn t|sid sn t|]; cbn [runCallback].
  - now apply advances_same.
  - unfold checkSchedule.
    destruct (scheduleTimeMatches t (date fe)); [|apply advances_refl].
    destruct (scheduleShouldTrigger t (date fe)); [|apply advances_refl].
    now apply advances_console_requestSync.
  - cbv zeta. eapply advances_trans; [now apply advances_console_requestSync|].
    now apply advances_same.
  - now apply advances_console_requestSync.
  - unfold executeSync.
    destruct (intervalInWindow t (date fe)); [|apply advances_refl].
    now apply advances_console_requestSync.
  - unfold checkNetwork.
    destruct (bool_decide (sampledSSID fe = currentSSID w)); [apply advances_refl|].
    cbv zeta.
    eapply advances_trans;
      [apply (advances_same w (set_currentSSID (sampledSSID fe) w)); reflexivity|].
    apply advances_fold_left; [|exact Hw].
    intros w0 s H0. apply advances_fold_left; [|exact H0].
    intros w1 t H1. now apply advances_checkWiFiTrigger.
Qed.

Lemma advances_fireTimer (h : nat) (fe : FireEnv) (w : World) :
  callbacks w = F -> advances Q w (fireTimer h fe w).
Proof.
  intros Hw. unfold fireTimer. destruct (liveTimers w !! h) as [t|]; [|apply advances_refl].
  destruct (due t <=? clock w); [|apply advances_refl].
  eapply advances_trans; [|apply advances_runCallback; destruct (repeating t); exact Hw].
  destruct (repeating t).
  - split; [|reflexivity]. exists [Ran h (callback t)]. split; [reflexivity|].
    now apply Q_quiet.
  - split; [|reflexivity]. exists [Ran h (callback t)]. split; [reflexivity|].
    now apply Q_quiet.
Qed.

Lemma advances_fileEvent (h : nat) (filename : option string)
    (regexTest : string -> string -> bool) (w : World) :
  advances Q w (fileEvent h filename regexTest w).
Proof.
  unfold fileEvent. destruct (openWatchers w !! h) as [wt|]; [|apply advances_refl].
  unfold onFileChange. destruct filename as [f|]; [|apply advances_refl].
  destruct (JS.truthy f); [|apply advances_refl].
  destruct (negb _); [|apply advances_refl].
  cbv zeta. destruct (timers w !! _); now apply advances_same.
Qed.

Lemma advances_setSessionPaused (b : bool) (word sessionId : string)
    (saveErr : option string) (w : World) :
  advances Q w (setSessionPaused b word sessionId saveErr w).
Proof.
  destruct (findSession sessionId (sessions w)) as [session|] eqn:Hf.
  - split.
    + eexists. split; [apply (setSessionPaused_trace b word sessionId session saveErr w Hf)|].
      apply Q_quiet. destruct (saveSessionsCallback w); [destruct saveErr|]; reflexivity.
    + unfold setSessionPaused. rewrite Hf. cbv zeta.
      match goal with |- callbacks (if ?c then _ else _) = _ => destruct c end;
        [destruct saveErr|]; reflexivity.
  - unfold setSessionPaused. rewrite Hf. apply advances_refl.
Qed.

Lemma advances_start (watchOk : string -> bool) (w : World) :
  advances Q w (start watchOk w).
Proof. apply advances_grows; [apply grows_start | apply sameSessions_start]. Qed.

Lemma advances_stop (w : World) : advances Q w (stop w).
Proof. apply advances_same; [apply trace_stop | apply sameSessions_stop]. Qed.

Lemma advances_updateSessions (ss : list SessionConfig) (watchOk : string -> bool)
    (w : World) :
  advances Q w (updateSessions ss watchOk w).
Proof.
  apply advances_grows; [apply grows_updateSessions | apply sameSessions_updateSessions].
Qed.

Lemma advances_step (w : World) (i : Input) :
  callbacks w = F -> advances Q w (step w i).
Proof.
  intros Hw. destruct i; cbn [step].
  - now apply advances_fireTimer.
  - apply advances_fileEvent.
  - now apply advances_same.
  - apply advances_start.
  - apply advances_stop.
  - apply advances_updateSessions.
  - eapply advances_trans;
      [apply (advances_same w (set_globallyPaused true w)); reflexivity
      | apply advances_console].
  - eapply advances_trans;
      [apply (advances_same w (set_globallyPaused false w)); reflexivity
      | apply advances_console].
  - apply advances_setSessionPaused.
  - apply advances_setSessionPaused.
  - unfold syncNow.
    pose proof (advances_syncSession sessionId true e w Hw) as H1.
    destruct (syncSession sessionId true e w) as [w1 [|m]]; cbn [fst] in *.
    + assert (H2 : advances Q w
                     (emit [Log LSuccess "Synchronization completed successfully"] w1)).
      { eapply advances_trans; [exact H1 | now apply advances_emit]. }
      destruct (findSession sessionId disk); cbn [fst]; [|exact H2].
      eapply advances_trans; [exact H2 | apply advances_updateSessions].
    + eapply advances_trans; [exact H1 | apply advances_console].
Qed.

Lemma advances_run (w : World) (inputs : list Input) :
  callbacks w = F -> advances Q w (run w inputs).
Proof.
  intros Hw. unfold run. apply advances_fold_left; [|exact Hw].
  intros w0 i. apply advances_step.
Qed.

End Advances.

Lemma brackets_app (a b : list Event) : brackets (a ++ b) = brackets a ++ brackets b.
Proof. apply List.filter_app. Qed.

Lemma brackets_quiet (d : list Event) : forallb quietEvent d = true -> brackets d = [].
Proof.
  induction d as [|ev d IH]; [reflexivity|]. cbn [forallb]. intros H.
  apply andb_true_iff in H as [H1 H2]. unfold brackets in *. cbn [List.filter].
  destruct ev; try discriminate; now apply IH.
Qed.

Lemma brackets_logEvents (lc : bool) (t : LogType) (m : string) :
  brackets (logEvents lc t m) = [].
Proof. destruct lc; reflexivity. Qed.

Lemma paired_app (a b : list Event) : paired a -> paired b -> paired (a ++ b).
Proof.
  intros [i1 H1] [i2 H2]. exists (i1 ++ i2).
  now rewrite brackets_app, H1, H2, flat_map_app.
Qed.

Lemma paired_quiet (d : list Event) : forallb quietEvent d = true -> paired d.
Proof. intros H. exists []. now apply brackets_quiet. Qed.

Lemma paired_sync (both : bool) (w : World) (sessionId : string) (session : SessionConfig)
    (lc : bool) (e : SyncEnv) (d : list Event) (snapshot : list SessionConfig) (a b f : bool) :
  callbacks w = (a, b, both, both, f) -> forallb rsyncEvent d = true ->
  paired (prologue w sessionId session lc ++ d
            ++ epilogue w sessionId session lc e (rsyncOutcome session e) snapshot).
Proof.
  intros Hw Hd. unfold callbacks in Hw. injection Hw as _ _ Hs He _.
  exists (if both then [sessionId] else []).
  rewrite !brackets_app, (brackets_quiet d (quiet_rsync d Hd)).
  unfold prologue, epilogue, saveEvents. rewrite Hs.
  destruct (rsyncOutcome session e); rewrite He, !brackets_app, !brackets_logEvents;
    destruct both, (saveSessionsCallback w), (saveError e), (notificationCallback w),
      (notifyError e), lc; reflexivity.
Qed.

Lemma occurrences_brackets (ev : Event) (d : list Event) :
  isBracket ev = true -> occurrences ev d = occurrences ev (brackets d).
Proof.
  intros Hev. induction d as [|x d IH]; [reflexivity|].
  unfold brackets in *. cbn [List.filter]. destruct (isBracket x) eqn:Hx.
  - destruct (decide (x = ev)) as [->|Hne].
    + now rewrite !occurrences_cons_eq, IH.
    + now rewrite !occurrences_cons_ne, IH.
  - rewrite occurrences_cons_ne; [exact IH|]. intros ->. now rewrite Hev in Hx.
Qed.

Lemma occurrences_pairs (s : string) (ids : list string) :
  occurrences (SyncStart s) (flat_map (fun i => [SyncStart i; SyncEnd i]) ids)
  = occurrences (SyncEnd s) (flat_map (fun i => [SyncStart i; SyncEnd i]) ids).
Proof.
  induction ids as [|i ids IH]; [reflexivity|]. cbn [flat_map app].
  destruct (decide (i = s)) as [->|Hne].
  - rewrite occurrences_cons_eq, (occurrences_cons_ne (SyncStart s) (SyncEnd s)) by discriminate.
    rewrite (occurrences_cons_ne (SyncEnd s) (SyncStart s)) by discriminate.
    now rewrite occurrences_cons_eq, IH.
  - rewrite (occurrences_cons_ne (SyncStart s) (SyncStart i)) by congruence.
    rewrite (occurrences_cons_ne (SyncStart s) (SyncEnd i)) by discriminate.
    rewrite (occurrences_cons_ne (SyncEnd s) (SyncStart i)) by discriminate.
    rewrite (occurrences_cons_ne (SyncEnd s) (SyncEnd i)) by congruence.
    exact IH.
Qed.


Lemma errorNotice_quiet (d : list Event) :
  forallb quietEvent d = true -> forallb errorNotice d = true.
Proof.
  induction d as [|ev d IH]; [reflexivity|]. cbn [forallb]. intros H.
  apply andb_true_iff in H as [H1 H2]. rewrite (IH H2), andb_true_r.
  destruct ev; try discriminate; reflexivity.
Qed.

Lemma errorNotice_logEvents (lc : bool) (t : LogType) (m : string) :
  forallb errorNotice (logEvents lc t m) = true.
Proof. destruct lc; reflexivity. Qed.

Lemma errorNotice_sync (w : World) (sessionId : string) (session : SessionConfig)
    (lc : bool) (e : SyncEnv) (d : list Event) (snapshot : list SessionConfig) :
  forallb rsyncEvent d = true ->
  forallb errorNotice
    (prologue w sessionId session lc ++ d
       ++ epilogue w sessionId session lc e (rsyncOutcome session e) snapshot) = true.
Proof.
  intros Hd. rewrite !forallb_app, (errorNotice_quiet d (quiet_rsync d Hd)).
  unfold prologue, epilogue, saveEvents.
  rewrite !forallb_app, !errorNotice_logEvents.
  destruct (rsyncOutcome session e) as [|m]; rewrite !forallb_app, !errorNotice_logEvents.
  - destruct (syncStartCallback w), (saveSessionsCallback w), (saveError e),
      (syncEndCallback w), lc; reflexivity.
  - assert (Hb : JS.startsWith (errorBody (name session) m) "Sync failed for " = true)
      by apply startsWith_append.
    destruct (syncStartCallback w), (saveSessionsCallback w), (saveError e),
      (syncEndCallback w), (notificationCallback w), (notifyError e), lc;
      cbn [forallb errorNotice app andb logEvents]; rewrite ?Hb; reflexivity.
Qed.

(** X22. The manager notifies of failures only. In any state it can reach
    from its construction, every call of the notification callback in the
    trace is the notification of a failed sync: title [imeSync - Sync
    Error], type [error], and a body that begins with [Sync failed for].
    Nothing is notified for a sync that succeeded, was skipped, or could
    not be saved. *)
Theorem X22_notifies_failures_only (ss : list SessionConfig)
    (save notify syncStart syncEnd logFactory : bool) (now : Z) (inputs : list Input) :
  forallb errorNotice
    (trace (run (create ss save notify syncStart syncEnd logFactory now) inputs)) = true.
Proof.
  destruct (advances_run (fun d => forallb errorNotice d = true)
              (save, notify, syncStart, syncEnd, logFactory)
              (fun a b Ha Hb => eq_trans (forallb_app _ a b)
                                  (eq_trans (f_equal2 andb Ha Hb) eq_refl))
              errorNotice_quiet
              (fun w sid s lc e d sn _ H2 => errorNotice_sync w sid s lc e d sn H2)
              (create ss save notify syncStart syncEnd logFactory now) inputs eq_refl)
    as [(d & T & Hd) _].
  rewrite T. exact Hd.
Qed.


(** ** What a run reports of the output of the subprocess *)

Lemma plain_logEvents (lc : bool) (m : string) :
  forallb plainEvent (logEvents lc LInfo m) = true.
Proof. destruct lc; reflexivity. Qed.

Section InfoLogs.
Variable P : Event -> bool.
Hypothesis P_console : forall m, P (Console ("[INFO] " +:+ m)) = true.
Hypothesis P_log : forall m, P (Log LInfo m) = true.

Lemma emitted_info_log (L : list (string * option string)) (lc : bool) (m : string)
    (w T : World) :
  emitted P L w T -> emitted P L w (log lc LInfo m T).
Proof. intros H. apply emitted_log; [exact H | apply P_console | apply P_log]. Qed.

Lemma scanLines_info (L : list (string * option string)) (lc : bool)
    (lines : list string) (n : Z) (sz : string) (w T : World) :
  emitted P L w T ->
  emitted P L w (snd (scanLines lc lines n sz T)).
Proof.
  revert n sz T. induction lines as [|line r IH]; intros n sz T H; [exact H|].
  simpl.
  destruct (JS.includes line "->" || JS.includes line "sent" || JS.includes line "received").
  - apply IH. now apply emitted_info_log.
  - destruct (JS.includes line "Number of files transferred:").
    + destruct (matchFilesTransferred line); now apply IH.
    + destruct (JS.includes line "Total file size:"); [|now apply IH].
      destruct (matchTotalSize line); now apply IH.
Qed.
End InfoLogs.

Ltac info_chain Hc Hl :=
  repeat match goal with
         | |- emitted _ [] ?w ?w => apply emitted_refl
         | |- emitted _ _ _ (log _ LInfo _ _) => apply (emitted_info_log _ Hc Hl)
         | |- emitted _ _ _ (match ?x with _ => _ end) => destruct x
         end.

Lemma plain_console (m : string) : plainEvent (Console ("[INFO] " +:+ m)) = true.
Proof. apply (startsWith_append "[INFO] "). Qed.

Lemma plain_log (m : string) : plainEvent (Log LInfo m) = true.
Proof. reflexivity. Qed.

Lemma trace_emitted (P : Event -> bool) (L : list (string * option string)) (w T : World) :
  emitted P L w T -> exists d, trace T = trace w ++ d /\ forallb P d = true /\ launches d = L.
Proof. intros (d & -> & H1 & H2). exists d. now split. Qed.

(** X23. What a successful run of [rsync] leaves in the log. After the
    launch, the run logs, in this order: lines of level info picked from
    the output; when the output is not empty, one line of level success
    with the duration and then lines of level info with the totals; and
    the standard error as one warning, when it is not empty and does not
    have the word [warning] in it. Standard error that has the word is
    dropped without a trace. Whatever the subprocess printed, the run
    resolves. *)
Theorem X23_output_report (s : SessionConfig) (rc : RemoteConnection) (lc : bool)
    (e : SyncEnv) (stdout stderr : string) (w : World) :
  remoteConnection s = Some rc ->
  sourceExists e = true ->
  execResult e = ExecOk stdout stderr ->
  let w' := fst (syncWithRsync s lc e w) in
  let completed :=
    if JS.truthy stdout
    then logEvents lc LSuccess
           ("Transfer completed in " +:+ JS.numToString (durationSeconds e) +:+ "s")
    else [] in
  let warning :=
    if JS.truthy stderr && negb (JS.includes stderr "warning")
    then logEvents lc LWarning ("Rsync warnings: " +:+ stderr)
    else [] in
  snd (syncWithRsync s lc e w) = Resolved
  /\ exists before after,
       newEvents w w' = before ++ completed ++ after ++ warning
       /\ forallb plainEvent before = true
       /\ forallb plainEvent after = true
       /\ launches before = [(buildCommand s, rsyncPassword s)]
       /\ launches after = []
       /\ (JS.truthy stdout = false -> after = []).
Proof.
  intros Hrc Hsrc Hex w' completed warning.
  subst w'. unfold syncWithRsync. rewrite Hsrc, Hrc, Hex. cbn [negb]. cbv zeta. cbn [fst snd].
  split; [reflexivity|].
  match goal with
  | |- context [reportOutput lc e stdout stderr ?T] =>
      assert (H0 : emitted plainEvent [(buildCommand s, rsyncPassword s)] w T);
      [|set (T0 := T) in *]
  end.
  { change [(buildCommand s, rsyncPassword s)]
      with ([] ++ launches [Exec (buildCommand s) (rsyncPassword s)]).
    apply emitted_emit; [|reflexivity]. info_chain plain_console plain_log. }
  destruct (trace_emitted _ _ _ _ H0) as (d0 & T0eq & P0 & L0).
  unfold reportOutput.
  set (lines := filter (fun l => JS.truthy (JS.trim l) = true) (JS.split "010" stdout)).
  pose proof (scanLines_info plainEvent plain_console plain_log [] lc lines 0 EmptyString
                T0 T0 (emitted_refl _ T0)) as Hs.
  destruct (trace_emitted _ _ _ _ Hs) as (d1 & T1eq & P1 & L1).
  subst completed warning.
  destruct (JS.truthy stdout) eqn:Hout.
  - cbv zeta. fold lines. destruct (scanLines lc lines 0 EmptyString T0) as [[n sz] w1].
    cbn [snd] in T1eq.
    exists (d0 ++ d1),
      (logEvents lc LInfo ("Files transferred: " +:+ JS.numToString n)
       ++ (if JS.truthy sz then logEvents lc LInfo ("Total size: " +:+ sz +:+ " bytes")
           else [])).
    split.
    { apply newEvents_grows.
      destruct (JS.truthy stderr && negb (JS.includes stderr "warning")), (JS.truthy sz);
        cbn [trace log emit set_trace]; rewrite T1eq, T0eq, <- ?app_assoc, ?app_nil_r;
        reflexivity. }
    split; [rewrite forallb_app; now rewrite P0, P1|].
    split.
    { rewrite forallb_app, plain_logEvents. destruct (JS.truthy sz);
        [apply plain_logEvents | reflexivity]. }
    split; [rewrite launches_app, L0, L1; reflexivity|].
    split; [|discriminate].
    rewrite launches_app. destruct (JS.truthy sz), lc; reflexivity.
  - exists d0, []. split.
    { apply newEvents_grows.
      destruct (JS.truthy stderr && negb (JS.includes stderr "warning"));
        cbn [trace log emit set_trace app]; rewrite T0eq, <- ?app_assoc, ?app_nil_r;
        reflexivity. }
    repeat split; try assumption; reflexivity.
Qed.

Lemma X23_output_report_witness :
  remoteConnection scenarioSession
  = Some {| host := "h"; username := "u"; password := None; port := None;
            remotePath := "p"; moduleName := Some "m" |}
  /\ sourceExists envOk = true
  /\ execResult envOk = ExecOk EmptyString EmptyString
  /\ snd (syncWithRsync scenarioSession true envOk scenarioWorld) = Resolved.
Proof.
  repeat (split; [reflexivity|]).
  exact (proj1 (X23_output_report scenarioSession _ true envOk EmptyString EmptyString
                  scenarioWorld eq_refl eq_refl eq_refl)).
Defined.


(** ** Reading the statistics back *)

Lemma pretty_N_char_value (y : N) :
  (y < 10)%N ->
  Z.of_nat (nat_of_ascii (pretty_N_char y)) - 48 = Z.of_N y
  /\ JS.isDigit (pretty_N_char y) = true.
Proof.
  intros H.
  assert (y = 0 \/ y = 1 \/ y = 2 \/ y = 3 \/ y = 4 \/ y = 5 \/ y = 6 \/ y = 7
          \/ y = 8 \/ y = 9)%N as Hy by lia.
  repeat (destruct Hy as [->|Hy]; [split; reflexivity|]). subst y. split; reflexivity.
Qed.

Lemma digitsValue_pretty_N_go (x : N) (s : string) :
  JS.digitsValue 0 (pretty_N_go x s) = JS.digitsValue (Z.of_N x) s.
Proof.
  revert s. induction (N.lt_wf_0 x) as [x _ IH]. intros s.
  assert (x = 0 \/ 0 < x)%N as [->|Hx] by lia; [now rewrite pretty_N_go_0|].
  rewrite pretty_N_go_step by exact Hx.
  rewrite IH by (apply N.div_lt; lia). cbn [JS.digitsValue].
  destruct (pretty_N_char_value (x mod 10)%N) as [-> _]; [apply N.mod_lt; lia|].
  f_equal. rewrite (N.div_mod x 10) at 3 by lia. lia.
Qed.

Lemma allDigits_pretty_N_go (x : N) (s : string) :
  JS.allDigits s = true -> JS.allDigits (pretty_N_go x s) = true.
Proof.
  revert s. induction (N.lt_wf_0 x) as [x _ IH]. intros s Hs.
  assert (x = 0 \/ 0 < x)%N as [->|Hx] by lia; [now rewrite pretty_N_go_0|].
  rewrite pretty_N_go_step by exact Hx.
  apply IH; [apply N.div_lt; lia|]. cbn [JS.allDigits].
  destruct (pretty_N_char_value (x mod 10)%N) as [_ ->]; [apply N.mod_lt; lia|].
  exact Hs.
Qed.

Lemma numToString_digits (k : Z) :
  0 <= k ->
  JS.allDigits (JS.numToString k) = true /\ JS.digitsValue 0 (JS.numToString k) = k.
Proof.
  intros Hk. unfold JS.numToString, pretty, pretty_Z.
  destruct k as [|p|p]; [split; reflexivity | | lia].
  unfold pretty, pretty_positive, pretty, pretty_N.
  destruct (decide (N.pos p = 0%N)) as [E|_]; [discriminate|].
  split; [now apply allDigits_pretty_N_go|].
  rewrite digitsValue_pretty_N_go. reflexivity.
Qed.

Lemma numToString_truthy (k : Z) : 0 <= k -> JS.truthy (JS.numToString k) = true.
Proof.
  intros Hk. destruct (numToString_digits k Hk) as [_ Hv].
  destruct (JS.numToString k) eqn:E; [|reflexivity].
  cbn in Hv. subst k. discriminate E.
Qed.

Lemma takeDigits_allDigits (d : string) : JS.allDigits d = true -> takeDigits d = d.
Proof.
  induction d as [|c d IH]; [reflexivity|]. cbn [JS.allDigits takeDigits].
  intros H. apply andb_true_iff in H as [-> H]. now rewrite IH.
Qed.

Lemma dropPrefix_append (p s : string) : dropPrefix p (p +:+ s) = Some s.
Proof.
  induction p as [|a p IH]; [reflexivity|]. rewrite append_cons. cbn [dropPrefix].
  now rewrite decide_True.
Qed.

Lemma mismatch_startsWith (t p d : string) :
  mismatch t p = true -> JS.startsWith (t +:+ d) p = false.
Proof.
  revert t. induction p as [|a p IH]; intros t H; [discriminate|].
  destruct t as [|b t]; [discriminate|]. rewrite append_cons.
  cbn [mismatch JS.startsWith] in *. destruct (decide (a = b)); [now apply IH | reflexivity].
Qed.

Lemma noOverlap_includes (pre p d : string) :
  noOverlap pre p = true -> JS.includes (pre +:+ d) p = JS.includes d p.
Proof.
  induction pre as [|c pre IH]; [reflexivity|]. cbn [noOverlap]. intros H.
  apply andb_true_iff in H as [H1 H2]. rewrite append_cons. cbn [JS.includes].
  rewrite <- append_cons, (mismatch_startsWith _ _ d H1). now apply IH.
Qed.

Lemma includes_digits (d : string) (a : ascii) (p : string) :
  JS.allDigits d = true -> JS.isDigit a = false -> JS.includes d (String a p) = false.
Proof.
  intros Hd Ha. induction d as [|c d IH]; [reflexivity|].
  cbn [JS.allDigits] in Hd. apply andb_true_iff in Hd as [Hc Hd].
  cbn [JS.includes JS.startsWith]. rewrite (IH Hd), orb_false_r.
  destruct (decide (a = c)) as [->|_]; [congruence | reflexivity].
Qed.

Lemma countLine_not_echoed (k : Z) : 0 <= k -> echoedLine (countLine k) = false.
Proof.
  intros Hk. destruct (numToString_digits k Hk) as [Hd _].
  unfold echoedLine, countLine.
  rewrite !noOverlap_includes by reflexivity.
  now rewrite !includes_digits by (exact Hd || reflexivity).
Qed.

Lemma matchFilesTransferred_countLine (k : Z) :
  0 <= k -> matchFilesTransferred (countLine k) = Some (JS.numToString k).
Proof.
  intros Hk. destruct (numToString_digits k Hk) as [Hd _].
  unfold countLine.
  assert (H : dropPrefix "Number of files transferred: "
                ("Number of files transferred: " +:+ JS.numToString k)
              = Some (JS.numToString k)) by apply dropPrefix_append.
  destruct ("Number of files transferred: " +:+ JS.numToString k) eqn:E;
    cbn [matchFilesTransferred]; rewrite H; cbv zeta;
    rewrite (takeDigits_allDigits _ Hd), (numToString_truthy k Hk); reflexivity.
Qed.

Lemma greedyDots_suffix (size : string) :
  allDots size = true -> greedyDots " bytes" (size +:+ " bytes") = Some size.
Proof.
  induction size as [|c size IH]; [reflexivity|]. cbn [allDots]. intros H.
  apply andb_true_iff in H as [Hc H]. rewrite append_cons. cbn [greedyDots].
  now rewrite Hc, (IH H).
Qed.

Lemma matchTotalSize_sizeLine (size : string) :
  size <> EmptyString -> allDots size = true ->
  matchTotalSize (sizeLine size) = Some size.
Proof.
  intros Hne Hd. destruct size as [|c size]; [contradiction|].
  cbn [allDots] in Hd. apply andb_true_iff in Hd as [Hc Hd].
  unfold sizeLine.
  assert (H : dropPrefix "Total file size: "
                ("Total file size: " +:+ String c size +:+ " bytes")
              = Some (String c (size +:+ " bytes"))) by apply dropPrefix_append.
  destruct ("Total file size: " +:+ String c size +:+ " bytes") eqn:E;
    cbn [matchTotalSize]; rewrite H; cbv zeta;
    rewrite Hc, (greedyDots_suffix size Hd); reflexivity.
Qed.

Lemma scanLines_echoes (lc : bool) (lines : list string) (n : Z) (sz : string) (w : World) :
  trace (snd (scanLines lc lines n sz w))
  = trace w ++ flat_map (logEvents lc LInfo) (List.filter echoedLine lines).
Proof.
  revert n sz w. induction lines as [|line r IH]; intros n sz w.
  - cbn. now rewrite app_nil_r.
  - cbn [scanLines List.filter]. unfold echoedLine at 1.
    destruct (JS.includes line "->" || JS.includes line "sent" || JS.includes line "received").
    + rewrite IH. cbn [flat_map]. destruct lc; cbn [log emit trace set_trace logEvents app];
        now rewrite <- app_assoc.
    + destruct (JS.includes line "Number of files transferred:").
      * destruct (matchFilesTransferred line); apply IH.
      * destruct (JS.includes line "Total file size:"); [|apply IH].
        destruct (matchTotalSize line); apply IH.
Qed.

Lemma scanLines_app (lc : bool) (a b : list string) (n : Z) (sz : string) (w : World) :
  scanLines lc (a ++ b) n sz w
  = scanLines lc b (fst (fst (scanLines lc a n sz w))) (snd (fst (scanLines lc a n sz w)))
      (snd (scanLines lc a n sz w)).
Proof.
  revert n sz w. induction a as [|line r IH]; intros n sz w; [reflexivity|].
  cbn [app scanLines].
  destruct (JS.includes line "->" || JS.includes line "sent" || JS.includes line "received");
    [apply IH|].
  destruct (JS.includes line "Number of files transferred:").
  - destruct (matchFilesTransferred line); apply IH.
  - destruct (JS.includes line "Total file size:"); [|apply IH].
    destruct (matchTotalSize line); apply IH.
Qed.




(** ** Saving from the dialog *)




(** ** The log file of a sync is ended once *)

Lemma includes_lacks (a : ascii) (d r p : string) :
  lacks a d = true -> JS.includes (d +:+ r) (String a p) = JS.includes r (String a p).
Proof.
  induction d as [|c d IH]; [reflexivity|]. cbn [lacks]. intros H.
  apply andb_true_iff in H as [Hc Hd]. rewrite append_cons.
  cbn [JS.includes JS.startsWith]. rewrite (IH Hd).
  destruct (decide (a = c)) as [->|_]; [|reflexivity].
  now rewrite bool_decide_eq_true_2 in Hc.
Qed.

Lemma lacks_pretty_N_go (a : ascii) (x : N) (s : string) :
  JS.isDigit a = false -> lacks a s = true -> lacks a (pretty_N_go x s) = true.
Proof.
  intros Ha. revert s. induction (N.lt_wf_0 x) as [x _ IH]. intros s Hs.
  assert (x = 0 \/ 0 < x)%N as [->|Hx] by lia; [now rewrite pretty_N_go_0|].
  rewrite pretty_N_go_step by exact Hx.
  apply IH; [apply N.div_lt; lia|]. cbn [lacks]. rewrite Hs, andb_true_r.
  destruct (pretty_N_char_value (x mod 10)%N) as [_ Hd]; [apply N.mod_lt; lia|].
  apply negb_true_iff, bool_decide_eq_false_2. intros ->. congruence.
Qed.

Lemma lacks_numToString (a : ascii) (k : Z) :
  JS.isDigit a = false -> a <> "-"%char -> lacks a (JS.numToString k) = true.
Proof.
  intros Ha Hm. unfold JS.numToString, pretty, pretty_Z.
  assert (Hp : forall p : positive, lacks a (pretty p) = true).
  { intros p. unfold pretty, pretty_positive, pretty, pretty_N.
    destruct (decide (N.pos p = 0%N)) as [E|_]; [discriminate|].
    now apply lacks_pretty_N_go. }
  destruct k as [|p|p].
  - cbn [lacks]. rewrite andb_true_r. apply negb_true_iff, bool_decide_eq_false_2.
    intros ->. discriminate Ha.
  - apply Hp.
  - change ("-" +:+ pretty p) with (String "-" (pretty p)). cbn [lacks].
    rewrite Hp, andb_true_r. now apply negb_true_iff, bool_decide_eq_false_2.
Qed.

Lemma keeps_console (m : string) : keepsSyncLog (Console ("[INFO] " +:+ m)) = true.
Proof. reflexivity. Qed.

Lemma keeps_log (m : string) : keepsSyncLog (Log LInfo m) = true.
Proof. reflexivity. Qed.

Lemma keeps_transfer (lc : bool) (k : Z) :
  forallb keepsSyncLog
    (logEvents lc LSuccess ("Transfer completed in " +:+ JS.numToString k +:+ "s")) = true.
Proof.
  assert (H : JS.includes ("Transfer completed in " +:+ JS.numToString k +:+ "s")
                "Sync completed" = false).
  { rewrite noOverlap_includes by reflexivity.
    rewrite includes_lacks; [reflexivity|].
    apply lacks_numToString; [reflexivity | discriminate]. }
  unfold logEvents, keepsSyncLog. destruct lc; cbn [forallb endsSyncLog negb andb];
    now rewrite ?H.
Qed.

Lemma keeps_logEvents (lc : bool) (t : LogType) (m : string) :
  t = LInfo \/ t = LWarning -> forallb keepsSyncLog (logEvents lc t m) = true.
Proof. intros [->| ->]; destruct lc; reflexivity. Qed.

Lemma emit_inj (d d' : list Event) (w : World) : emit d w = emit d' w -> d = d'.
Proof.
  intros H. apply (f_equal trace) in H. cbn [emit trace set_trace] in H.
  now apply app_inv_head in H.
Qed.

(** [syncWithRsync] ends no log file, when the error of the subprocess
    does not happen to have the words in it. *)
Lemma syncWithRsync_keeps (s : SessionConfig) (lc : bool) (e : SyncEnv) (w : World) :
  (forall m, execResult e = ExecError m -> JS.includes m "Sync failed" = false) ->
  exists d, fst (syncWithRsync s lc e w) = emit d w /\ forallb keepsSyncLog d = true.
Proof.
  intros Hm.
  assert (H : exists L, emitted keepsSyncLog L w (fst (syncWithRsync s lc e w))).
  { unfold syncWithRsync. destruct (sourceExists e); cbn [negb].
    2:{ exists []. apply emitted_refl. }
    destruct (remoteConnection s) as [rc|].
    2:{ exists []. cbn [fst]. info_chain keeps_console keeps_log. }
    cbv zeta.
    match goal with
    | |- context [emit [Exec ?c ?p] ?T] =>
        assert (H0 : emitted keepsSyncLog ([] ++ launches [Exec c p]) w (emit [Exec c p] T));
        [apply emitted_emit; [info_chain keeps_console keeps_log | reflexivity]
        |set (T0 := emit [Exec c p] T) in *]
    end.
    clearbody T0. eexists.
    destruct (execResult e) as [stdout stderr|m] eqn:Ex; cbn [fst].
    - unfold reportOutput.
      assert (H1 : emitted keepsSyncLog ([] ++ launches [Exec (buildCommand s) (rsyncPassword s)]) w
                (if JS.truthy stdout
                 then
                   let lines := filter (fun l => JS.truthy (JS.trim l) = true)
                                  (JS.split "010" stdout) in
                   let '(filesTransferred, totalSize, w0) :=
                     scanLines lc lines 0 EmptyString T0 in
                   let w1 := log lc LSuccess
                               ("Transfer completed in "
                                  +:+ JS.numToString (durationSeconds e) +:+ "s") w0 in
                   let w2 := log lc LInfo
                               ("Files transferred: " +:+ JS.numToString filesTransferred) w1 in
                   if JS.truthy totalSize
                   then log lc LInfo ("Total size: " +:+ totalSize +:+ " bytes") w2
                   else w2
                 else T0)).
      { destruct (JS.truthy stdout); [|exact H0]. cbv zeta.
        pose proof (scanLines_info keepsSyncLog keeps_console keeps_log _ lc
                      (filter (fun l => JS.truthy (JS.trim l) = true) (JS.split "010" stdout))
                      0 EmptyString w T0 H0) as Hs.
        destruct (scanLines lc _ 0 EmptyString T0) as [[n sz] w0]. cbn [snd] in Hs.
        assert (H2 : emitted keepsSyncLog
                       ([] ++ launches [Exec (buildCommand s) (rsyncPassword s)]) w
                       (log lc LSuccess
                          ("Transfer completed in "
                             +:+ JS.numToString (durationSeconds e) +:+ "s") w0)).
        { unfold log. apply emitted_quiet; [exact Hs | apply keeps_transfer |].
          destruct lc; reflexivity. }
        destruct (JS.truthy sz); info_chain keeps_console keeps_log; exact H2. }
      destruct (JS.truthy stderr && negb (JS.includes stderr "warning")); [|exact H1].
      unfold log. apply emitted_quiet; [exact H1 | apply keeps_logEvents; now right |].
      destruct lc; reflexivity.
    - unfold log. apply emitted_quiet; [exact H0 | | destruct lc; reflexivity].
      assert (Hi : JS.includes ("Rsync failed: " +:+ m) "Sync failed" = false).
      { rewrite noOverlap_includes by reflexivity. now apply Hm. }
      unfold logEvents, keepsSyncLog. destruct lc; cbn [forallb endsSyncLog negb andb];
        now rewrite ?Hi. }
  destruct H as (L & d & Hd & HP & _). exists d. now split.
Qed.

(** The form of [syncSession], with the events of [syncWithRsync] known to
    satisfy [P]. *)
Lemma syncSession_form_with (P : Event -> bool) (sessionId : string)
    (session : SessionConfig) (lc : bool) (e : SyncEnv) (w : World) :
  findSession sessionId (sessions w) = Some session ->
  (forall w1, exists d, fst (syncWithRsync session lc e w1) = emit d w1
                        /\ forallb P d = true) ->
  exists d,
    forallb P d = true
    /\ syncSession sessionId lc e w
       = (emit (prologue w sessionId session lc ++ d
                  ++ epilogue w sessionId session lc e (rsyncOutcome session e)
                       (mutateSession sessionId (outcomeRecord e (rsyncOutcome session e))
                          (sessions w)))
            (set_sessions
               (mutateSession sessionId (outcomeRecord e (rsyncOutcome session e))
                  (sessions w)) w),
          rsyncOutcome session e).
Proof.
  intros Hf HP. unfold syncSession. rewrite Hf.
  set (w1 := log lc LInfo ("Destination: " +:+ destinationPath session) _).
  assert (H1 : w1 = emit (logEvents lc LInfo ("Starting sync for session: " +:+ name session)
                  ++ logEvents lc LInfo ("Source: " +:+ sourcePath session)
                  ++ logEvents lc LInfo ("Destination: " +:+ destinationPath session)) w).
  { subst w1. unfold log. now rewrite !emit_emit, <- ?app_assoc. }
  clearbody w1. cbv zeta.
  assert (H2 : (if syncStartCallback w1 then emit [SyncStart sessionId] w1 else w1)
               = emit (prologue w sessionId session lc) w).
  { rewrite if_emit. subst w1. rewrite emit_emit. unfold prologue.
    change (syncStartCallback (emit _ w)) with (syncStartCallback w).
    now rewrite <- ?app_assoc. }
  rewrite H2. clear H1 H2 w1.
  destruct (syncWithRsync_spec session lc e (emit (prologue w sessionId session lc) w))
    as (w3 & Heq & d & -> & _ & _).
  destruct (HP (emit (prologue w sessionId session lc) w)) as (d' & Hd' & HP').
  rewrite Heq in Hd'. cbn [fst] in Hd'. apply emit_inj in Hd'. subst d'.
  rewrite Heq. clear Heq. exists d. split; [exact HP'|].
  rewrite emit_emit.
  destruct (rsyncOutcome session e) as [|m]; cbv beta iota zeta.
  - rewrite saveGuarded_emit, set_sessions_emit, emit_emit.
    unfold log. rewrite emit_emit, if_emit, emit_emit.
    unfold epilogue, outcomeRecord. f_equal. f_equal.
    rewrite <- ?app_assoc. reflexivity.
  - rewrite saveGuarded_emit, set_sessions_emit, emit_emit.
    unfold log, console.
    match goal with
    | |- context [if notificationCallback ?W then ?a else ?b] =>
        assert (Hn : (if notificationCallback W then a else b)
                     = emit (if notificationCallback w then
                               Notify "imeSync - Sync Error" (errorBody (name session) m) NError ::
                                 match notifyError e with
                                 | Some err => [Console ("Failed to show error notification: " +:+ err)]
                                 | None => []
                                 end
                             else []) W)
    end.
    { change (notificationCallback (emit _ _)) with (notificationCallback w).
      destruct (notificationCallback w); [|now rewrite emit_nil].
      destruct (notifyError e); [now rewrite emit_emit | reflexivity]. }
    rewrite Hn. clear Hn.
    rewrite emit_emit, emit_emit, if_emit, emit_emit.
    unfold epilogue, outcomeRecord. f_equal. f_equal.
    rewrite <- ?app_assoc. reflexivity.
Qed.

Lemma filter_keeps (d : list Event) :
  forallb keepsSyncLog d = true -> List.filter endsSyncLog d = [].
Proof.
  induction d as [|ev d IH]; [reflexivity|]. cbn [forallb List.filter]. intros H.
  apply andb_true_iff in H as [H1 H2]. unfold keepsSyncLog in H1.
  apply negb_true_iff in H1. now rewrite H1, IH.
Qed.

(** X26. The log file of a triggered sync is ended once, by its last
    entry. When a trigger runs a sync of a session the manager holds, with
    the log callback factory ([createSyncLogCallback]) in place, and the
    error of the subprocess, if there is one, does not have [Sync failed]
    in it: the factory is called before anything else; among the entries
    the callback then receives exactly one ends the log file, and it is the
    last entry of the sync, so that nothing is written after the file is
    ended. That entry is the success of the sync, or the error of the sync
    when it failed. *)
Theorem X26_log_ended_once (sessionId : string) (session : SessionConfig)
    (e : SyncEnv) (w : World) :
  findSession sessionId (sessions w) = Some session ->
  isPaused sessionId w = false ->
  logCallbackFactory w = true ->
  (forall m, execResult e = ExecError m -> JS.includes m "Sync failed" = false) ->
  let d := newEvents w (fst (triggerSync sessionId e w)) in
  let final :=
    match rsyncOutcome session e with
    | Resolved => Log LSuccess ("Sync completed for session: " +:+ name session)
    | Rejected m => Log LError ("Sync failed for session " +:+ name session +:+ ": "
                                  +:+ JS.errorToString m)
    end in
  head d = Some (LogFactory sessionId)
  /\ List.filter endsSyncLog d = [final]
  /\ last (List.filter isLog d) = Some final.
Proof.
  intros Hf Hp Hl Hm d final.
  set (W := emit [LogFactory sessionId] w).
  assert (HfW : findSession sessionId (sessions W) = Some session) by exact Hf.
  destruct (syncSession_form_with keepsSyncLog sessionId session true e W HfW
              (fun w1 => syncWithRsync_keeps session true e w1 Hm)) as (d0 & Hk & Heq).
  assert (Hd : d = LogFactory sessionId ::
                     prologue W sessionId session true ++ d0
                     ++ epilogue W sessionId session true e (rsyncOutcome session e)
                          (mutateSession sessionId (outcomeRecord e (rsyncOutcome session e))
                             (sessions W))).
  { subst d. rewrite (triggerSync_running sessionId session e w Hf Hp), Hl. cbn [fst].
    fold W. rewrite Heq. cbn [fst]. apply newEvents_grows.
    subst W. cbn [trace emit set_trace set_sessions]. now rewrite <- app_assoc. }
  rewrite Hd. clear Hd Heq. split; [reflexivity|].
  assert (Hpro : List.filter endsSyncLog (prologue W sessionId session true) = []).
  { unfold prologue. destruct (syncStartCallback W); reflexivity. }
  assert (E1 : JS.includes ("Sync completed for session: " +:+ name session)
                 "Sync completed" = true).
  { apply includes_startsWith. change "Sync completed for session: "
      with ("Sync completed" +:+ " for session: ").
    rewrite append_assoc. apply startsWith_append. }
  assert (E2 : forall m, JS.includes ("Sync failed for session " +:+ name session +:+ ": "
                                        +:+ JS.errorToString m) "Sync failed" = true).
  { intros m. apply includes_startsWith. change "Sync failed for session "
      with ("Sync failed" +:+ " for session ").
    rewrite append_assoc. apply startsWith_append. }
  split.
  - cbn [List.filter endsSyncLog].
    rewrite !List.filter_app, Hpro, (filter_keeps d0 Hk). cbn [app].
    subst final. unfold epilogue, saveEvents.
    destruct (rsyncOutcome session e) as [|m]; rewrite !List.filter_app.
    + destruct (saveSessionsCallback W), (saveError e), (syncEndCallback W);
        cbn [List.filter logEvents endsSyncLog app]; rewrite ?E1; reflexivity.
    + destruct (saveSessionsCallback W), (saveError e), (notificationCallback W),
        (notifyError e), (syncEndCallback W);
        cbn [List.filter logEvents endsSyncLog app]; rewrite ?E2; reflexivity.
  - cbn [List.filter isLog].
    rewrite !List.filter_app, !last_app. subst final. unfold epilogue, saveEvents.
    destruct (rsyncOutcome session e) as [|m].
    + destruct (saveSessionsCallback W), (saveError e), (syncEndCallback W); reflexivity.
    + destruct (saveSessionsCallback W), (saveError e), (notificationCallback W),
        (notifyError e), (syncEndCallback W); reflexivity.
Qed.

Lemma X26_log_ended_once_witness :
  findSession "s1" (sessions scenarioWorld) = Some scenarioSession
  /\ isPaused "s1" scenarioWorld = false
  /\ logCallbackFactory scenarioWorld = true
  /\ List.filter endsSyncLog (newEvents scenarioWorld
                                (fst (triggerSync "s1" envOk scenarioWorld)))
     = [Log LSuccess ("Sync completed for session: " +:+ name scenarioSession)].
Proof.
  split; [reflexivity|]. split; [reflexivity|]. split; [reflexivity|].
  assert (H : forall m, execResult envOk = ExecError m -> JS.includes m "Sync failed" = false)
    by (intros m E; discriminate E).
  exact (proj1 (proj2 (X26_log_ended_once "s1" scenarioSession envOk scenarioWorld
                         eq_refl eq_refl eq_refl H))).
Defined.


(** ** Invariants of the sessions *)

Section Kept.
Variable P : SessionConfig -> bool.
Hypothesis P_outcome : forall e o s, P s = true -> P (outcomeRecord e o s) = true.
Hypothesis P_paused : forall b s, P s = true -> P (setPaused b s) = true.
Hypothesis P_stamp : forall stamp s, P s = true -> P (stampLastSync stamp s) = true.

Lemma kept_refl (w : World) : kept P w w.
Proof. intros H. exact H. Qed.

Lemma kept_trans (a b c : World) : kept P a b -> kept P b c -> kept P a c.
Proof. intros H1 H2 H. apply H2, H1, H. Qed.

Lemma kept_same (w w' : World) : sessions w' = sessions w -> kept P w w'.
Proof. intros E H. now rewrite E. Qed.

Lemma kept_sameSessions (w w' : World) : sameSessions w w' -> kept P w w'.
Proof. intros (E & _). now apply kept_same. Qed.

Lemma forallb_mutateSession (sessionId : string) (f : SessionConfig -> SessionConfig)
    (ss : list SessionConfig) :
  (forall s, P s = true -> P (f s) = true) ->
  forallb P ss = true -> forallb P (mutateSession sessionId f ss) = true.
Proof.
  intros Hf. induction ss as [|s r IH]; [reflexivity|]. cbn [forallb mutateSession].
  intros H. apply andb_true_iff in H as [H1 H2].
  destruct (bool_decide (id s = sessionId)); cbn [forallb].
  - now rewrite (Hf s H1), H2.
  - now rewrite H1, (IH H2).
Qed.

Lemma kept_syncSession (sessionId : string) (lc : bool) (e : SyncEnv) (w : World) :
  kept P w (fst (syncSession sessionId lc e w)).
Proof.
  destruct (findSession sessionId (sessions w)) as [session|] eqn:Hf.
  - destruct (syncSession_form sessionId session lc e w Hf) as (d & _ & _ & Heq).
    rewrite Heq. cbn [fst]. intros H.
    change (sessions (emit _ (set_sessions ?S w))) with S.
    apply forallb_mutateSession; [|exact H]. intros s. apply P_outcome.
  - unfold syncSession. rewrite Hf. apply kept_refl.
Qed.

Lemma kept_requestSync (sessionId : string) (e : SyncEnv) (w : World) :
  kept P w (requestSync sessionId e w).
Proof.
  unfold requestSync, triggerSync.
  destruct (globallyPaused w); [now apply kept_same|].
  set (w0 := if logCallbackFactory w then emit [LogFactory sessionId] w else w).
  assert (H0 : kept P w w0).
  { subst w0. destruct (logCallbackFactory w); now apply kept_same. }
  assert (Hrun : kept P w
                   (let '(w1, o) := syncSession sessionId (logCallbackFactory w0) e w0 in
                    match o with
                    | Rejected m => console (JS.errorToString m) w1
                    | Resolved => w1
                    end)).
  { pose proof (kept_syncSession sessionId (logCallbackFactory w0) e w0) as H1.
    destruct (syncSession _ _ _ _) as [w1 [|m]]; cbn [fst] in H1.
    - eapply kept_trans; eassumption.
    - eapply kept_trans; [|apply (kept_same w1); reflexivity].
      eapply kept_trans; eassumption. }
  destruct (findSession sessionId (sessions w)) as [session|].
  - destruct (bool_decide (paused session = Some true)); [now apply kept_same|].
    fold w0. destruct (syncSession _ _ _ _) as [w1 [|m]]; exact Hrun.
  - fold w0. destruct (syncSession _ _ _ _) as [w1 [|m]]; exact Hrun.
Qed.

Lemma kept_console_requestSync (line sessionId : string) (e : SyncEnv) (w : World) :
  kept P w (requestSync sessionId e (console line w)).
Proof.
  eapply kept_trans; [apply (kept_same w (console line w)); reflexivity|].
  apply kept_requestSync.
Qed.

Lemma kept_fold_left {A} (f : World -> A -> World) (l : list A) (w : World) :
  (forall w0 x, kept P w0 (f w0 x)) -> kept P w (fold_left f l w).
Proof.
  intros Hf. revert w. induction l as [|x l IH]; intros w; [apply kept_refl|].
  simpl. eapply kept_trans; [apply Hf | apply IH].
Qed.

Lemma kept_checkWiFiTrigger (sid sn : string) (prev cur : option string)
    (fe : FireEnv) (w : World) (trigger : Trigger) :
  kept P w (checkWiFiTrigger sid sn prev cur fe w trigger).
Proof.
  destruct trigger as [t| | | |]; try apply kept_refl. cbn [checkWiFiTrigger].
  set (w1 := if wifiOnConnect t cur then _ else w).
  assert (H1 : kept P w w1).
  { subst w1. destruct (wifiOnConnect t cur); [|apply kept_refl].
    apply kept_console_requestSync. }
  destruct (wifiOnDisconnect t prev cur); [|exact H1].
  eapply kept_trans; [exact H1|]. apply kept_console_requestSync.
Qed.

Lemma kept_checkNetwork (fe : FireEnv) (w : World) : kept P w (checkNetwork fe w).
Proof.
  unfold checkNetwork.
  destruct (bool_decide (sampledSSID fe = currentSSID w)); [apply kept_refl|].
  cbv zeta. eapply kept_trans; [|apply kept_fold_left].
  - apply (kept_same w (set_currentSSID (sampledSSID fe) w)). reflexivity.
  - intros w0 s. apply kept_fold_left. intros w1 t. apply kept_checkWiFiTrigger.
Qed.

Lemma kept_runCallback (cb : Callback) (fe : FireEnv) (w : World) :
  kept P w (runCallback cb fe w).
Proof.
  destruct cb as [|sid sn t|sid sn k f|sid sn t|sid sn t|]; cbn [runCallback].
  - now apply kept_same.
  - unfold checkSchedule.
    destruct (scheduleTimeMatches t (date fe)); [|apply kept_refl].
    destruct (scheduleShouldTrigger t (date fe)); [|apply kept_refl].
    apply kept_console_requestSync.
  - cbv zeta. eapply kept_trans; [apply kept_console_requestSync|].
    now apply kept_same.
  - apply kept_console_requestSync.
  - unfold executeSync.
    destruct (intervalInWindow t (date fe)); [|apply kept_refl].
    apply kept_console_requestSync.
  - apply kept_checkNetwork.
Qed.

Lemma kept_fireTimer (h : nat) (fe : FireEnv) (w : World) : kept P w (fireTimer h fe w).
Proof.
  unfold fireTimer. destruct (liveTimers w !! h) as [t|]; [|apply kept_refl].
  destruct (due t <=? clock w); [|apply kept_refl].
  eapply kept_trans; [|apply kept_runCallback].
  apply kept_same. destruct (repeating t); reflexivity.
Qed.

Lemma kept_fileEvent (h : nat) (filename : option string)
    (regexTest : string -> string -> bool) (w : World) :
  kept P w (fileEvent h filename regexTest w).
Proof.
  apply kept_same. unfold fileEvent. destruct (openWatchers w !! h) as [wt|]; [|reflexivity].
  unfold onFileChange. destruct filename as [f|]; [|reflexivity].
  destruct (JS.truthy f); [|reflexivity].
  destruct (negb _); [|reflexivity].
  cbv zeta. destruct (timers w !! _); reflexivity.
Qed.

Lemma kept_setSessionPaused (b : bool) (word sessionId : string)
    (saveErr : option string) (w : World) :
  kept P w (setSessionPaused b word sessionId saveErr w).
Proof.
  intros H. rewrite setSessionPaused_sessions.
  apply forallb_mutateSession; [|exact H]. intros s. apply P_paused.
Qed.

Lemma kept_updateSessions (ss : list SessionConfig) (watchOk : string -> bool)
    (w : World) :
  forallb P ss = true -> forallb P (sessions (updateSessions ss watchOk w)) = true.
Proof.
  intros H. destruct (sameSessions_updateSessions ss watchOk w) as (-> & _). exact H.
Qed.

Lemma kept_step (w : World) (i : Input) :
  feeds P i = true -> kept P w (step w i).
Proof.
  intros Hi. destruct i; cbn [step feeds] in *.
  - apply kept_fireTimer.
  - apply kept_fileEvent.
  - now apply kept_same.
  - apply kept_sameSessions, sameSessions_start.
  - apply kept_sameSessions, sameSessions_stop.
  - intros _. now apply kept_updateSessions.
  - now apply kept_same.
  - now apply kept_same.
  - apply kept_setSessionPaused.
  - apply kept_setSessionPaused.
  - unfold syncNow.
    pose proof (kept_syncSession sessionId true e w) as H1.
    destruct (syncSession sessionId true e w) as [w1 [|m]]; cbn [fst] in *.
    + destruct (findSession sessionId disk).
      * cbn [fst]. intros _. apply kept_updateSessions.
        apply forallb_mutateSession; [|exact Hi]. intros x. apply P_stamp.
      * cbn [fst]. eapply kept_trans; [exact H1|]. now apply kept_same.
    + eapply kept_trans; [exact H1|]. now apply kept_same.
Qed.

Lemma kept_run (w : World) (inputs : list Input) :
  forallb (feeds P) inputs = true -> kept P w (run w inputs).
Proof.
  revert w. induction inputs as [|i r IH]; intros w H; [apply kept_refl|].
  cbn [forallb] in H. apply andb_true_iff in H as [Hi Hr].
  unfold run. cbn [fold_left]. fold (run (step w i) r).
  eapply kept_trans; [exact (kept_step w i Hi) | exact (IH _ Hr)].
Qed.
End Kept.

Lemma recordSound_outcome (e : SyncEnv) (o : Outcome) (s : SessionConfig) :
  recordSound (outcomeRecord e o s) = true.
Proof. destruct o as [|m]; reflexivity. Qed.

Lemma recordSound_stamp (stamp : string) (s : SessionConfig) :
  recordSound s = true -> recordSound (stampLastSync stamp s) = true.
Proof.
  unfold recordSound. cbn [stampLastSync lastSyncStatus lastSyncError lastSync].
  destruct (lastSyncStatus s) as [[| |]|]; intros H; try exact H.
  - apply andb_true_iff in H as [-> _]. cbn [andb].
    apply bool_decide_eq_true_2. now eexists.
  - apply andb_true_iff in H as [-> _]. cbn [andb].
    apply bool_decide_eq_true_2. now eexists.
Qed.

(** X27. The record of the last sync stays sound. When the sessions the
    manager starts from, and every collection handed to it later by
    [updateSessions] or by the handler of [sync-now], have a sound record
    (a success with a time and no error, an error with a time and a
    message, no error without a status, and no other status), then in
    every state the manager can reach every session has a sound record:
    whatever syncs ran, succeeded or failed, and whatever was paused or
    resumed. After a sync the record of its session is sound whatever it
    was before. *)
Theorem X27_record_sound (w : World) (inputs : list Input) :
  forallb recordSound (sessions w) = true ->
  forallb (feeds recordSound) inputs = true ->
  forallb recordSound (sessions (run w inputs)) = true
  /\ forall sessionId session lc e,
       findSession sessionId (sessions w) = Some session ->
       recordSound <$> findSession sessionId (sessions (fst (syncSession sessionId lc e w)))
       = Some true.
Proof.
  intros Hw Hi. split.
  - apply (kept_run recordSound); try assumption.
    + intros e o s _. apply recordSound_outcome.
    + intros b s H. exact H.
    + apply recordSound_stamp.
  - intros sessionId session lc e Hf.
    destruct (syncSession_form sessionId session lc e w Hf) as (d & _ & _ & Heq).
    rewrite Heq. cbn [fst].
    change (sessions (emit _ (set_sessions ?S w))) with S.
    rewrite (findSession_mutate sessionId _ _ session); [|now destruct (rsyncOutcome session e)|exact Hf].
    cbn [fmap option_fmap option_map]. now rewrite recordSound_outcome.
Qed.

Lemma X27_record_sound_witness :
  forallb recordSound (sessions scenarioWorld) = true
  /\ forallb (feeds recordSound)
       [CallPauseSession "s1" None; CallSyncNow "s1" envOk [scenarioSession] "t" (fun _ => true);
        CallResumeSession "s1" None] = true
  /\ forallb recordSound
       (sessions (run scenarioWorld
                    [CallPauseSession "s1" None;
                     CallSyncNow "s1" envOk [scenarioSession] "t" (fun _ => true);
                     CallResumeSession "s1" None])) = true.
Proof.
  split; [reflexivity|]. split; [reflexivity|].
  exact (proj1 (X27_record_sound scenarioWorld
                  [CallPauseSession "s1" None;
                   CallSyncNow "s1" envOk [scenarioSession] "t" (fun _ => true);
                   CallResumeSession "s1" None] eq_refl eq_refl)).
Defined.
